(** * 19box: a shallow embedding of the session core and its checked properties

    The development follows the packages of the Go program:
    [Go] (machine integers and wall-clock time as the program uses them),
    [Track], [Listener], [Registry], [Filter], [Playback], [State],
    [Notification], [Session] and [Connect].  Every definition names the
    source function it embeds.  The properties C1..C10 follow the
    embedding. *)

From Stdlib Require Import ZArith List String Ascii Bool Lia.
From stdpp Require Import base option list gmap strings.
Import ListNotations.
Local Open Scope Z_scope.

(** ** Go: machine integers and time *)

Module Go.

(** [int] and [int64] are 64 bits wide on the platforms the server is built
    for; arithmetic on them wraps around silently. *)
Definition min_int64 : Z := - 2 ^ 63.
Definition max_int64 : Z := 2 ^ 63 - 1.
Definition wrap64 (z : Z) : Z := (z + 2 ^ 63) mod 2 ^ 64 - 2 ^ 63.
Definition add64 (a b : Z) : Z := wrap64 (a + b).
Definition sub64 (a b : Z) : Z := wrap64 (a - b).
Definition neg64 (a : Z) : Z := wrap64 (- a).
Definition mul64 (a b : Z) : Z := wrap64 (a * b).
Definition in_int64 (z : Z) : Prop := min_int64 <= z <= max_int64.

(** [uint64]: the notification sequence counter. *)
Definition wrapu64 (z : Z) : Z := z mod 2 ^ 64.

(** [time.Duration] is an [int64] count of nanoseconds. *)
Definition Millisecond : Z := 1000000.
Definition Second : Z := 1000000000.
Definition Minute : Z := 60 * Second.
Definition Hour : Z := 60 * Minute.

(** [time.Time], read on the wall clock: the controller strips the monotonic
    reading with [toWallTime], and the filters compare against instants parsed
    from the configuration, which carry none.  An instant is its count of
    nanoseconds since the Unix epoch; the library's range (64-bit seconds) is
    far wider than any [Duration], so instants are not wrapped. *)

(** The zero [time.Time{}] is January 1, year 1, 00:00 UTC. *)
Definition zeroTime : Z := - 62135596800 * Second.
Definition IsZero (t : Z) : bool := t =? zeroTime.
Definition Before (t u : Z) : bool := t <? u.
Definition After (t u : Z) : bool := u <? t.
Definition Equal (t u : Z) : bool := t =? u.
Definition Add (t : Z) (d : Z) : Z := t + d.

(** [Time.Sub] saturates at the largest and smallest [Duration]. *)
Definition Sub (t u : Z) : Z :=
  if max_int64 <? t - u then max_int64
  else if t - u <? min_int64 then min_int64
  else t - u.

End Go.

(** ** Package track (src/internal/domain/track) *)

Module Track.

Inductive RequesterType :=
| RequesterTypeUser
| RequesterTypeSystem
| RequesterTypeOpening
| RequesterTypeEnding
| RequesterTypeBGM.

Definition RequesterType_eqb (a b : RequesterType) : bool :=
  match a, b with
  | RequesterTypeUser, RequesterTypeUser
  | RequesterTypeSystem, RequesterTypeSystem
  | RequesterTypeOpening, RequesterTypeOpening
  | RequesterTypeEnding, RequesterTypeEnding
  | RequesterTypeBGM, RequesterTypeBGM => true
  | _, _ => false
  end.

Record Track := mkTrack {
  ID : string;
  Name : string;
  Artists : list string;
  Duration : Z;
  Markets : list string;
  IsPlayable : option bool
}.

Record Requester := mkRequester {
  RequesterID : string;
  RequesterName : string;
  ExternalUserID : string;
  Type_ : RequesterType
}.

Record QueuedTrack := mkQueuedTrack {
  track : Track;
  requester : Requester;
  AddedAt : Z
}.

(** [Track.IsAvailableInMarket] *)
Definition IsAvailableInMarket (t : Track) (market : string) : bool :=
  match IsPlayable t with
  | Some b => b
  | None => existsb (String.eqb market) (Markets t)
  end.

End Track.

(** ** Package listener (src/unnamed/part_014, Session) *)

Module Listener.

Record Session := mkSession {
  ID : string;
  DisplayName : string;
  ExternalUserID : string;
  PendingTracks : Z;
  IsKicked : bool;
  JoinedAt : Z;
  VIPStatus : bool;
  RequestQuota : Z;
  TotalRequests : Z;
  LastRequestAt : option Z
}.

(** [NewSession]; [now] is the reading of [time.Now()]. *)
Definition NewSession (now : Z) (id displayName externalUserID : string) (isVIP : bool) : Session :=
  {| ID := id; DisplayName := displayName; ExternalUserID := externalUserID;
     PendingTracks := 0; IsKicked := false; JoinedAt := now; VIPStatus := isVIP;
     RequestQuota := 0; TotalRequests := 0; LastRequestAt := None |}.

(** [Session.IncrementPendingTracks]: [s.PendingTracks++; s.TotalRequests++]. *)
Definition IncrementPendingTracks (now : Z) (s : Session) : Session :=
  {| ID := ID s; DisplayName := DisplayName s; ExternalUserID := ExternalUserID s;
     PendingTracks := Go.add64 (PendingTracks s) 1;
     IsKicked := IsKicked s; JoinedAt := JoinedAt s; VIPStatus := VIPStatus s;
     RequestQuota := RequestQuota s;
     TotalRequests := Go.add64 (TotalRequests s) 1;
     LastRequestAt := Some now |}.

(** [Session.DecrementPendingTracks]: decrement only when positive. *)
Definition DecrementPendingTracks (s : Session) : Session :=
  if 0 <? PendingTracks s then
    {| ID := ID s; DisplayName := DisplayName s; ExternalUserID := ExternalUserID s;
       PendingTracks := Go.sub64 (PendingTracks s) 1;
       IsKicked := IsKicked s; JoinedAt := JoinedAt s; VIPStatus := VIPStatus s;
       RequestQuota := RequestQuota s; TotalRequests := TotalRequests s;
       LastRequestAt := LastRequestAt s |}
  else s.

(** [Session.Kick] *)
Definition Kick (s : Session) : Session :=
  {| ID := ID s; DisplayName := DisplayName s; ExternalUserID := ExternalUserID s;
     PendingTracks := PendingTracks s; IsKicked := true; JoinedAt := JoinedAt s;
     VIPStatus := VIPStatus s; RequestQuota := RequestQuota s;
     TotalRequests := TotalRequests s; LastRequestAt := LastRequestAt s |}.

(** [Session.CanRequest] *)
Definition CanRequest (s : Session) : bool :=
  if IsKicked s then false
  else if VIPStatus s then true
  else PendingTracks s =? 0.

End Listener.

(** ** Strings and regular expressions, as the duplicate filter uses them

    Strings are byte sequences.  [ToLower], [TrimSpace] and [EqualFold] are
    the library's functions on ASCII text; bytes outside ASCII are left as
    they are.  The matcher is the leftmost-first (backtracking-order) matching
    of Go's [regexp] for the operators the filter's patterns use. *)

Module Strs.

Definition code (a : ascii) : nat := nat_of_ascii a.

Definition is_upper (a : ascii) : bool := (65 <=? code a)%nat && (code a <=? 90)%nat.
Definition lower (a : ascii) : ascii :=
  if is_upper a then ascii_of_nat (code a + 32) else a.

(** [strings.ToLower] *)
Definition ToLower (s : list ascii) : list ascii := map lower s.

(** [strings.EqualFold] *)
Definition EqualFold (s t : string) : bool :=
  String.eqb (string_of_list_ascii (ToLower (list_ascii_of_string s)))
             (string_of_list_ascii (ToLower (list_ascii_of_string t))).

(** White space of [strings.TrimSpace]: tab, line feed, vertical tab, form
    feed, carriage return, space. *)
Definition is_trim_space (a : ascii) : bool :=
  ((9 <=? code a)%nat && (code a <=? 13)%nat) || (code a =? 32)%nat.

Fixpoint TrimLeftFunc (p : ascii -> bool) (s : list ascii) : list ascii :=
  match s with
  | c :: s' => if p c then TrimLeftFunc p s' else s
  | [] => []
  end.

Definition TrimRightFunc (p : ascii -> bool) (s : list ascii) : list ascii :=
  rev (TrimLeftFunc p (rev s)).

(** [strings.TrimSpace] *)
Definition TrimSpace (s : list ascii) : list ascii :=
  TrimRightFunc is_trim_space (TrimLeftFunc is_trim_space s).

(** [strings.TrimRight s cutset] *)
Definition TrimRight (s : list ascii) (cutset : list ascii) : list ascii :=
  TrimRightFunc (fun c => existsb (Ascii.eqb c) cutset) s.

End Strs.

Module Regexp.

(** Character classes: [\s] is [[\t\n\f\r ]], [\d] is [[0-9]], [.] is any
    character but a line feed. *)
Inductive cls := CSpace | CDigit | CAny | CLit (a : ascii).

Definition cls_match (c : cls) (a : ascii) : bool :=
  let n := Strs.code a in
  match c with
  | CSpace => (n =? 9)%nat || (n =? 10)%nat || (n =? 12)%nat || (n =? 13)%nat || (n =? 32)%nat
  | CDigit => (48 <=? n)%nat && (n <=? 57)%nat
  | CAny => negb (n =? 10)%nat
  | CLit b => Ascii.eqb a b
  end.

Inductive re :=
| RChar (c : cls)
| REps
| RSeq (r1 r2 : re)
| ROpt (r : re)
| RStar (c : cls)
| RLazy (c : cls)
| RRep (c : cls) (n : nat) (extra : nat).

Definition K := list ascii -> option (list ascii).

(** [c*], longest first. *)
Fixpoint star_greedy (p : ascii -> bool) (s : list ascii) (k : K) : option (list ascii) :=
  match s with
  | a :: s' =>
      if p a then
        match star_greedy p s' k with
        | Some r => Some r
        | None => k s
        end
      else k s
  | [] => k []
  end.

(** [c*?], shortest first. *)
Fixpoint star_lazy (p : ascii -> bool) (s : list ascii) (k : K) : option (list ascii) :=
  match k s with
  | Some r => Some r
  | None =>
      match s with
      | a :: s' => if p a then star_lazy p s' k else None
      | [] => None
      end
  end.

(** At most [n] more repetitions, longest first. *)
Fixpoint upto_greedy (p : ascii -> bool) (n : nat) (s : list ascii) (k : K) : option (list ascii) :=
  match n with
  | O => k s
  | S n' =>
      match s with
      | a :: s' =>
          if p a then
            match upto_greedy p n' s' k with
            | Some r => Some r
            | None => k s
            end
          else k s
      | [] => k s
      end
  end.

(** Exactly [n] repetitions. *)
Fixpoint exactly (p : ascii -> bool) (n : nat) (s : list ascii) (k : K) : option (list ascii) :=
  match n with
  | O => k s
  | S n' =>
      match s with
      | a :: s' => if p a then exactly p n' s' k else None
      | [] => None
      end
  end.

(** [matchAt r s k]: the rest of [s] after the first match of [r] at the
    head of [s], in priority order, for which the continuation succeeds. *)
Fixpoint matchAt (r : re) (s : list ascii) (k : K) : option (list ascii) :=
  match r with
  | RChar c =>
      match s with
      | a :: s' => if cls_match c a then k s' else None
      | [] => None
      end
  | REps => k s
  | RSeq r1 r2 => matchAt r1 s (fun s' => matchAt r2 s' k)
  | ROpt r1 =>
      match matchAt r1 s k with
      | Some x => Some x
      | None => k s
      end
  | RStar c => star_greedy (cls_match c) s k
  | RLazy c => star_lazy (cls_match c) s k
  | RRep c n extra =>
      exactly (cls_match c) n s (fun s' => upto_greedy (cls_match c) extra s' k)
  end.

(** [Regexp.ReplaceAllString]: scan from the left, replace each match and
    resume after it.  A match that consumes nothing is passed over (none of
    the filter's patterns matches the empty string). *)
Fixpoint replaceAll (r : re) (repl : list ascii) (fuel : nat) (s : list ascii) : list ascii :=
  match fuel with
  | O => s
  | S fuel' =>
      match s with
      | [] => []
      | a :: s' =>
          match matchAt r s Some with
          | Some rest =>
              if (length rest <? length s)%nat
              then repl ++ replaceAll r repl fuel' rest
              else a :: replaceAll r repl fuel' s'
          | None => a :: replaceAll r repl fuel' s'
          end
      end
  end.

Definition ReplaceAllString (r : re) (s repl : list ascii) : list ascii :=
  replaceAll r repl (S (length s)) s.

Fixpoint seq (rs : list re) : re :=
  match rs with
  | [] => REps
  | [r] => r
  | r :: rs' => RSeq r (seq rs')
  end.

Definition lit (s : string) : re := seq (map (fun a => RChar (CLit a)) (list_ascii_of_string s)).
Definition plus (c : cls) : re := RSeq (RChar c) (RStar c).
Definition ch (s : string) : re := lit s.

End Regexp.

(** ** Package filter (src/unnamed/part_005, part_006, src/internal/app/filter) *)

Module Filter.

Record TrackRequest := mkTrackRequest {
  ListenerID : string;
  TrackID : string
}.

Record Result := mkResult {
  Accepted : bool;
  Code : string
}.

(** [Accept] and [Reject] *)
Definition Accept : Result := {| Accepted := true; Code := "" |}.
Definition Reject (code : string) : Result := {| Accepted := false; Code := code |}.

(** The [Filter] interface.  A filter built with runtime dependencies reads
    them through closures when [Check] runs; [W] is what those closures read
    (the session state, the playback controller, the clock). *)
Record Filter (W : Type) := mkFilter {
  Name : string;
  AppliesTo : Track.RequesterType -> bool;
  Check : W -> TrackRequest -> Track.Track -> Listener.Session -> Result
}.
Arguments Name {W} _.
Arguments AppliesTo {W} _ _.
Arguments Check {W} _ _ _ _ _.

(** [Chain.Execute]: filters in order, those that do not apply skipped, the
    first rejection returned. *)
Fixpoint Execute {W : Type} (filters : list (Filter W)) (w : W) (req : TrackRequest)
    (t : Track.Track) (l : Listener.Session) (requesterType : Track.RequesterType) : Result :=
  match filters with
  | [] => Accept
  | f :: rest =>
      if negb (AppliesTo f requesterType) then Execute rest w req t l requesterType
      else
        let result := Check f w req t l in
        if negb (Accepted result) then result
        else Execute rest w req t l requesterType
  end.

Definition userOnly (requesterType : Track.RequesterType) : bool :=
  Track.RequesterType_eqb requesterType Track.RequesterTypeUser.

(** *** AcceptanceDoneFilter (acceptance_done.go) *)

Record AcceptanceDoneFilter (W : Type) := mkAcceptanceDoneFilter {
  isAccepting : W -> bool;
  getEndTime : W -> option Z;
  getEndingDur : W -> Z;
  getQueueDuration : W -> Z;
  getCurrentRemain : W -> Z;
  getNow : W -> Z
}.
Arguments isAccepting {W} _ _.
Arguments getEndTime {W} _ _.
Arguments getEndingDur {W} _ _.
Arguments getQueueDuration {W} _ _.
Arguments getCurrentRemain {W} _ _.
Arguments getNow {W} _ _.

(** [AcceptanceDoneFilter.Check] *)
Definition AcceptanceDone_Check {W : Type} (f : AcceptanceDoneFilter W) (w : W)
    (req : TrackRequest) (t : Track.Track) (l : Listener.Session) : Result :=
  if negb (isAccepting f w) then Reject "acceptance_done"
  else
    match getEndTime f w with
    | Some endTime =>
        let endingDuration := getEndingDur f w in
        let deadline := Go.Add endTime (Go.neg64 endingDuration) in
        let now := getNow f w in
        if Go.After now deadline then Reject "time_limit_exceeded"
        else
          let currentRemaining := getCurrentRemain f w in
          let queueDuration := getQueueDuration f w in
          let playbackStartTime := Go.Add (Go.Add now currentRemaining) queueDuration in
          if Go.After playbackStartTime deadline || Go.Equal playbackStartTime deadline
          then Reject "time_limit_exceeded"
          else Accept
    | None => Accept
    end.

Definition NewAcceptanceDoneFilter {W : Type} (f : AcceptanceDoneFilter W) : Filter W :=
  {| Name := "acceptance_done_filter"; AppliesTo := userOnly; Check := AcceptanceDone_Check f |}.

(** *** MarketFilter, KickedFilter, UserPendingFilter (user_pending.go, kicked.go) *)

Definition Market_Check (market : string) (t : Track.Track) : Result :=
  if String.eqb market "" then Accept
  else if negb (Track.IsAvailableInMarket t market) then Reject "market_restriction"
  else Accept.

Definition NewMarketFilter {W : Type} (market : string) : Filter W :=
  {| Name := "market_filter"; AppliesTo := fun _ => true;
     Check := fun _ _ t _ => Market_Check market t |}.

Definition Kicked_Check (l : Listener.Session) : Result :=
  if Listener.IsKicked l then Reject "kicked" else Accept.

Definition KickedFilter {W : Type} : Filter W :=
  {| Name := "kicked_listener_filter"; AppliesTo := userOnly;
     Check := fun _ _ _ l => Kicked_Check l |}.

Definition UserPending_Check (l : Listener.Session) : Result :=
  if Listener.VIPStatus l then Accept
  else if 0 <? Listener.PendingTracks l then Reject "user_pending"
  else Accept.

Definition UserPendingFilter {W : Type} : Filter W :=
  {| Name := "user_pending_filter"; AppliesTo := userOnly;
     Check := fun _ _ _ l => UserPending_Check l |}.

(** *** DuplicateTrackFilter (user_pending.go, second document) *)

Import Regexp.

Definition sp : re := RStar CSpace.
Definition dash : re := ROpt (lit "-").
Definition ed : re := ROpt (lit "ed").

(** The six remaster patterns, in the order of the source. *)
Definition remasterPatterns : list re :=
  [ seq [sp; dash; sp; RRep CDigit 4 0; plus CSpace; lit "remaster"; ed];
    seq [sp; lit "("; lit "remaster"; ed; sp; RRep CDigit 0 4; lit ")"];
    seq [sp; lit "["; lit "remaster"; ed; sp; RRep CDigit 0 4; lit "]"];
    seq [sp; dash; sp; lit "remaster"; ed; ROpt (RSeq (plus CSpace) (lit "version"))];
    seq [sp; lit "("; RLazy CAny; lit "remaster"; RLazy CAny; lit ")"];
    seq [sp; lit "["; RLazy CAny; lit "remaster"; RLazy CAny; lit "]"] ].

(** The six version patterns. *)
Definition versionPatterns : list re :=
  [ seq [sp; lit "("; RLazy CAny; lit "version"; lit ")"];
    seq [sp; lit "("; RLazy CAny; lit "edit"; lit ")"];
    seq [sp; dash; sp; lit "live"];
    seq [sp; lit "("; lit "live"; lit ")"];
    seq [sp; dash; sp; lit "radio"; plus CSpace; lit "edit"];
    seq [sp; dash; sp; lit "single"; plus CSpace; lit "version"] ].

Definition removeAll (patterns : list re) (s : list ascii) : list ascii :=
  fold_left (fun normalized pattern => ReplaceAllString pattern normalized []) patterns s.

(** [normalizeTrackName] *)
Definition normalizeTrackName (name : string) : string :=
  let normalized := Strs.ToLower (list_ascii_of_string name) in
  let normalized := removeAll remasterPatterns normalized in
  let normalized := removeAll versionPatterns normalized in
  let normalized := Strs.TrimSpace normalized in
  let normalized := ReplaceAllString (plus CSpace) normalized (list_ascii_of_string " ") in
  let normalized := Strs.TrimRight normalized (list_ascii_of_string " -") in
  string_of_list_ascii normalized.

(** [isSameArtist]: the first artists, compared without case. *)
Definition isSameArtist (track1 track2 : Track.Track) : bool :=
  match Track.Artists track1, Track.Artists track2 with
  | a1 :: _, a2 :: _ => Strs.EqualFold a1 a2
  | _, _ => false
  end.

(** [DuplicateTrackFilter.isRemaster] *)
Definition isRemaster (track1 track2 : Track.Track) : bool :=
  let name1 := normalizeTrackName (Track.Name track1) in
  let name2 := normalizeTrackName (Track.Name track2) in
  if negb (String.eqb name1 name2) then false
  else isSameArtist track1 track2.

(** The loop of [DuplicateTrackFilter.Check] over [GetAllTracks()]. *)
Fixpoint DuplicateTrack_loop (queuedTracks : list Track.QueuedTrack)
    (requestedTrack : Track.Track) : Result :=
  match queuedTracks with
  | [] => {| Accepted := true; Code := "" |}
  | queued :: rest =>
      if String.eqb (Track.ID (Track.track queued)) (Track.ID requestedTrack)
      then {| Accepted := false; Code := "duplicate_track" |}
      else if isRemaster (Track.track queued) requestedTrack
      then {| Accepted := false; Code := "duplicate_track" |}
      else DuplicateTrack_loop rest requestedTrack
  end.

(** [DuplicateTrackFilter.Check]; [GetAllTracks] is the [QueueManager]. *)
Definition DuplicateTrack_Check {W : Type} (GetAllTracks : W -> list Track.QueuedTrack)
    (w : W) (req : TrackRequest) (requestedTrack : Track.Track)
    (listenerSession : Listener.Session) : Result :=
  DuplicateTrack_loop (GetAllTracks w) requestedTrack.

Definition NewDuplicateTrackFilter {W : Type} (GetAllTracks : W -> list Track.QueuedTrack) : Filter W :=
  {| Name := "duplicate_track_filter"; AppliesTo := userOnly;
     Check := DuplicateTrack_Check GetAllTracks |}.

End Filter.

(** ** Package playback (src/unnamed/part_003, part_004, src/internal/app/playback/state.go) *)

Module Playback.

Inductive State := StateIdle | StatePlaying | StatePaused.

Definition State_eqb (a b : State) : bool :=
  match a, b with
  | StateIdle, StateIdle | StatePlaying, StatePlaying | StatePaused, StatePaused => true
  | _, _ => false
  end.

Inductive EventType :=
| EventTrackStarted
| EventTrackEnded
| EventTrackSkipped
| EventStateChanged
| EventQueueDepleting
| EventQueueEmpty.

Record Event := mkEvent {
  EvType : EventType;
  EvTrack : option Track.QueuedTrack;
  EvState : State
}.

Inductive Error := ErrNoTrack | ErrQueueEmpty | ErrNotPlaying | ErrNotPaused.

Record Config := mkConfig {
  DepletionThresholdSec : Z;
  NotificationDelay : Z;
  GapCorrection : Z
}.

(** A goroutine started by [startWallClockTimer]: it polls the wall clock and
    runs its callback once the clock is after [endTime], unless its cancel
    function was called first.  [running] is false once it was cancelled or
    has run its callback. *)
Inductive Callback :=
| CbTrackEnd
| CbDepletion
| CbTrackStarted (trackID : string)
| CbTrackStartedResumed.

Record Timer := mkTimer {
  endTime : Z;
  callback : Callback;
  running : bool
}.

(** [Controller].  The three cancel handles index the goroutines started for
    the track-end, depletion and notification-delay timers, which the model
    keeps in [trackTimers], [depletionTimers] and [notificationTimers] (a
    goroutine whose handle was overwritten without a cancel stays there and
    may still fire).  [eventCh] is the content of the buffered channel.  The
    controller's context is cancelled only by [Close], which the model does
    not cover, and the mutex is the atomicity of each operation. *)
Record Controller := mkController {
  queue : list Track.QueuedTrack;
  played : list Track.QueuedTrack;
  currentTrack : option Track.QueuedTrack;
  state : State;
  startTime : Z;
  scheduledStartTime : Z;
  notificationTime : Z;
  pausedAt : option Z;
  pausedElapsed : Z;
  timerCancel : option nat;
  depletionTimerCancel : option nat;
  notificationDelayTimerCancel : option nat;
  config : Config;
  eventCh : list Event;
  depletionNotified : bool;
  trackTimers : list Timer;
  depletionTimers : list Timer;
  notificationTimers : list Timer
}.

Definition set_queue (v : list Track.QueuedTrack) (c : Controller) : Controller :=
  {| queue := v; played := played c; currentTrack := currentTrack c; state := state c; startTime := startTime c; scheduledStartTime := scheduledStartTime c; notificationTime := notificationTime c; pausedAt := pausedAt c; pausedElapsed := pausedElapsed c; timerCancel := timerCancel c; depletionTimerCancel := depletionTimerCancel c; notificationDelayTimerCancel := notificationDelayTimerCancel c; config := config c; eventCh := eventCh c; depletionNotified := depletionNotified c; trackTimers := trackTimers c; depletionTimers := depletionTimers c; notificationTimers := notificationTimers c |}.
Definition set_played (v : list Track.QueuedTrack) (c : Controller) : Controller :=
  {| queue := queue c; played := v; currentTrack := currentTrack c; state := state c; startTime := startTime c; scheduledStartTime := scheduledStartTime c; notificationTime := notificationTime c; pausedAt := pausedAt c; pausedElapsed := pausedElapsed c; timerCancel := timerCancel c; depletionTimerCancel := depletionTimerCancel c; notificationDelayTimerCancel := notificationDelayTimerCancel c; config := config c; eventCh := eventCh c; depletionNotified := depletionNotified c; trackTimers := trackTimers c; depletionTimers := depletionTimers c; notificationTimers := notificationTimers c |}.
Definition set_currentTrack (v : option Track.QueuedTrack) (c : Controller) : Controller :=
  {| queue := queue c; played := played c; currentTrack := v; state := state c; startTime := startTime c; scheduledStartTime := scheduledStartTime c; notificationTime := notificationTime c; pausedAt := pausedAt c; pausedElapsed := pausedElapsed c; timerCancel := timerCancel c; depletionTimerCancel := depletionTimerCancel c; notificationDelayTimerCancel := notificationDelayTimerCancel c; config := config c; eventCh := eventCh c; depletionNotified := depletionNotified c; trackTimers := trackTimers c; depletionTimers := depletionTimers c; notificationTimers := notificationTimers c |}.
Definition set_state (v : State) (c : Controller) : Controller :=
  {| queue := queue c; played := played c; currentTrack := currentTrack c; state := v; startTime := startTime c; scheduledStartTime := scheduledStartTime c; notificationTime := notificationTime c; pausedAt := pausedAt c; pausedElapsed := pausedElapsed c; timerCancel := timerCancel c; depletionTimerCancel := depletionTimerCancel c; notificationDelayTimerCancel := notificationDelayTimerCancel c; config := config c; eventCh := eventCh c; depletionNotified := depletionNotified c; trackTimers := trackTimers c; depletionTimers := depletionTimers c; notificationTimers := notificationTimers c |}.
Definition set_startTime (v : Z) (c : Controller) : Controller :=
  {| queue := queue c; played := played c; currentTrack := currentTrack c; state := state c; startTime := v; scheduledStartTime := scheduledStartTime c; notificationTime := notificationTime c; pausedAt := pausedAt c; pausedElapsed := pausedElapsed c; timerCancel := timerCancel c; depletionTimerCancel := depletionTimerCancel c; notificationDelayTimerCancel := notificationDelayTimerCancel c; config := config c; eventCh := eventCh c; depletionNotified := depletionNotified c; trackTimers := trackTimers c; depletionTimers := depletionTimers c; notificationTimers := notificationTimers c |}.
Definition set_scheduledStartTime (v : Z) (c : Controller) : Controller :=
  {| queue := queue c; played := played c; currentTrack := currentTrack c; state := state c; startTime := startTime c; scheduledStartTime := v; notificationTime := notificationTime c; pausedAt := pausedAt c; pausedElapsed := pausedElapsed c; timerCancel := timerCancel c; depletionTimerCancel := depletionTimerCancel c; notificationDelayTimerCancel := notificationDelayTimerCancel c; config := config c; eventCh := eventCh c; depletionNotified := depletionNotified c; trackTimers := trackTimers c; depletionTimers := depletionTimers c; notificationTimers := notificationTimers c |}.
Definition set_notificationTime (v : Z) (c : Controller) : Controller :=
  {| queue := queue c; played := played c; currentTrack := currentTrack c; state := state c; startTime := startTime c; scheduledStartTime := scheduledStartTime c; notificationTime := v; pausedAt := pausedAt c; pausedElapsed := pausedElapsed c; timerCancel := timerCancel c; depletionTimerCancel := depletionTimerCancel c; notificationDelayTimerCancel := notificationDelayTimerCancel c; config := config c; eventCh := eventCh c; depletionNotified := depletionNotified c; trackTimers := trackTimers c; depletionTimers := depletionTimers c; notificationTimers := notificationTimers c |}.
Definition set_pausedAt (v : option Z) (c : Controller) : Controller :=
  {| queue := queue c; played := played c; currentTrack := currentTrack c; state := state c; startTime := startTime c; scheduledStartTime := scheduledStartTime c; notificationTime := notificationTime c; pausedAt := v; pausedElapsed := pausedElapsed c; timerCancel := timerCancel c; depletionTimerCancel := depletionTimerCancel c; notificationDelayTimerCancel := notificationDelayTimerCancel c; config := config c; eventCh := eventCh c; depletionNotified := depletionNotified c; trackTimers := trackTimers c; depletionTimers := depletionTimers c; notificationTimers := notificationTimers c |}.
Definition set_pausedElapsed (v : Z) (c : Controller) : Controller :=
  {| queue := queue c; played := played c; currentTrack := currentTrack c; state := state c; startTime := startTime c; scheduledStartTime := scheduledStartTime c; notificationTime := notificationTime c; pausedAt := pausedAt c; pausedElapsed := v; timerCancel := timerCancel c; depletionTimerCancel := depletionTimerCancel c; notificationDelayTimerCancel := notificationDelayTimerCancel c; config := config c; eventCh := eventCh c; depletionNotified := depletionNotified c; trackTimers := trackTimers c; depletionTimers := depletionTimers c; notificationTimers := notificationTimers c |}.
Definition set_timerCancel (v : option nat) (c : Controller) : Controller :=
  {| queue := queue c; played := played c; currentTrack := currentTrack c; state := state c; startTime := startTime c; scheduledStartTime := scheduledStartTime c; notificationTime := notificationTime c; pausedAt := pausedAt c; pausedElapsed := pausedElapsed c; timerCancel := v; depletionTimerCancel := depletionTimerCancel c; notificationDelayTimerCancel := notificationDelayTimerCancel c; config := config c; eventCh := eventCh c; depletionNotified := depletionNotified c; trackTimers := trackTimers c; depletionTimers := depletionTimers c; notificationTimers := notificationTimers c |}.
Definition set_depletionTimerCancel (v : option nat) (c : Controller) : Controller :=
  {| queue := queue c; played := played c; currentTrack := currentTrack c; state := state c; startTime := startTime c; scheduledStartTime := scheduledStartTime c; notificationTime := notificationTime c; pausedAt := pausedAt c; pausedElapsed := pausedElapsed c; timerCancel := timerCancel c; depletionTimerCancel := v; notificationDelayTimerCancel := notificationDelayTimerCancel c; config := config c; eventCh := eventCh c; depletionNotified := depletionNotified c; trackTimers := trackTimers c; depletionTimers := depletionTimers c; notificationTimers := notificationTimers c |}.
Definition set_notificationDelayTimerCancel (v : option nat) (c : Controller) : Controller :=
  {| queue := queue c; played := played c; currentTrack := currentTrack c; state := state c; startTime := startTime c; scheduledStartTime := scheduledStartTime c; notificationTime := notificationTime c; pausedAt := pausedAt c; pausedElapsed := pausedElapsed c; timerCancel := timerCancel c; depletionTimerCancel := depletionTimerCancel c; notificationDelayTimerCancel := v; config := config c; eventCh := eventCh c; depletionNotified := depletionNotified c; trackTimers := trackTimers c; depletionTimers := depletionTimers c; notificationTimers := notificationTimers c |}.
Definition set_config (v : Config) (c : Controller) : Controller :=
  {| queue := queue c; played := played c; currentTrack := currentTrack c; state := state c; startTime := startTime c; scheduledStartTime := scheduledStartTime c; notificationTime := notificationTime c; pausedAt := pausedAt c; pausedElapsed := pausedElapsed c; timerCancel := timerCancel c; depletionTimerCancel := depletionTimerCancel c; notificationDelayTimerCancel := notificationDelayTimerCancel c; config := v; eventCh := eventCh c; depletionNotified := depletionNotified c; trackTimers := trackTimers c; depletionTimers := depletionTimers c; notificationTimers := notificationTimers c |}.
Definition set_eventCh (v : list Event) (c : Controller) : Controller :=
  {| queue := queue c; played := played c; currentTrack := currentTrack c; state := state c; startTime := startTime c; scheduledStartTime := scheduledStartTime c; notificationTime := notificationTime c; pausedAt := pausedAt c; pausedElapsed := pausedElapsed c; timerCancel := timerCancel c; depletionTimerCancel := depletionTimerCancel c; notificationDelayTimerCancel := notificationDelayTimerCancel c; config := config c; eventCh := v; depletionNotified := depletionNotified c; trackTimers := trackTimers c; depletionTimers := depletionTimers c; notificationTimers := notificationTimers c |}.
Definition set_depletionNotified (v : bool) (c : Controller) : Controller :=
  {| queue := queue c; played := played c; currentTrack := currentTrack c; state := state c; startTime := startTime c; scheduledStartTime := scheduledStartTime c; notificationTime := notificationTime c; pausedAt := pausedAt c; pausedElapsed := pausedElapsed c; timerCancel := timerCancel c; depletionTimerCancel := depletionTimerCancel c; notificationDelayTimerCancel := notificationDelayTimerCancel c; config := config c; eventCh := eventCh c; depletionNotified := v; trackTimers := trackTimers c; depletionTimers := depletionTimers c; notificationTimers := notificationTimers c |}.
Definition set_trackTimers (v : list Timer) (c : Controller) : Controller :=
  {| queue := queue c; played := played c; currentTrack := currentTrack c; state := state c; startTime := startTime c; scheduledStartTime := scheduledStartTime c; notificationTime := notificationTime c; pausedAt := pausedAt c; pausedElapsed := pausedElapsed c; timerCancel := timerCancel c; depletionTimerCancel := depletionTimerCancel c; notificationDelayTimerCancel := notificationDelayTimerCancel c; config := config c; eventCh := eventCh c; depletionNotified := depletionNotified c; trackTimers := v; depletionTimers := depletionTimers c; notificationTimers := notificationTimers c |}.
Definition set_depletionTimers (v : list Timer) (c : Controller) : Controller :=
  {| queue := queue c; played := played c; currentTrack := currentTrack c; state := state c; startTime := startTime c; scheduledStartTime := scheduledStartTime c; notificationTime := notificationTime c; pausedAt := pausedAt c; pausedElapsed := pausedElapsed c; timerCancel := timerCancel c; depletionTimerCancel := depletionTimerCancel c; notificationDelayTimerCancel := notificationDelayTimerCancel c; config := config c; eventCh := eventCh c; depletionNotified := depletionNotified c; trackTimers := trackTimers c; depletionTimers := v; notificationTimers := notificationTimers c |}.
Definition set_notificationTimers (v : list Timer) (c : Controller) : Controller :=
  {| queue := queue c; played := played c; currentTrack := currentTrack c; state := state c; startTime := startTime c; scheduledStartTime := scheduledStartTime c; notificationTime := notificationTime c; pausedAt := pausedAt c; pausedElapsed := pausedElapsed c; timerCancel := timerCancel c; depletionTimerCancel := depletionTimerCancel c; notificationDelayTimerCancel := notificationDelayTimerCancel c; config := config c; eventCh := eventCh c; depletionNotified := depletionNotified c; trackTimers := trackTimers c; depletionTimers := depletionTimers c; notificationTimers := v |}.

(** [NewController] *)
Definition NewController (cfg : Config) : Controller :=
  {| queue := []; played := []; currentTrack := None; state := StateIdle;
     startTime := Go.zeroTime; scheduledStartTime := Go.zeroTime;
     notificationTime := Go.zeroTime; pausedAt := None; pausedElapsed := 0;
     timerCancel := None; depletionTimerCancel := None;
     notificationDelayTimerCancel := None; config := cfg; eventCh := [];
     depletionNotified := false;
     trackTimers := []; depletionTimers := []; notificationTimers := [] |}.

(** Capacity of [eventCh]: [make(chan Event, 10)]. *)
Definition eventChCap : nat := 10.

(** [sendEventLocked]: a non-blocking send; the event is dropped when the
    channel is full. *)
Definition sendEventLocked (e : Event) (c : Controller) : Controller :=
  if (length (eventCh c) <? eventChCap)%nat then set_eventCh (eventCh c ++ [e]) c else c.

(** Calling the cancel function of a timer goroutine. *)
Definition cancelTimer (t : Timer) : Timer :=
  {| endTime := endTime t; callback := callback t; running := false |}.

Definition cancelAt (h : option nat) (ts : list Timer) : list Timer :=
  match h with
  | Some i => alter cancelTimer i ts
  | None => ts
  end.

(** [startWallClockTimer]: the goroutine computes its end time from the wall
    clock when it starts. *)
Definition startWallClockTimer (now duration : Z) (cb : Callback) (ts : list Timer)
    : list Timer * nat :=
  (ts ++ [ {| endTime := Go.Add now duration; callback := cb; running := true |} ], length ts).

(** [if c.timerCancel != nil { c.timerCancel(); c.timerCancel = nil }] and its
    two siblings. *)
Definition stopTrackTimer (c : Controller) : Controller :=
  set_timerCancel None (set_trackTimers (cancelAt (timerCancel c) (trackTimers c)) c).

Definition stopDepletionTimer (c : Controller) : Controller :=
  set_depletionTimerCancel None
    (set_depletionTimers (cancelAt (depletionTimerCancel c) (depletionTimers c)) c).

Definition stopNotificationTimer (c : Controller) : Controller :=
  set_notificationDelayTimerCancel None
    (set_notificationTimers
       (cancelAt (notificationDelayTimerCancel c) (notificationTimers c)) c).

(** [startTrackTimer] *)
Definition startTrackTimer (now duration : Z) (c : Controller) : Controller :=
  let ts := cancelAt (timerCancel c) (trackTimers c) in
  let '(ts', h) := startWallClockTimer now duration CbTrackEnd ts in
  set_timerCancel (Some h) (set_trackTimers ts' c).

(** [getRemainingDurationLocked] *)
Definition getRemainingDurationLocked (now : Z) (c : Controller) : Z :=
  match currentTrack c with
  | None => 0
  | Some cur =>
      if Go.Before now (startTime c) then Track.Duration (Track.track cur)
      else
        let elapsed := Go.sub64 (Go.Sub now (startTime c)) (pausedElapsed c) in
        let elapsed :=
          match state c, pausedAt c with
          | StatePaused, Some p => Go.sub64 elapsed (Go.Sub now p)
          | _, _ => elapsed
          end in
        let remaining := Go.sub64 (Track.Duration (Track.track cur)) elapsed in
        if remaining <? 0 then 0 else remaining
  end.

(** The sum [checkDepletionLocked] computes: the remaining time of the
    current track, then the duration of every queued track added to it. *)
Definition totalRemaining (now : Z) (c : Controller) : Z :=
  fold_left (fun total qt => Go.add64 total (Track.Duration (Track.track qt)))
    (queue c)
    (match currentTrack c with Some _ => getRemainingDurationLocked now c | None => 0 end).

(** [time.Duration(c.config.DepletionThresholdSec) * time.Second] *)
Definition threshold (c : Controller) : Z :=
  Go.mul64 (DepletionThresholdSec (config c)) Go.Second.

Definition queueDepletingEvent (c : Controller) : Event :=
  {| EvType := EventQueueDepleting; EvTrack := currentTrack c; EvState := state c |}.

(** [checkDepletionLocked] *)
Definition checkDepletionLocked (now : Z) (c : Controller) : Controller :=
  if depletionNotified c then c
  else
    let c := stopDepletionTimer c in
    let total := totalRemaining now c in
    let thr := threshold c in
    if (total <? thr) && (0 <? total) then
      let c := set_depletionNotified true c in
      sendEventLocked (queueDepletingEvent c) c
    else if (thr <? total) && State_eqb (state c) StatePlaying then
      let delay := Go.sub64 total thr in
      let '(ts, h) := startWallClockTimer now delay CbDepletion (depletionTimers c) in
      set_depletionTimerCancel (Some h) (set_depletionTimers ts c)
    else c.

(** [playNextLocked]; the flag [isContinuous] is not read by the body. *)
Definition playNextLocked (now : Z) (isContinuous : bool) (c : Controller)
    : Controller * option Error :=
  match queue c with
  | [] =>
      let c := set_state StateIdle c in
      (sendEventLocked {| EvType := EventQueueEmpty; EvTrack := None; EvState := state c |} c,
       Some ErrQueueEmpty)
  | qt :: rest =>
      let c := set_queue rest c in
      let c :=
        match currentTrack c with
        | Some cur => set_played (played c ++ [cur]) c
        | None => c
        end in
      let c := set_currentTrack (Some qt) c in
      let c := set_pausedAt None c in
      let c := set_pausedElapsed 0 c in
      let c := set_state StatePlaying c in
      let notificationDelay := NotificationDelay (config c) in
      let gapCorrection := GapCorrection (config c) in
      let startBase := if 0 <? gapCorrection then Go.Add now gapCorrection else now in
      let c := set_scheduledStartTime startBase c in
      let c := set_startTime (scheduledStartTime c) c in
      let c := startTrackTimer now (Go.add64 (Track.Duration (Track.track qt)) gapCorrection) c in
      let c := checkDepletionLocked now c in
      if 0 <? notificationDelay then
        let c := set_notificationTime (Go.Add (scheduledStartTime c) notificationDelay) c in
        let totalDelay := Go.add64 notificationDelay gapCorrection in
        let '(ts, h) :=
          startWallClockTimer now totalDelay (CbTrackStarted (Track.ID (Track.track qt)))
            (notificationTimers c) in
        (set_notificationDelayTimerCancel (Some h) (set_notificationTimers ts c), None)
      else
        (sendEventLocked
           {| EvType := EventTrackStarted; EvTrack := currentTrack c; EvState := state c |} c,
         None)
  end.

(** [onTrackEndLocked] *)
Definition onTrackEndLocked (now : Z) (c : Controller) : Controller :=
  match currentTrack c with
  | None => c
  | Some endedTrack =>
      let c := stopTrackTimer c in
      let c := set_played (played c ++ [endedTrack]) c in
      let c := set_currentTrack None c in
      let c := set_pausedAt None c in
      let c := set_pausedElapsed 0 c in
      let c := sendEventLocked
                 {| EvType := EventTrackEnded; EvTrack := Some endedTrack; EvState := state c |} c in
      fst (playNextLocked now true c)
  end.

(** [onTrackEnd] *)
Definition onTrackEnd (now : Z) (c : Controller) : Controller := onTrackEndLocked now c.

(** [Pause] *)
Definition Pause (now : Z) (c : Controller) : Controller * option Error :=
  match currentTrack c with
  | None => (c, Some ErrNoTrack)
  | Some _ =>
      if negb (State_eqb (state c) StatePlaying) then (c, Some ErrNotPlaying)
      else
        let c := stopTrackTimer c in
        let c := stopDepletionTimer c in
        let c := stopNotificationTimer c in
        let c :=
          if Go.Before now (startTime c) then
            set_startTime now
              (set_pausedElapsed (Go.add64 (pausedElapsed c) (Go.Sub (startTime c) now)) c)
          else c in
        let c := set_pausedAt (Some now) c in
        let c := set_state StatePaused c in
        (sendEventLocked
           {| EvType := EventStateChanged; EvTrack := currentTrack c; EvState := state c |} c,
         None)
  end.

(** [resumeLocked] *)
Definition resumeLocked (now : Z) (c : Controller) : Controller * option Error :=
  match currentTrack c with
  | None => (c, Some ErrNoTrack)
  | Some _ =>
      if negb (State_eqb (state c) StatePaused) then (c, Some ErrNotPaused)
      else
        let c :=
          match pausedAt c with
          | Some p => set_pausedElapsed (Go.add64 (pausedElapsed c) (Go.Sub now p)) c
          | None => c
          end in
        let c := set_pausedAt None c in
        let c := set_state StatePlaying c in
        let remaining := getRemainingDurationLocked now c in
        if remaining <=? 0 then (onTrackEndLocked now c, None)
        else
          let c :=
            if negb (Go.IsZero (notificationTime c)) && Go.Before now (notificationTime c) then
              let delayRemaining := Go.Sub (notificationTime c) now in
              let '(ts, h) :=
                startWallClockTimer now delayRemaining CbTrackStartedResumed
                  (notificationTimers c) in
              set_notificationDelayTimerCancel (Some h) (set_notificationTimers ts c)
            else c in
          let c := startTrackTimer now remaining c in
          let c := checkDepletionLocked now c in
          (sendEventLocked
             {| EvType := EventStateChanged; EvTrack := currentTrack c; EvState := state c |} c,
           None)
  end.

(** [Resume] *)
Definition Resume (now : Z) (c : Controller) : Controller * option Error := resumeLocked now c.

(** [Play] *)
Definition Play (now : Z) (c : Controller) : Controller * option Error :=
  match state c with
  | StatePlaying => (c, None)
  | StatePaused => resumeLocked now c
  | StateIdle => playNextLocked now false c
  end.

(** [Skip] *)
Definition Skip (now : Z) (c : Controller) : Controller * option Error :=
  match currentTrack c with
  | None => (c, Some ErrNoTrack)
  | Some skippedTrack =>
      let c := stopTrackTimer c in
      let c := stopNotificationTimer c in
      let c := set_currentTrack None c in
      let c := set_state StateIdle c in
      let c := set_pausedAt None c in
      let c := set_pausedElapsed 0 c in
      let c := set_notificationTime Go.zeroTime c in
      let c := sendEventLocked
                 {| EvType := EventTrackSkipped; EvTrack := Some skippedTrack; EvState := state c |} c in
      playNextLocked now false c
  end.

(** [Stop] *)
Definition Stop (c : Controller) : Controller :=
  let c := stopTrackTimer c in
  let c := stopDepletionTimer c in
  let c := set_currentTrack None c in
  let c := set_state StateIdle c in
  let c := set_pausedAt None c in
  let c := set_pausedElapsed 0 c in
  set_notificationTime Go.zeroTime c.

(** [Enqueue] *)
Definition Enqueue (now : Z) (qt : Track.QueuedTrack) (c : Controller) : Controller :=
  let c := set_queue (queue c ++ [qt]) c in
  let c := set_depletionNotified false c in
  checkDepletionLocked now c.

(** [EnqueueMultiple] *)
Definition EnqueueMultiple (now : Z) (qts : list Track.QueuedTrack) (c : Controller) : Controller :=
  let c := set_queue (queue c ++ qts) c in
  let c := set_depletionNotified false c in
  checkDepletionLocked now c.

(** [ClearQueue]: the controller afterwards and the removed tracks. *)
Definition ClearQueue (c : Controller) : Controller * list Track.QueuedTrack :=
  let removed := queue c in
  (set_queue [] c, removed).

(** Accessors. *)
Definition GetState (c : Controller) : State := state c.
Definition GetCurrentTrack (c : Controller) : option Track.QueuedTrack := currentTrack c.
Definition GetRemainingDuration (now : Z) (c : Controller) : Z := getRemainingDurationLocked now c.
Definition GetQueueSize (c : Controller) : nat := length (queue c).
Definition IsQueueEmpty (c : Controller) : bool := (length (queue c) =? 0)%nat.

Definition currentAsList (c : Controller) : list Track.QueuedTrack :=
  match currentTrack c with
  | Some cur => [cur]
  | None => []
  end.

(** [GetAllTracks]: played, then the current track, then the queue. *)
Definition GetAllTracks (c : Controller) : list Track.QueuedTrack :=
  played c ++ currentAsList c ++ queue c.

(** [GetAllTrackIDs] *)
Definition GetAllTrackIDs (c : Controller) : list string :=
  map (fun qt => Track.ID (Track.track qt)) (played c)
  ++ map (fun qt => Track.ID (Track.track qt)) (currentAsList c)
  ++ map (fun qt => Track.ID (Track.track qt)) (queue c).

(** [IsInQueue] *)
Definition IsInQueue (trackID : string) (c : Controller) : bool :=
  existsb (fun qt => String.eqb (Track.ID (Track.track qt)) trackID) (currentAsList c)
  || existsb (fun qt => String.eqb (Track.ID (Track.track qt)) trackID) (queue c).

(** [GetTotalDuration] *)
Definition GetTotalDuration (c : Controller) : Z :=
  fold_left (fun total qt => Go.add64 total (Track.Duration (Track.track qt))) (queue c) 0.

(** *** The timer goroutines' callbacks

    [fire] is one goroutine of [startWallClockTimer] finding the wall clock
    after its end time and running its callback under the lock. *)
Definition due (now : Z) (t : Timer) : bool := running t && Go.After now (endTime t).

Definition finish (t : Timer) : Timer :=
  {| endTime := endTime t; callback := callback t; running := false |}.

Definition runCallback (now : Z) (cb : Callback) (c : Controller) : Controller :=
  match cb with
  | CbTrackEnd => onTrackEnd now c
  | CbDepletion => checkDepletionLocked now (set_depletionTimerCancel None c)
  | CbTrackStarted trackID =>
      let c := set_notificationDelayTimerCancel None c in
      match currentTrack c with
      | None => c
      | Some cur =>
          if negb (String.eqb (Track.ID (Track.track cur)) trackID) then c
          else sendEventLocked
                 {| EvType := EventTrackStarted; EvTrack := currentTrack c; EvState := state c |} c
      end
  | CbTrackStartedResumed =>
      let c := set_notificationDelayTimerCancel None c in
      match currentTrack c with
      | None => c
      | Some _ =>
          sendEventLocked
            {| EvType := EventTrackStarted; EvTrack := currentTrack c; EvState := state c |} c
      end
  end.

Inductive TimerKind := TrackTimer | DepletionTimer | NotificationTimer.

Definition timersOf (k : TimerKind) (c : Controller) : list Timer :=
  match k with
  | TrackTimer => trackTimers c
  | DepletionTimer => depletionTimers c
  | NotificationTimer => notificationTimers c
  end.

Definition set_timersOf (k : TimerKind) (ts : list Timer) (c : Controller) : Controller :=
  match k with
  | TrackTimer => set_trackTimers ts c
  | DepletionTimer => set_depletionTimers ts c
  | NotificationTimer => set_notificationTimers ts c
  end.

Definition fire (now : Z) (k : TimerKind) (i : nat) (c : Controller) : Controller :=
  match timersOf k c !! i with
  | Some t =>
      if due now t
      then runCallback now (callback t) (set_timersOf k (alter finish i (timersOf k c)) c)
      else c
  | None => c
  end.

(** The consumer of [Events()] receiving one event. *)
Definition recvEvent (c : Controller) : Controller * option Event :=
  match eventCh c with
  | e :: rest => (set_eventCh rest c, Some e)
  | [] => (c, None)
  end.

End Playback.

(** ** Package state (src/internal/app/session/state/types.go, first document;
    src/internal/app/bgm/provider.go, second document) *)

Module State.

Inductive Phase := PhaseWaiting | PhaseActive | PhaseEnding | PhaseTerminated.

(** The constants' values: [iota] numbers them 0 to 3. *)
Definition Phase_rank (p : Phase) : Z :=
  match p with
  | PhaseWaiting => 0
  | PhaseActive => 1
  | PhaseEnding => 2
  | PhaseTerminated => 3
  end.

Definition Phase_eqb (a b : Phase) : bool := Phase_rank a =? Phase_rank b.

Inductive AcceptingState := NotAccepting | Accepting.

Definition AcceptingState_eqb (a b : AcceptingState) : bool :=
  match a, b with
  | NotAccepting, NotAccepting | Accepting, Accepting => true
  | _, _ => false
  end.

Record Manager := mkManager {
  sessionID : string;
  playlistID : string;
  playlistURL : string;
  playlistName : string;
  phase : Phase;
  accepting : AcceptingState;
  startTime : option Z;
  endTime : option Z;
  endingDuration : Z;
  keywords : list string
}.

Definition set_sessionID (v : string) (m : Manager) : Manager :=
  {| sessionID := v; playlistID := playlistID m; playlistURL := playlistURL m; playlistName := playlistName m; phase := phase m; accepting := accepting m; startTime := startTime m; endTime := endTime m; endingDuration := endingDuration m; keywords := keywords m |}.
Definition set_playlistID (v : string) (m : Manager) : Manager :=
  {| sessionID := sessionID m; playlistID := v; playlistURL := playlistURL m; playlistName := playlistName m; phase := phase m; accepting := accepting m; startTime := startTime m; endTime := endTime m; endingDuration := endingDuration m; keywords := keywords m |}.
Definition set_playlistURL (v : string) (m : Manager) : Manager :=
  {| sessionID := sessionID m; playlistID := playlistID m; playlistURL := v; playlistName := playlistName m; phase := phase m; accepting := accepting m; startTime := startTime m; endTime := endTime m; endingDuration := endingDuration m; keywords := keywords m |}.
Definition set_playlistName (v : string) (m : Manager) : Manager :=
  {| sessionID := sessionID m; playlistID := playlistID m; playlistURL := playlistURL m; playlistName := v; phase := phase m; accepting := accepting m; startTime := startTime m; endTime := endTime m; endingDuration := endingDuration m; keywords := keywords m |}.
Definition set_phase (v : Phase) (m : Manager) : Manager :=
  {| sessionID := sessionID m; playlistID := playlistID m; playlistURL := playlistURL m; playlistName := playlistName m; phase := v; accepting := accepting m; startTime := startTime m; endTime := endTime m; endingDuration := endingDuration m; keywords := keywords m |}.
Definition set_accepting (v : AcceptingState) (m : Manager) : Manager :=
  {| sessionID := sessionID m; playlistID := playlistID m; playlistURL := playlistURL m; playlistName := playlistName m; phase := phase m; accepting := v; startTime := startTime m; endTime := endTime m; endingDuration := endingDuration m; keywords := keywords m |}.
Definition set_startTime (v : option Z) (m : Manager) : Manager :=
  {| sessionID := sessionID m; playlistID := playlistID m; playlistURL := playlistURL m; playlistName := playlistName m; phase := phase m; accepting := accepting m; startTime := v; endTime := endTime m; endingDuration := endingDuration m; keywords := keywords m |}.
Definition set_endTime (v : option Z) (m : Manager) : Manager :=
  {| sessionID := sessionID m; playlistID := playlistID m; playlistURL := playlistURL m; playlistName := playlistName m; phase := phase m; accepting := accepting m; startTime := startTime m; endTime := v; endingDuration := endingDuration m; keywords := keywords m |}.
Definition set_endingDuration (v : Z) (m : Manager) : Manager :=
  {| sessionID := sessionID m; playlistID := playlistID m; playlistURL := playlistURL m; playlistName := playlistName m; phase := phase m; accepting := accepting m; startTime := startTime m; endTime := endTime m; endingDuration := v; keywords := keywords m |}.
Definition set_keywords (v : list string) (m : Manager) : Manager :=
  {| sessionID := sessionID m; playlistID := playlistID m; playlistURL := playlistURL m; playlistName := playlistName m; phase := phase m; accepting := accepting m; startTime := startTime m; endTime := endTime m; endingDuration := endingDuration m; keywords := v |}.

(** [New] *)
Definition New (sessionID : string) : Manager :=
  {| sessionID := sessionID; playlistID := ""; playlistURL := ""; playlistName := "";
     phase := PhaseWaiting; accepting := NotAccepting; startTime := None; endTime := None;
     endingDuration := 0; keywords := [] |}.

Definition GetPhase (m : Manager) : Phase := phase m.
Definition SetPhase (p : Phase) (m : Manager) : Manager := set_phase p m.
Definition IsAccepting (m : Manager) : bool := AcceptingState_eqb (accepting m) Accepting.
Definition StartAccepting (m : Manager) : Manager := set_accepting Accepting m.
Definition StopAccepting (m : Manager) : Manager := set_accepting NotAccepting m.

(** [CanAcceptRequests] *)
Definition CanAcceptRequests (m : Manager) : bool :=
  Phase_eqb (phase m) PhaseActive && AcceptingState_eqb (accepting m) Accepting.

Definition GetPlaylistID (m : Manager) : string := playlistID m.
Definition SetPlaylistInfo (id url name : string) (m : Manager) : Manager :=
  set_playlistName name (set_playlistURL url (set_playlistID id m)).
Definition SetKeywords (kw : list string) (m : Manager) : Manager := set_keywords kw m.
Definition SetTimes (start end_ : option Z) (m : Manager) : Manager :=
  set_endTime end_ (set_startTime start m).
Definition GetTimes (m : Manager) : option Z * option Z := (startTime m, endTime m).
Definition SetEndingDuration (d : Z) (m : Manager) : Manager := set_endingDuration d m.
Definition GetEndingDuration (m : Manager) : Z := endingDuration m.

End State.

(** ** Package registry (src/unnamed/part_011, first document) *)

Module Registry.

Inductive Error := ErrInvalidListener | ErrListenerKicked.

(** [ListenerRegistry]: the map from listener id to session. *)
Record ListenerRegistry := mkRegistry {
  listeners : gmap string Listener.Session
}.

Definition NewListenerRegistry : ListenerRegistry := {| listeners := ∅ |}.

(** [Join].  [id] is the fresh UUID and [now] the clock reading; the search
    for a session with the same external id visits the map in the order of
    [map_to_list] (Go leaves the order of a map range open). *)
Definition Join (now : Z) (id displayName externalUserID : string) (isVIP : bool)
    (r : ListenerRegistry) : ListenerRegistry * string :=
  let existing :=
    if String.eqb externalUserID "" then None
    else find (fun kv => String.eqb (Listener.ExternalUserID (snd kv)) externalUserID
                         && negb (Listener.IsKicked (snd kv)))
              (map_to_list (listeners r)) in
  match existing with
  | Some kv => (r, Listener.ID (snd kv))
  | None =>
      ({| listeners := <[id := Listener.NewSession now id displayName externalUserID isVIP]> (listeners r) |},
       id)
  end.

(** [Get] *)
Definition Get (listenerID : string) (r : ListenerRegistry) : Listener.Session + Error :=
  match listeners r !! listenerID with
  | Some session => inl session
  | None => inr ErrInvalidListener
  end.

(** [Validate] *)
Definition Validate (listenerID : string) (r : ListenerRegistry) : option Error :=
  match listeners r !! listenerID with
  | None => Some ErrInvalidListener
  | Some session => if Listener.IsKicked session then Some ErrListenerKicked else None
  end.

(** [Kick] *)
Definition Kick (listenerID : string) (r : ListenerRegistry) : ListenerRegistry * option Error :=
  match listeners r !! listenerID with
  | None => (r, Some ErrInvalidListener)
  | Some session => ({| listeners := <[listenerID := Listener.Kick session]> (listeners r) |}, None)
  end.

(** [IncrementPending] *)
Definition IncrementPending (now : Z) (listenerID : string) (r : ListenerRegistry)
    : ListenerRegistry * option Error :=
  match listeners r !! listenerID with
  | None => (r, Some ErrInvalidListener)
  | Some session =>
      ({| listeners := <[listenerID := Listener.IncrementPendingTracks now session]> (listeners r) |},
       None)
  end.

(** [DecrementPending] *)
Definition DecrementPending (listenerID : string) (r : ListenerRegistry) : ListenerRegistry :=
  match listeners r !! listenerID with
  | None => r
  | Some session =>
      {| listeners := <[listenerID := Listener.DecrementPendingTracks session]> (listeners r) |}
  end.

Definition Count (r : ListenerRegistry) : nat := size (listeners r).

End Registry.

(** ** Package notification (src/internal/app/notification/manager.go) *)

Module Notification.

Inductive NotificationType := INITIAL_STATE | CHANGE_STATE | CHANGE_TRACK.

Inductive SessionState :=
| SESSION_STATE_UNSPECIFIED
| SESSION_STATE_WAITING
| SESSION_STATE_RUNNING
| SESSION_STATE_PAUSED
| SESSION_STATE_WAITING_FOR_TRACKS
| SESSION_STATE_ENDING
| SESSION_STATE_TERMINATED.

Inductive TrackState :=
| TRACK_STATE_STARTED
| TRACK_STATE_SKIPPED
| TRACK_STATE_PLAYING
| TRACK_STATE_PAUSED.

Record SessionInfo := mkSessionInfo {
  SessionId : string;
  PlaylistName : string;
  PlaylistUrl : string;
  Keywords : list string;
  ScheduledStartTime : option Z;
  ScheduledEndTime : option Z;
  SessionState_ : SessionState;
  AcceptingRequests : bool
}.

Record TrackInfo := mkTrackInfo {
  TrackId : string;
  TrackName : string;
  TrackArtists : list string;
  RequesterName : string;
  TrackState_ : TrackState
}.

(** [jukeboxv1.Notification] *)
Record Notification := mkNotification {
  SequenceNo : Z;
  Type_ : NotificationType;
  SessionInfo_ : option SessionInfo;
  TrackInfo_ : option TrackInfo
}.

Definition withSequenceNo (seq : Z) (n : Notification) : Notification :=
  {| SequenceNo := seq; Type_ := Type_ n; SessionInfo_ := SessionInfo_ n;
     TrackInfo_ := TrackInfo_ n |}.

(** [Manager].  A subscription holds a reference to its [Stream]; [Ref] is
    the address of the stream object, which lives with the subscriber. *)
Definition Ref := nat.

Record Manager := mkManager {
  subscriptions : gmap string Ref;
  sequenceNo : Z
}.

(** [NewManager] *)
Definition NewManager : Manager := {| subscriptions := ∅; sequenceNo := 0 |}.

(** [Subscribe]; [id] is the fresh UUID. *)
Definition Subscribe (id : string) (stream : Ref) (m : Manager) : Manager * string :=
  ({| subscriptions := <[id := stream]> (subscriptions m); sequenceNo := sequenceNo m |}, id).

(** [NextSequenceNo]: [m.sequenceNo++; return m.sequenceNo] under
    [sequenceNoMu]. *)
Definition NextSequenceNo (m : Manager) : Manager * Z :=
  let seq := Go.wrapu64 (sequenceNo m + 1) in
  ({| subscriptions := subscriptions m; sequenceNo := seq |}, seq).

(** [Unsubscribe] *)
Definition Unsubscribe (subscriptionID : string) (m : Manager) : Manager :=
  {| subscriptions := delete subscriptionID (subscriptions m); sequenceNo := sequenceNo m |}.

(** [Broadcast], first critical section (under [sequenceNoMu]): take the next
    sequence number and write it into the notification. *)
Definition Broadcast_stamp (notification : Notification) (m : Manager) : Manager * Notification :=
  let seq := Go.wrapu64 (sequenceNo m + 1) in
  ({| subscriptions := subscriptions m; sequenceNo := seq |}, withSequenceNo seq notification).

(** [Broadcast], second critical section (under [mu.RLock]): copy the
    subscriptions. *)
Definition Broadcast_subs (m : Manager) : list Ref :=
  map snd (map_to_list (subscriptions m)).

(** [Broadcast] run without interference: the manager afterwards and the
    sends it makes, one [stream.Send(notification)] per subscription. *)
Definition Broadcast (notification : Notification) (m : Manager)
    : Manager * list (Ref * Notification) :=
  let '(m', n) := Broadcast_stamp notification m in
  (m', map (fun r => (r, n)) (Broadcast_subs m')).

(** [Close] *)
Definition Close (m : Manager) : Manager :=
  {| subscriptions := ∅; sequenceNo := sequenceNo m |}.

(** [Send]: the send it makes, if the subscription exists. *)
Definition Send (subscriptionID : string) (notification : Notification) (m : Manager)
    : option (Ref * Notification) :=
  match subscriptions m !! subscriptionID with
  | Some stream => Some (stream, notification)
  | None => None
  end.

(** [SubscriberCount] *)
Definition SubscriberCount (m : Manager) : nat := size (subscriptions m).

End Notification.

(** ** Package bgm (src/internal/app/bgm/provider.go, first document;
    src/unnamed/part_008, part_009, part_010) *)

Module Bgm.

(** [CandidateWithSource] *)
Record CandidateWithSource := mkCandidate {
  CTrack : Track.Track;
  CDisplayName : string
}.

(** Reading a [map[string]bool] of track ids: an absent key reads [false]. *)
Definition excluded (ids : gmap string bool) (id : string) : bool :=
  match ids !! id with
  | Some b => b
  | None => false
  end.

(** The [Provider] interface.  [P] is the provider with its state; a call
    gives the provider afterwards and the candidates, [None] standing for a
    returned error. *)
Class Provider (P : Type) := {
  GetCandidates : P -> Z -> list Track.Track -> gmap string bool -> P * option (list Track.Track);
  Name : P -> string
}.

(** [contains] *)
Definition contains (tracks : list Track.Track) (id : string) : bool :=
  existsb (fun t => String.eqb (Track.ID t) id) tracks.

(** [PlaylistProvider].  [spotify] is [GetPlaylistTracksRandom] of the
    catalog client: what it answers for a playlist URL and a count. *)
Record PlaylistProvider := mkPlaylistProvider {
  spotify : string -> Z -> option (list Track.Track);
  cache : list Track.Track;
  candidateCount : Z;
  PlaylistURL : string
}.

Definition set_cache (v : list Track.Track) (p : PlaylistProvider) : PlaylistProvider :=
  {| spotify := spotify p; cache := v; candidateCount := candidateCount p;
     PlaylistURL := PlaylistURL p |}.

(** The loop that adds the fetched tracks which are neither excluded nor
    already available. *)
Definition addFetched (existingTrackIDs : gmap string bool) (newTracks : list Track.Track)
    (availableFromCache : list Track.Track) : list Track.Track :=
  fold_left
    (fun available t =>
       if negb (excluded existingTrackIDs (Track.ID t)) && negb (contains available (Track.ID t))
       then available ++ [t] else available)
    newTracks availableFromCache.

(** [PlaylistProvider.GetCandidates] *)
Definition PlaylistProvider_GetCandidates (p : PlaylistProvider) (count : Z)
    (seedTracks : list Track.Track) (existingTrackIDs : gmap string bool)
    : PlaylistProvider * option (list Track.Track) :=
  if count <=? 0 then (p, Some [])
  else
    let availableFromCache :=
      List.filter (fun t => negb (excluded existingTrackIDs (Track.ID t))) (cache p) in
    let fetched :=
      if Z.of_nat (length availableFromCache) <? count then
        let needed := Go.sub64 (candidateCount p) (Z.of_nat (length availableFromCache)) in
        match spotify p (PlaylistURL p) needed with
        | None => None
        | Some newTracks => Some (addFetched existingTrackIDs newTracks availableFromCache)
        end
      else Some availableFromCache in
    match fetched with
    | None => (p, None)
    | Some availableFromCache =>
        if (length availableFromCache =? 0)%nat then (p, Some [])
        else
          let returnCount :=
            if Z.of_nat (length availableFromCache) <? count then length availableFromCache
            else Z.to_nat count in
          (set_cache (skipn returnCount availableFromCache) p,
           Some (firstn returnCount availableFromCache))
    end.

#[export] Instance PlaylistProvider_Provider : Provider PlaylistProvider := {
  GetCandidates := PlaylistProvider_GetCandidates;
  Name := fun _ => "playlist"%string
}.

(** [ProviderWithMetadata] and [ProviderChain] *)
Record ProviderWithMetadata (P : Type) := mkProviderWithMetadata {
  WProvider : P;
  WDisplayName : string
}.
Arguments mkProviderWithMetadata {P} _ _.
Arguments WProvider {P} _.
Arguments WDisplayName {P} _.

(** The state of the loop of [ProviderChain.GetCandidates]: the providers
    already tried (as they are afterwards), the candidates so far and the
    current exclude set. *)
Record ChainLoop (P : Type) := mkChainLoop {
  tried : list (ProviderWithMetadata P);
  allCandidates : list CandidateWithSource;
  currentExcludeIDs : gmap string bool
}.
Arguments mkChainLoop {P} _ _ _.
Arguments tried {P} _.
Arguments allCandidates {P} _.
Arguments currentExcludeIDs {P} _.

(** Marking the candidates of one provider as excluded for the next. *)
Definition excludeAll (candidates : list Track.Track) (ids : gmap string bool) : gmap string bool :=
  fold_left (fun ids t => <[Track.ID t := true]> ids) candidates ids.

(** One round of the loop: one provider is asked. *)
Definition Chain_step {P : Type} `{Provider P} (count : Z) (seedTracks : list Track.Track)
    (st : ChainLoop P) (pm : ProviderWithMetadata P) : ChainLoop P :=
  let '(p', r) := GetCandidates (WProvider pm) count seedTracks (currentExcludeIDs st) in
  let pm' := mkProviderWithMetadata p' (WDisplayName pm) in
  match r with
  | None => mkChainLoop (tried st ++ [pm']) (allCandidates st) (currentExcludeIDs st)
  | Some candidates =>
      mkChainLoop (tried st ++ [pm'])
        (allCandidates st ++ map (fun t => mkCandidate t (WDisplayName pm)) candidates)
        (excludeAll candidates (currentExcludeIDs st))
  end.

(** [ProviderChain.GetCandidates]: the chain afterwards and the candidates,
    [None] for the error "all providers failed to return candidates". *)
Definition Chain_GetCandidates {P : Type} `{Provider P} (providers : list (ProviderWithMetadata P))
    (count : Z) (seedTracks : list Track.Track) (excludeIDs : gmap string bool)
    : list (ProviderWithMetadata P) * option (list CandidateWithSource) :=
  let st := fold_left (Chain_step count seedTracks) providers (mkChainLoop [] [] excludeIDs) in
  (tried st,
   if (length (allCandidates st) =? 0)%nat then None else Some (allCandidates st)).

(** [LastFmProvider.deduplicateByID] *)
Definition deduplicateByID (tracks : list Track.Track) : list Track.Track :=
  snd (fold_left
         (fun (acc : gmap string bool * list Track.Track) t =>
            if negb (excluded (fst acc) (Track.ID t))
            then (<[Track.ID t := true]> (fst acc), snd acc ++ [t])
            else acc)
         tracks (∅, [])).

End Bgm.

(** ** Package session (src/internal/app/session/state/types.go, second document) *)

Module Session.

Inductive Error := ErrSessionNotRunning | ErrSessionNotPaused | ErrCatalog | ErrPlayback (e : Playback.Error).

(** The catalog client ([spotify.Client]) as the session manager uses it: what
    each remote call answers.  [None] and [false] stand for a returned error. *)
Record Spotify := mkSpotify {
  CreatePlaylist : string -> option string;
  GetPlaylistURL : string -> string;
  GetPlaylistTracks : string -> option (list Track.Track);
  AddTracksToPlaylist : string -> list string -> bool;
  RemoveTracksFromPlaylist : string -> list string -> bool;
  GetTrack : string -> string -> option Track.Track
}.

(** What the runtime-dependent filters read through their closures. *)
Record FilterWorld := mkFilterWorld {
  fwState : State.Manager;
  fwPlayback : Playback.Controller;
  fwNow : Z
}.

(** The parts of [config.Config] the session manager reads.  [ParsedStartTime]
    and [ParsedEndTime] are the results of [ParseStartTime] and
    [ParseEndTime] ([None] for an error or an absent time);
    [DurationLimit] is the duration filter once its settings validated. *)
Record Config := mkConfig {
  Title : string;
  ParsedStartTime : option Z;
  ParsedEndTime : option Z;
  SessionKeywords : list string;
  OpeningPlaylistURL : string;
  OpeningDisplayName : string;
  EndingPlaylistURL : string;
  EndingDisplayName : string;
  Market : string;
  KickedEnabled : bool;
  UserPendingEnabled : bool;
  DuplicateTrackEnabled : bool;
  DurationLimit : option (Filter.Filter FilterWorld);
  RecentArtistCount : Z;
  PlaybackConfig : Playback.Config
}.

(** Goroutines started with [go] and not yet run. *)
Inductive Goroutine := GoPlay | GoPlaybackLoop | GoEndTimeChecker.

Record Manager := mkManager {
  config : Config;
  stateMgr : State.Manager;
  listenerReg : Registry.ListenerRegistry;
  playback : Playback.Controller;
  filterChain : list (Filter.Filter FilterWorld);
  notification : Notification.Manager;
  endingPlaylistURL : string;
  endingDisplayName : string;
  systemUser : Listener.Session;
  recentArtists : list string;
  maxRecentArtists : Z;
  cancelled : bool;
  done : bool;
  panicked : bool;
  spawned : list Goroutine
}.

Definition set_config (v : Config) (m : Manager) : Manager :=
  {| config := v; stateMgr := stateMgr m; listenerReg := listenerReg m; playback := playback m; filterChain := filterChain m; notification := notification m; endingPlaylistURL := endingPlaylistURL m; endingDisplayName := endingDisplayName m; systemUser := systemUser m; recentArtists := recentArtists m; maxRecentArtists := maxRecentArtists m; cancelled := cancelled m; done := done m; panicked := panicked m; spawned := spawned m |}.
Definition set_stateMgr (v : State.Manager) (m : Manager) : Manager :=
  {| config := config m; stateMgr := v; listenerReg := listenerReg m; playback := playback m; filterChain := filterChain m; notification := notification m; endingPlaylistURL := endingPlaylistURL m; endingDisplayName := endingDisplayName m; systemUser := systemUser m; recentArtists := recentArtists m; maxRecentArtists := maxRecentArtists m; cancelled := cancelled m; done := done m; panicked := panicked m; spawned := spawned m |}.
Definition set_listenerReg (v : Registry.ListenerRegistry) (m : Manager) : Manager :=
  {| config := config m; stateMgr := stateMgr m; listenerReg := v; playback := playback m; filterChain := filterChain m; notification := notification m; endingPlaylistURL := endingPlaylistURL m; endingDisplayName := endingDisplayName m; systemUser := systemUser m; recentArtists := recentArtists m; maxRecentArtists := maxRecentArtists m; cancelled := cancelled m; done := done m; panicked := panicked m; spawned := spawned m |}.
Definition set_playback (v : Playback.Controller) (m : Manager) : Manager :=
  {| config := config m; stateMgr := stateMgr m; listenerReg := listenerReg m; playback := v; filterChain := filterChain m; notification := notification m; endingPlaylistURL := endingPlaylistURL m; endingDisplayName := endingDisplayName m; systemUser := systemUser m; recentArtists := recentArtists m; maxRecentArtists := maxRecentArtists m; cancelled := cancelled m; done := done m; panicked := panicked m; spawned := spawned m |}.
Definition set_filterChain (v : list (Filter.Filter FilterWorld)) (m : Manager) : Manager :=
  {| config := config m; stateMgr := stateMgr m; listenerReg := listenerReg m; playback := playback m; filterChain := v; notification := notification m; endingPlaylistURL := endingPlaylistURL m; endingDisplayName := endingDisplayName m; systemUser := systemUser m; recentArtists := recentArtists m; maxRecentArtists := maxRecentArtists m; cancelled := cancelled m; done := done m; panicked := panicked m; spawned := spawned m |}.
Definition set_notification (v : Notification.Manager) (m : Manager) : Manager :=
  {| config := config m; stateMgr := stateMgr m; listenerReg := listenerReg m; playback := playback m; filterChain := filterChain m; notification := v; endingPlaylistURL := endingPlaylistURL m; endingDisplayName := endingDisplayName m; systemUser := systemUser m; recentArtists := recentArtists m; maxRecentArtists := maxRecentArtists m; cancelled := cancelled m; done := done m; panicked := panicked m; spawned := spawned m |}.
Definition set_endingPlaylistURL (v : string) (m : Manager) : Manager :=
  {| config := config m; stateMgr := stateMgr m; listenerReg := listenerReg m; playback := playback m; filterChain := filterChain m; notification := notification m; endingPlaylistURL := v; endingDisplayName := endingDisplayName m; systemUser := systemUser m; recentArtists := recentArtists m; maxRecentArtists := maxRecentArtists m; cancelled := cancelled m; done := done m; panicked := panicked m; spawned := spawned m |}.
Definition set_endingDisplayName (v : string) (m : Manager) : Manager :=
  {| config := config m; stateMgr := stateMgr m; listenerReg := listenerReg m; playback := playback m; filterChain := filterChain m; notification := notification m; endingPlaylistURL := endingPlaylistURL m; endingDisplayName := v; systemUser := systemUser m; recentArtists := recentArtists m; maxRecentArtists := maxRecentArtists m; cancelled := cancelled m; done := done m; panicked := panicked m; spawned := spawned m |}.
Definition set_systemUser (v : Listener.Session) (m : Manager) : Manager :=
  {| config := config m; stateMgr := stateMgr m; listenerReg := listenerReg m; playback := playback m; filterChain := filterChain m; notification := notification m; endingPlaylistURL := endingPlaylistURL m; endingDisplayName := endingDisplayName m; systemUser := v; recentArtists := recentArtists m; maxRecentArtists := maxRecentArtists m; cancelled := cancelled m; done := done m; panicked := panicked m; spawned := spawned m |}.
Definition set_recentArtists (v : list string) (m : Manager) : Manager :=
  {| config := config m; stateMgr := stateMgr m; listenerReg := listenerReg m; playback := playback m; filterChain := filterChain m; notification := notification m; endingPlaylistURL := endingPlaylistURL m; endingDisplayName := endingDisplayName m; systemUser := systemUser m; recentArtists := v; maxRecentArtists := maxRecentArtists m; cancelled := cancelled m; done := done m; panicked := panicked m; spawned := spawned m |}.
Definition set_maxRecentArtists (v : Z) (m : Manager) : Manager :=
  {| config := config m; stateMgr := stateMgr m; listenerReg := listenerReg m; playback := playback m; filterChain := filterChain m; notification := notification m; endingPlaylistURL := endingPlaylistURL m; endingDisplayName := endingDisplayName m; systemUser := systemUser m; recentArtists := recentArtists m; maxRecentArtists := v; cancelled := cancelled m; done := done m; panicked := panicked m; spawned := spawned m |}.
Definition set_cancelled (v : bool) (m : Manager) : Manager :=
  {| config := config m; stateMgr := stateMgr m; listenerReg := listenerReg m; playback := playback m; filterChain := filterChain m; notification := notification m; endingPlaylistURL := endingPlaylistURL m; endingDisplayName := endingDisplayName m; systemUser := systemUser m; recentArtists := recentArtists m; maxRecentArtists := maxRecentArtists m; cancelled := v; done := done m; panicked := panicked m; spawned := spawned m |}.
Definition set_done (v : bool) (m : Manager) : Manager :=
  {| config := config m; stateMgr := stateMgr m; listenerReg := listenerReg m; playback := playback m; filterChain := filterChain m; notification := notification m; endingPlaylistURL := endingPlaylistURL m; endingDisplayName := endingDisplayName m; systemUser := systemUser m; recentArtists := recentArtists m; maxRecentArtists := maxRecentArtists m; cancelled := cancelled m; done := v; panicked := panicked m; spawned := spawned m |}.
Definition set_panicked (v : bool) (m : Manager) : Manager :=
  {| config := config m; stateMgr := stateMgr m; listenerReg := listenerReg m; playback := playback m; filterChain := filterChain m; notification := notification m; endingPlaylistURL := endingPlaylistURL m; endingDisplayName := endingDisplayName m; systemUser := systemUser m; recentArtists := recentArtists m; maxRecentArtists := maxRecentArtists m; cancelled := cancelled m; done := done m; panicked := v; spawned := spawned m |}.
Definition set_spawned (v : list Goroutine) (m : Manager) : Manager :=
  {| config := config m; stateMgr := stateMgr m; listenerReg := listenerReg m; playback := playback m; filterChain := filterChain m; notification := notification m; endingPlaylistURL := endingPlaylistURL m; endingDisplayName := endingDisplayName m; systemUser := systemUser m; recentArtists := recentArtists m; maxRecentArtists := maxRecentArtists m; cancelled := cancelled m; done := done m; panicked := panicked m; spawned := v |}.

(** [setupFilters] *)
Definition setupFilters (cfg : Config) : list (Filter.Filter FilterWorld) :=
  [ Filter.NewAcceptanceDoneFilter
      {| Filter.isAccepting := fun w => State.CanAcceptRequests (fwState w);
         Filter.getEndTime := fun w => snd (State.GetTimes (fwState w));
         Filter.getEndingDur := fun w => State.GetEndingDuration (fwState w);
         Filter.getQueueDuration := fun w => Playback.GetTotalDuration (fwPlayback w);
         Filter.getCurrentRemain := fun w => Playback.GetRemainingDuration (fwNow w) (fwPlayback w);
         Filter.getNow := fwNow |};
    Filter.NewMarketFilter (Market cfg) ]
  ++ (if KickedEnabled cfg then [Filter.KickedFilter] else [])
  ++ (if UserPendingEnabled cfg then [Filter.UserPendingFilter] else [])
  ++ (if DuplicateTrackEnabled cfg
      then [Filter.NewDuplicateTrackFilter (fun w => Playback.GetAllTracks (fwPlayback w))]
      else [])
  ++ (match DurationLimit cfg with Some f => [f] | None => [] end).

(** [NewManager]; [sessionID] and [systemID] are the fresh UUIDs. *)
Definition NewManager (now : Z) (sessionID systemID : string) (cfg : Config) : Manager :=
  {| config := cfg;
     stateMgr := State.New sessionID;
     listenerReg := Registry.NewListenerRegistry;
     playback := Playback.NewController (PlaybackConfig cfg);
     filterChain := setupFilters cfg;
     notification := Notification.NewManager;
     endingPlaylistURL := EndingPlaylistURL cfg;
     endingDisplayName := EndingDisplayName cfg;
     systemUser := Listener.NewSession now systemID "System" "" false;
     recentArtists := [];
     maxRecentArtists := RecentArtistCount cfg;
     cancelled := false; done := false; panicked := false; spawned := [] |}.

(** [close(m.done)]: closing a closed channel panics. *)
Definition closeDone (m : Manager) : Manager :=
  if done m then set_panicked true m else set_done true m.

(** [addRecentArtistsLocked] *)
Definition addRecentArtistsLocked (artists : list string) (m : Manager) : Manager :=
  fold_left
    (fun m artist =>
       let recent := artist :: recentArtists m in
       set_recentArtists
         (if (maxRecentArtists m <? Z.of_nat (length recent))
          then firstn (Z.to_nat (maxRecentArtists m)) recent else recent) m)
    artists m.

Definition addRecentArtists (artists : list string) (m : Manager) : Manager :=
  addRecentArtistsLocked artists m.

(** [enqueuePlaylistTracks] *)
Definition enqueuePlaylistTracks (now : Z) (tracks : list Track.Track) (requesterName : string)
    (requesterType : Track.RequesterType) (m : Manager) : Manager :=
  fold_left
    (fun m t =>
       let qt := {| Track.track := t;
                    Track.requester :=
                      {| Track.RequesterID := Listener.ID (systemUser m);
                         Track.RequesterName := requesterName;
                         Track.ExternalUserID := "";
                         Track.Type_ := requesterType |};
                    Track.AddedAt := now |} in
       let m := set_playback (Playback.Enqueue now qt (playback m)) m in
       addRecentArtistsLocked (Track.Artists t) m)
    tracks m.

(** [buildSessionInfoWithStateUnlocked] *)
Definition buildSessionInfoWithStateUnlocked (m : Manager) : Notification.SessionInfo :=
  let st := stateMgr m in
  let protoState :=
    match State.GetPhase st with
    | State.PhaseWaiting => Notification.SESSION_STATE_WAITING
    | State.PhaseActive =>
        match Playback.GetState (playback m) with
        | Playback.StatePaused => Notification.SESSION_STATE_PAUSED
        | Playback.StateIdle => Notification.SESSION_STATE_WAITING_FOR_TRACKS
        | Playback.StatePlaying => Notification.SESSION_STATE_RUNNING
        end
    | State.PhaseEnding => Notification.SESSION_STATE_ENDING
    | State.PhaseTerminated => Notification.SESSION_STATE_TERMINATED
    end in
  {| Notification.SessionId := State.sessionID st;
     Notification.PlaylistName := State.playlistName st;
     Notification.PlaylistUrl := State.playlistURL st;
     Notification.Keywords := State.keywords st;
     Notification.ScheduledStartTime := State.startTime st;
     Notification.ScheduledEndTime := State.endTime st;
     Notification.SessionState_ := protoState;
     Notification.AcceptingRequests := State.IsAccepting st |}.

(** A [CHANGE_STATE] broadcast of the current session info: the manager
    afterwards and the sends to the subscribers' streams. *)
Definition broadcastState (m : Manager) : Manager * list (Notification.Ref * Notification.Notification) :=
  let n := {| Notification.SequenceNo := 0;
              Notification.Type_ := Notification.CHANGE_STATE;
              Notification.SessionInfo_ := Some (buildSessionInfoWithStateUnlocked m);
              Notification.TrackInfo_ := None |} in
  let '(nm, sends) := Notification.Broadcast n (notification m) in
  (set_notification nm m, sends).

(** [Start], from its first lock to the unlock before the queue is filled
    with background music: times and keywords, the session playlist, the
    opening playlist, the ending duration.  [createAt] is the formatted clock
    reading.  (The wait for the start time releases the lock in between and
    takes it again.) *)
Definition Start_prepare (sp : Spotify) (now : Z) (createAt : string) (m : Manager)
    : Manager * option Error :=
  let cfg := config m in
  let m := set_stateMgr (State.SetTimes (ParsedStartTime cfg) (ParsedEndTime cfg) (stateMgr m)) m in
  let m := set_stateMgr (State.SetKeywords (SessionKeywords cfg) (stateMgr m)) m in
  let playlistName :=
    if String.eqb (Title cfg) "" then String.append "Session(" (String.append createAt ")")
    else Title cfg in
  match CreatePlaylist sp playlistName with
  | None => (m, Some ErrCatalog)
  | Some playlistID =>
      let m := set_stateMgr
                 (State.SetPlaylistInfo playlistID (GetPlaylistURL sp playlistID) playlistName
                    (stateMgr m)) m in
      let opening :=
        if String.eqb (OpeningPlaylistURL cfg) "" then (m, None)
        else
          match GetPlaylistTracks sp (OpeningPlaylistURL cfg) with
          | None => (m, Some ErrCatalog)
          | Some tracks =>
              let m := enqueuePlaylistTracks now tracks (OpeningDisplayName cfg)
                         Track.RequesterTypeOpening m in
              if AddTracksToPlaylist sp playlistID (map Track.ID tracks) then (m, None)
              else (m, Some ErrCatalog)
          end in
      match opening with
      | (m, Some e) => (m, Some e)
      | (m, None) =>
          if String.eqb (endingPlaylistURL m) "" then (m, None)
          else
            match GetPlaylistTracks sp (endingPlaylistURL m) with
            | None => (m, Some ErrCatalog)
            | Some tracks =>
                let endingDuration :=
                  fold_left (fun d t => Go.add64 d (Track.Duration t)) tracks 0 in
                (set_stateMgr (State.SetEndingDuration endingDuration (stateMgr m)) m, None)
            end
      end
  end.

(** [Start], from the second lock on: the phase becomes active, requests are
    accepted, the start is broadcast and the event loop, the end-time checker
    and the first [Play] are started. *)
Definition Start_activate (now : Z) (m : Manager)
    : Manager * list (Notification.Ref * Notification.Notification) :=
  let cfg := config m in
  let m := set_stateMgr (State.SetPhase State.PhaseActive (stateMgr m)) m in
  let m := set_stateMgr (State.StartAccepting (stateMgr m)) m in
  let m :=
    match ParsedStartTime cfg with
    | None => set_stateMgr (State.SetTimes (Some now) (ParsedEndTime cfg) (stateMgr m)) m
    | Some _ => m
    end in
  let '(m, sends) := broadcastState m in
  let m := set_spawned
             (spawned m ++ [GoPlaybackLoop]
              ++ (match ParsedEndTime cfg with Some _ => [GoEndTimeChecker] | None => [] end)
              ++ [GoPlay]) m in
  (m, sends).

(** [Start] with nothing running in between. *)
Definition Start (sp : Spotify) (now : Z) (createAt : string) (m : Manager)
    : Manager * list (Notification.Ref * Notification.Notification) * option Error :=
  match Start_prepare sp now createAt m with
  | (m, Some e) => (m, [], Some e)
  | (m, None) => let '(m, sends) := Start_activate now m in (m, sends, None)
  end.

(** [transitionToEnding] *)
Definition transitionToEnding (sp : Spotify) (now : Z) (m : Manager) : Manager :=
  if negb (State.Phase_eqb (State.GetPhase (stateMgr m)) State.PhaseActive) then m
  else
    let m := set_stateMgr (State.StopAccepting (stateMgr m)) m in
    let m := set_stateMgr (State.SetPhase State.PhaseEnding (stateMgr m)) m in
    if String.eqb (endingPlaylistURL m) "" then m
    else
      match GetPlaylistTracks sp (endingPlaylistURL m) with
      | None => m
      | Some [] => m
      | Some tracks =>
          let '(pb, removed) := Playback.ClearQueue (playback m) in
          let m := set_playback pb m in
          let playlistID := State.GetPlaylistID (stateMgr m) in
          let _ :=
            match removed with
            | [] => true
            | _ => RemoveTracksFromPlaylist sp playlistID
                     (map (fun qt => Track.ID (Track.track qt)) removed)
            end in
          let m := enqueuePlaylistTracks now tracks (endingDisplayName m)
                     Track.RequesterTypeEnding m in
          let _ := AddTracksToPlaylist sp playlistID (map Track.ID tracks) in
          m
      end.

(** The tail shared by [StopImmediate] and [terminateSession]: the phase is
    terminated, acceptance stops, the end time is recorded, playback stops,
    the end is broadcast, the context is cancelled and [done] is closed. *)
Definition terminateNow (now : Z) (m : Manager)
    : Manager * list (Notification.Ref * Notification.Notification) :=
  let m := set_stateMgr (State.SetPhase State.PhaseTerminated (stateMgr m)) m in
  let m := set_stateMgr (State.StopAccepting (stateMgr m)) m in
  let m := set_stateMgr
             (State.SetTimes (fst (State.GetTimes (stateMgr m))) (Some now) (stateMgr m)) m in
  let m := set_playback (Playback.Stop (playback m)) m in
  let '(m, sends) := broadcastState m in
  (closeDone (set_cancelled true m), sends).

(** [Stop] *)
Definition Stop (sp : Spotify) (now : Z) (m : Manager) : Manager :=
  match State.GetPhase (stateMgr m) with
  | State.PhaseTerminated => m
  | State.PhaseWaiting =>
      let m := set_stateMgr (State.SetPhase State.PhaseTerminated (stateMgr m)) m in
      closeDone (set_cancelled true m)
  | State.PhaseEnding => m
  | State.PhaseActive => transitionToEnding sp now m
  end.

(** [StopImmediate] *)
Definition StopImmediate (now : Z) (m : Manager)
    : Manager * list (Notification.Ref * Notification.Notification) :=
  match State.GetPhase (stateMgr m) with
  | State.PhaseTerminated => (m, [])
  | State.PhaseWaiting =>
      let m := set_stateMgr (State.SetPhase State.PhaseTerminated (stateMgr m)) m in
      (closeDone (set_cancelled true m), [])
  | State.PhaseEnding => (m, [])
  | State.PhaseActive => terminateNow now m
  end.

(** [terminateSession] *)
Definition terminateSession (now : Z) (m : Manager)
    : Manager * list (Notification.Ref * Notification.Notification) :=
  match State.GetPhase (stateMgr m) with
  | State.PhaseTerminated => (m, [])
  | _ => terminateNow now m
  end.

(** [onQueueEmpty]: in the ending phase the session terminates.  (In the
    active phase the queue is refilled with background music, which changes
    neither the phase nor the accepting state.) *)
Definition onQueueEmpty (now : Z) (m : Manager)
    : Manager * list (Notification.Ref * Notification.Notification) :=
  match State.GetPhase (stateMgr m) with
  | State.PhaseEnding => terminateSession now m
  | _ => (m, [])
  end.

(** [RequestTrack]: the manager afterwards and the returned
    [(bool, string, error)]. *)
Definition RequestTrack (sp : Spotify) (now : Z) (listenerID trackID : string) (m : Manager)
    : Manager * (bool * string * option Error) :=
  match Registry.Get listenerID (listenerReg m) with
  | inr _ => (m, (false, "invalid_listener", None))
  | inl session =>
      match GetTrack sp trackID (Market (config m)) with
      | None => (m, (false, "track_not_found", None))
      | Some t =>
          let req := {| Filter.ListenerID := listenerID; Filter.TrackID := trackID |} in
          let w := {| fwState := stateMgr m; fwPlayback := playback m; fwNow := now |} in
          let result := Filter.Execute (filterChain m) w req t session Track.RequesterTypeUser in
          if negb (Filter.Accepted result) then (m, (false, Filter.Code result, None))
          else
            let qt := {| Track.track := t;
                         Track.requester :=
                           {| Track.RequesterID := Listener.ID session;
                              Track.RequesterName := Listener.DisplayName session;
                              Track.ExternalUserID := Listener.ExternalUserID session;
                              Track.Type_ := Track.RequesterTypeUser |};
                         Track.AddedAt := now |} in
            let m := set_playback (Playback.Enqueue now qt (playback m)) m in
            let m := addRecentArtists (Track.Artists t) m in
            let m := set_listenerReg (fst (Registry.IncrementPending now listenerID (listenerReg m))) m in
            let _ := AddTracksToPlaylist sp (State.GetPlaylistID (stateMgr m)) [trackID] in
            let m :=
              match Playback.GetState (playback m) with
              | Playback.StateIdle => set_spawned (spawned m ++ [GoPlay]) m
              | _ => m
              end in
            (m, (true, "", None))
      end
  end.

(** [buildTrackInfoWithState], without the track URL and the remaining
    seconds (a floating-point conversion). *)
Definition buildTrackInfoWithState (qt : Track.QueuedTrack) (pbState : Playback.State)
    : Notification.TrackInfo :=
  {| Notification.TrackId := Track.ID (Track.track qt);
     Notification.TrackName := Track.Name (Track.track qt);
     Notification.TrackArtists := Track.Artists (Track.track qt);
     Notification.RequesterName := Track.RequesterName (Track.requester qt);
     Notification.TrackState_ :=
       match pbState with
       | Playback.StatePaused => Notification.TRACK_STATE_PAUSED
       | _ => Notification.TRACK_STATE_PLAYING
       end |}.

(** [GetStatus]: the session info and the track info of the status. *)
Definition GetStatus (m : Manager) : Notification.SessionInfo * option Notification.TrackInfo :=
  (buildSessionInfoWithStateUnlocked m,
   match Playback.GetCurrentTrack (playback m) with
   | Some qt => Some (buildTrackInfoWithState qt (Playback.GetState (playback m)))
   | None => None
   end).

(** [Pause], [Resume], [Skip] *)
Definition Pause (now : Z) (m : Manager) : Manager * option Error :=
  if negb (State.Phase_eqb (State.GetPhase (stateMgr m)) State.PhaseActive)
  then (m, Some ErrSessionNotRunning)
  else
    let '(pb, e) := Playback.Pause now (playback m) in
    (set_playback pb m, option_map ErrPlayback e).

Definition Resume (now : Z) (m : Manager) : Manager * option Error :=
  if negb (Playback.State_eqb (Playback.GetState (playback m)) Playback.StatePaused)
  then (m, Some ErrSessionNotPaused)
  else
    let '(pb, e) := Playback.Resume now (playback m) in
    (set_playback pb m, option_map ErrPlayback e).

Definition Skip (now : Z) (m : Manager) : Manager * option Error :=
  let '(pb, e) := Playback.Skip now (playback m) in
  (set_playback pb m, option_map ErrPlayback e).

(** [onTrackStarted]: the requester's pending count goes down and the start
    of the track is broadcast. *)
Definition onTrackStarted (qt : option Track.QueuedTrack) (m : Manager)
    : Manager * list (Notification.Ref * Notification.Notification) :=
  match qt with
  | None => (m, [])
  | Some qt =>
      let m := set_listenerReg
                 (Registry.DecrementPending (Track.RequesterID (Track.requester qt))
                    (listenerReg m)) m in
      let sessionInfo := buildSessionInfoWithStateUnlocked m in
      let trackInfo := buildTrackInfoWithState qt (Playback.GetState (playback m)) in
      let trackInfo :=
        {| Notification.TrackId := Notification.TrackId trackInfo;
           Notification.TrackName := Notification.TrackName trackInfo;
           Notification.TrackArtists := Notification.TrackArtists trackInfo;
           Notification.RequesterName := Notification.RequesterName trackInfo;
           Notification.TrackState_ := Notification.TRACK_STATE_STARTED |} in
      let n := {| Notification.SequenceNo := 0;
                  Notification.Type_ := Notification.CHANGE_TRACK;
                  Notification.SessionInfo_ := Some sessionInfo;
                  Notification.TrackInfo_ := Some trackInfo |} in
      let '(nm, sends) := Notification.Broadcast n (notification m) in
      (set_notification nm m, sends)
  end.

(** [isRecentArtistLocked] *)
Definition isRecentArtistLocked (artists : list string) (m : Manager) : bool :=
  existsb (fun artist => existsb (fun recent => String.eqb artist recent) (recentArtists m))
    artists.

(** [filterByRecentArtists]: the manager afterwards (the memory of recent
    artists is cleared when it would filter out every candidate) and the
    candidates kept. *)
Definition filterByRecentArtists (candidates : list Bgm.CandidateWithSource) (m : Manager)
    : Manager * list Bgm.CandidateWithSource :=
  if maxRecentArtists m =? 0 then (m, candidates)
  else
    let filtered :=
      List.filter (fun c => negb (isRecentArtistLocked (Track.Artists (Bgm.CTrack c)) m))
        candidates in
    if (length filtered =? 0)%nat && (0 <? length (recentArtists m))%nat
    then (set_recentArtists [] m, candidates)
    else (m, filtered).

(** [getRecentTracks] *)
Definition getRecentTracks (count : Z) (m : Manager) : list Track.Track :=
  let recent :=
    match Playback.GetCurrentTrack (playback m) with
    | Some qt => [Track.track qt]
    | None => []
    end in
  if count <? Z.of_nat (length recent) then firstn (Z.to_nat count) recent else recent.

(** One tick of [endTimeChecker], read at [now]: the manager afterwards and
    whether the goroutine returns.  [later] is the clock reading inside
    [transitionToEnding]. *)
Definition endTimeChecker_tick (sp : Spotify) (now later : Z) (m : Manager) : Manager * bool :=
  match snd (State.GetTimes (stateMgr m)) with
  | None => (m, false)
  | Some endTime =>
      if negb (State.Phase_eqb (State.GetPhase (stateMgr m)) State.PhaseActive) then (m, false)
      else
        let endingDuration := State.GetEndingDuration (stateMgr m) in
        let deadline := Go.Add endTime (Go.neg64 endingDuration) in
        if Go.After now deadline || Go.Equal now deadline
        then (transitionToEnding sp later m, true)
        else (m, false)
  end.

End Session.

(** ** Package connect: SubscribeNotifications (src/unnamed/part_013)

    The handler and [Broadcast] run in different goroutines.  Each is cut
    into the steps between which the source releases its locks; a schedule
    says which goroutine takes the next step. *)

Module Connect.

(** [notificationStreamAdapter] (third document): [stream] is what has
    been written to the subscriber's [connect.ServerStream], in order. *)
Record notificationStreamAdapter := mkAdapter {
  stream : list Notification.Notification;
  buffer : list Notification.Notification;
  ready : bool
}.

(** [notificationStreamAdapter.Send] *)
Definition Send (notification : Notification.Notification) (a : notificationStreamAdapter)
    : notificationStreamAdapter :=
  if negb (ready a)
  then {| stream := stream a; buffer := buffer a ++ [notification]; ready := ready a |}
  else {| stream := stream a ++ [notification]; buffer := buffer a; ready := ready a |}.

(** [notificationStreamAdapter.Flush], its critical section: the adapter
    afterwards and the buffered notifications it goes on to send. *)
Definition Flush_take (a : notificationStreamAdapter)
    : notificationStreamAdapter * list Notification.Notification :=
  ({| stream := stream a; buffer := []; ready := true |}, buffer a).

(** [stream.Send] on the subscriber's server stream. *)
Definition streamSend (notification : Notification.Notification) (a : notificationStreamAdapter)
    : notificationStreamAdapter :=
  {| stream := stream a ++ [notification]; buffer := buffer a; ready := ready a |}.

(** Modelled from the spec: [notification.Manager.Subscribe] as the buffered
    handler calls it, returning the subscription id and a sequence number;
    src/ holds only the one-result [Subscribe].  The spec (4.5): subscribers
    register "receiving an opaque subscription id and the next sequence
    number", drawn from the counter all notifications share. *)
Definition SubscribeSeq (id : string) (stream : Notification.Ref) (m : Notification.Manager)
    : Notification.Manager * (string * Z) :=
  let '(m, _) := Notification.Subscribe id stream m in
  let '(m, seq) := Notification.NextSequenceNo m in
  (m, (id, seq)).

(** The shared state: the session manager (with its notification manager)
    and the stream adapters by address. *)
Record World := mkWorld {
  session : Session.Manager;
  heap : list notificationStreamAdapter
}.

Definition notif (w : World) : Notification.Manager := Session.notification (session w).
Definition set_notif (nm : Notification.Manager) (w : World) : World :=
  {| session := Session.set_notification nm (session w); heap := heap w |}.
Definition set_heap (h : list notificationStreamAdapter) (w : World) : World :=
  {| session := session w; heap := h |}.

(** A goroutine inside [Manager.Broadcast]. *)
Inductive BroadcastPC :=
| BEnter (n : Notification.Notification)
| BStamped (n : Notification.Notification)
| BSending (n : Notification.Notification) (subs : list Notification.Ref)
| BReturned.

Definition Broadcast_step (w : World) (pc : BroadcastPC) : World * BroadcastPC :=
  match pc with
  | BEnter n =>
      let '(nm, n') := Notification.Broadcast_stamp n (notif w) in
      (set_notif nm w, BStamped n')
  | BStamped n => (w, BSending n (Notification.Broadcast_subs (notif w)))
  | BSending n (r :: subs) => (set_heap (alter (Send n) r (heap w)) w, BSending n subs)
  | BSending n [] => (w, BReturned)
  | BReturned => (w, BReturned)
  end.

(** A goroutine inside [ListenerService.SubscribeNotifications] (third
    document, the buffered handler). *)
Inductive SubscribePC :=
| SEnter (id : string)
| SSubscribed (id : string) (r : Notification.Ref) (sequenceNo : Z)
| SStatusRead (id : string) (r : Notification.Ref) (initial : Notification.Notification)
| SInitialSent (id : string) (r : Notification.Ref)
| SFlushing (id : string) (r : Notification.Ref) (buffered : list Notification.Notification)
| SWaiting (id : string) (r : Notification.Ref)
| SReturned.

Definition initialNotification (sequenceNo : Z) (m : Session.Manager) : Notification.Notification :=
  let '(sessionInfo, trackInfo) := Session.GetStatus m in
  {| Notification.SequenceNo := sequenceNo;
     Notification.Type_ := Notification.INITIAL_STATE;
     Notification.SessionInfo_ := Some sessionInfo;
     Notification.TrackInfo_ := trackInfo |}.

Definition Subscribe_step (w : World) (pc : SubscribePC) : World * SubscribePC :=
  match pc with
  | SEnter id =>
      let r := length (heap w) in
      let w := set_heap (heap w ++ [ {| stream := []; buffer := []; ready := false |} ]) w in
      let '(nm, (subscriptionID, sequenceNo)) := SubscribeSeq id r (notif w) in
      (set_notif nm w, SSubscribed subscriptionID r sequenceNo)
  | SSubscribed id r sequenceNo => (w, SStatusRead id r (initialNotification sequenceNo (session w)))
  | SStatusRead id r initial => (set_heap (alter (streamSend initial) r (heap w)) w, SInitialSent id r)
  | SInitialSent id r =>
      match heap w !! r with
      | Some a =>
          let '(a', buffered) := Flush_take a in
          (set_heap (<[r := a']> (heap w)) w, SFlushing id r buffered)
      | None => (w, SReturned)
      end
  | SFlushing id r (n :: rest) => (set_heap (alter (streamSend n) r (heap w)) w, SFlushing id r rest)
  | SFlushing id r [] => (w, SWaiting id r)
  | SWaiting id r => (set_notif (Notification.Unsubscribe id (notif w)) w, SReturned)
  | SReturned => (w, SReturned)
  end.

(** One broadcaster and one subscriber over the shared state. *)
Record Sys := mkSys {
  world : World;
  broadcaster : BroadcastPC;
  subscriber : SubscribePC
}.

Inductive Tid := TBroadcast | TSubscribe.

Definition step (t : Tid) (s : Sys) : Sys :=
  match t with
  | TBroadcast =>
      let '(w, pc) := Broadcast_step (world s) (broadcaster s) in
      {| world := w; broadcaster := pc; subscriber := subscriber s |}
  | TSubscribe =>
      let '(w, pc) := Subscribe_step (world s) (subscriber s) in
      {| world := w; broadcaster := broadcaster s; subscriber := pc |}
  end.

Definition run (schedule : list Tid) (s : Sys) : Sys := fold_left (fun s t => step t s) schedule s.

(** [notificationStreamAdapter.Flush] run without interference: the buffer is
    taken and its notifications are written to the stream in order. *)
Definition Flush (a : notificationStreamAdapter) : notificationStreamAdapter :=
  let '(a', buffered) := Flush_take a in
  fold_left (fun a n => streamSend n a) buffered a'.

End Connect.

(** The earlier handler (src/unnamed/part_013, second document): the sequence
    number is taken first, the initial state is sent, and only then is the
    stream subscribed, with an adapter that sends directly. *)

Module ConnectDirect.

Inductive SubscribePC :=
| SEnter (id : string)
| SNumbered (id : string) (sequenceNo : Z)
| SStatusRead (id : string) (initial : Notification.Notification)
| SInitialSent (id : string) (r : Notification.Ref)
| SWaiting (id : string) (r : Notification.Ref)
| SReturned.

Definition directAdapter : Connect.notificationStreamAdapter :=
  {| Connect.stream := []; Connect.buffer := []; Connect.ready := true |}.

Definition Subscribe_step (w : Connect.World) (pc : SubscribePC) : Connect.World * SubscribePC :=
  match pc with
  | SEnter id =>
      let '(nm, sequenceNo) := Notification.NextSequenceNo (Connect.notif w) in
      (Connect.set_notif nm w, SNumbered id sequenceNo)
  | SNumbered id sequenceNo =>
      (w, SStatusRead id (Connect.initialNotification sequenceNo (Connect.session w)))
  | SStatusRead id initial =>
      let r := length (Connect.heap w) in
      (Connect.set_heap (Connect.heap w ++ [Connect.streamSend initial directAdapter]) w,
       SInitialSent id r)
  | SInitialSent id r =>
      let '(nm, _) := Notification.Subscribe id r (Connect.notif w) in
      (Connect.set_notif nm w, SWaiting id r)
  | SWaiting id r =>
      (Connect.set_notif (Notification.Unsubscribe id (Connect.notif w)) w, SReturned)
  | SReturned => (w, SReturned)
  end.

Record Sys := mkSys {
  world : Connect.World;
  broadcaster : Connect.BroadcastPC;
  subscriber : SubscribePC
}.

Definition step (t : Connect.Tid) (s : Sys) : Sys :=
  match t with
  | Connect.TBroadcast =>
      let '(w, pc) := Connect.Broadcast_step (world s) (broadcaster s) in
      {| world := w; broadcaster := pc; subscriber := subscriber s |}
  | Connect.TSubscribe =>
      let '(w, pc) := Subscribe_step (world s) (subscriber s) in
      {| world := w; broadcaster := broadcaster s; subscriber := pc |}
  end.

Definition run (schedule : list Connect.Tid) (s : Sys) : Sys :=
  fold_left (fun s t => step t s) schedule s.

End ConnectDirect.

(** ** Package spotify (src/internal/infra/spotify/client_test.go, second
    document): the retry loop of the client *)

Module SpotifyClient.

(** [strings.Contains] *)
Fixpoint hasPrefix (prefix s : list ascii) : bool :=
  match prefix, s with
  | [], _ => true
  | a :: prefix', b :: s' => Ascii.eqb a b && hasPrefix prefix' s'
  | _ :: _, [] => false
  end.

Fixpoint containsList (s substr : list ascii) : bool :=
  hasPrefix substr s
  || match s with
     | [] => false
     | _ :: s' => containsList s' substr
     end.

Definition Contains (s substr : string) : bool :=
  containsList (list_ascii_of_string s) (list_ascii_of_string substr).

(** [isRetryable]; an error is its message, [None] is [nil]. *)
Definition isRetryable (err : option string) : bool :=
  match err with
  | None => false
  | Some errStr =>
      Contains errStr "rate limit" || Contains errStr "429" || Contains errStr "500"
      || Contains errStr "502" || Contains errStr "503" || Contains errStr "504"
  end.

(** What [retry] returns: [nil], the error of [fn] as it is, or the last
    error wrapped as "max retries exceeded". *)
Inductive RetryResult :=
| RetryOk
| RetryError (err : string)
| RetryExhausted (lastErr : option string).

(** The loop of [retry].  [fn i] is what the i-th call of the operation
    answers ([None] for success); [remaining] counts the rounds left, [i] is
    the loop variable.  The result comes with the number of calls made and
    the pauses slept, in order. *)
Fixpoint retry_loop (fn : nat -> option string) (maxRetries retryDelay : Z)
    (remaining : nat) (i : nat) (lastErr : option string) (sleeps : list Z)
    : RetryResult * nat * list Z :=
  match remaining with
  | O => (RetryExhausted lastErr, i, sleeps)
  | S remaining' =>
      match fn i with
      | None => (RetryOk, S i, sleeps)
      | Some err =>
          if negb (isRetryable (Some err)) then (RetryError err, S i, sleeps)
          else
            let sleeps :=
              if Z.of_nat i <? Go.sub64 maxRetries 1
              then sleeps ++ [Go.mul64 retryDelay (Go.add64 (Z.of_nat i) 1)]
              else sleeps in
            retry_loop fn maxRetries retryDelay remaining' (S i) (Some err) sleeps
      end
  end.

(** [Client.retry] *)
Definition retry (fn : nat -> option string) (maxRetries retryDelay : Z)
    : RetryResult * nat * list Z :=
  retry_loop fn maxRetries retryDelay (Z.to_nat maxRetries) 0 None [].

End SpotifyClient.

(** * Properties *)

(** ** Machine arithmetic *)

Lemma wrap64_small (z : Z) : Go.min_int64 <= z <= Go.max_int64 -> Go.wrap64 z = z.
Proof.
  unfold Go.wrap64, Go.min_int64, Go.max_int64. intros H.
  rewrite Z.mod_small; lia.
Qed.

Lemma wrap64_range (z : Z) : Go.min_int64 <= Go.wrap64 z <= Go.max_int64.
Proof.
  unfold Go.wrap64, Go.min_int64, Go.max_int64.
  pose proof (Z.mod_pos_bound (z + 2 ^ 63) (2 ^ 64) ltac:(lia)). lia.
Qed.

Lemma neg64_small (d : Z) : Go.min_int64 < d <= Go.max_int64 -> Go.neg64 d = - d.
Proof.
  intros H. unfold Go.neg64. apply wrap64_small.
  unfold Go.min_int64, Go.max_int64 in *. lia.
Qed.

Lemma add64_small (a b : Z) :
  Go.min_int64 <= a + b <= Go.max_int64 -> Go.add64 a b = a + b.
Proof. apply wrap64_small. Qed.

Lemma sub64_small (a b : Z) :
  Go.min_int64 <= a - b <= Go.max_int64 -> Go.sub64 a b = a - b.
Proof. apply wrap64_small. Qed.

(** ** C8: the pending counter of a listener session *)

Definition session_with_pending (p : Z) : Listener.Session :=
  {| Listener.ID := "listener-1"; Listener.DisplayName := "Test User";
     Listener.ExternalUserID := ""; Listener.PendingTracks := p;
     Listener.IsKicked := false; Listener.JoinedAt := 0; Listener.VIPStatus := false;
     Listener.RequestQuota := 0; Listener.TotalRequests := 0;
     Listener.LastRequestAt := None |}.

(** C8, as stated, fails at the largest [int]: from [pending_count =
    2^63 - 1] the increment wraps to a negative count, the decrement then
    leaves it alone, and the round trip does not return the starting value. *)
Lemma pending_count_wraps_at_max_int :
  Listener.PendingTracks
    (Listener.IncrementPendingTracks 0 (session_with_pending Go.max_int64)) < 0
  /\ Listener.PendingTracks
       (Listener.DecrementPendingTracks
          (Listener.IncrementPendingTracks 0 (session_with_pending Go.max_int64)))
     <> Listener.PendingTracks (session_with_pending Go.max_int64).
Proof. vm_compute. split; [reflexivity | discriminate]. Qed.

(** C8, amended: for every listener session whose pending count [p] satisfies
    [0 <= p < 2^63 - 1], the count stays non-negative after an increment and
    after a decrement, a decrement at 0 changes nothing, and an increment
    followed by a decrement returns the count to [p]. *)
Theorem pending_count_saturating (now : Z) (s : Listener.Session) :
  0 <= Listener.PendingTracks s < Go.max_int64 ->
  0 <= Listener.PendingTracks (Listener.IncrementPendingTracks now s)
  /\ 0 <= Listener.PendingTracks (Listener.DecrementPendingTracks s)
  /\ (Listener.PendingTracks s = 0 -> Listener.DecrementPendingTracks s = s)
  /\ Listener.PendingTracks
       (Listener.DecrementPendingTracks (Listener.IncrementPendingTracks now s))
     = Listener.PendingTracks s.
Proof.
  intros Hp.
  assert (Hinc : Listener.PendingTracks (Listener.IncrementPendingTracks now s)
                 = Listener.PendingTracks s + 1).
  { simpl. apply add64_small. unfold Go.min_int64, Go.max_int64 in *. lia. }
  repeat split.
  - rewrite Hinc. lia.
  - unfold Listener.DecrementPendingTracks.
    destruct (0 <? Listener.PendingTracks s) eqn:Hpos; simpl; [| lia].
    apply Z.ltb_lt in Hpos. rewrite sub64_small; unfold Go.min_int64, Go.max_int64 in *; lia.
  - intros H0. unfold Listener.DecrementPendingTracks. rewrite H0. reflexivity.
  - simpl in Hinc. unfold Listener.DecrementPendingTracks, Listener.IncrementPendingTracks.
    cbn [Listener.PendingTracks]. rewrite Hinc.
    destruct (0 <? Listener.PendingTracks s + 1) eqn:Hpos.
    + cbn [Listener.PendingTracks].
      rewrite sub64_small; unfold Go.min_int64, Go.max_int64 in *; lia.
    + apply Z.ltb_ge in Hpos. lia.
Qed.

Lemma pending_count_saturating_witness :
  0 <= Listener.PendingTracks (session_with_pending 3) < Go.max_int64
  /\ (0 <= Listener.PendingTracks (Listener.IncrementPendingTracks 7 (session_with_pending 3))
      /\ 0 <= Listener.PendingTracks (Listener.DecrementPendingTracks (session_with_pending 3))
      /\ (Listener.PendingTracks (session_with_pending 3) = 0 ->
          Listener.DecrementPendingTracks (session_with_pending 3) = session_with_pending 3)
      /\ Listener.PendingTracks
           (Listener.DecrementPendingTracks
              (Listener.IncrementPendingTracks 7 (session_with_pending 3)))
         = Listener.PendingTracks (session_with_pending 3)).
Proof.
  split.
  - vm_compute. split; [discriminate | reflexivity].
  - apply (pending_count_saturating 7 (session_with_pending 3)).
    vm_compute. split; [discriminate | reflexivity].
Defined.

(** ** C1: the acceptance gate *)

Lemma Accept_not_Reject (code : string) : Filter.Accept <> Filter.Reject code.
Proof. discriminate. Qed.

(** C1.  For a request of the USER class (the only class the filter applies
    to): a session that is not accepting is rejected with [acceptance_done];
    otherwise, with an end time set, the request is rejected with
    [time_limit_exceeded] exactly when [now] is after the deadline
    [scheduled_end - ending_duration] or the projected playback start
    [now + current_remaining + queued_duration] is at or after the deadline
    (a start equal to the deadline is rejected); in every other case the
    filter accepts.  The ending duration is any [Duration] but the smallest
    one, whose negation does not exist. *)
Theorem acceptance_gate_decides {W : Type} (f : Filter.AcceptanceDoneFilter W) (w : W)
    (req : Filter.TrackRequest) (t : Track.Track) (l : Listener.Session) :
  Go.min_int64 < Filter.getEndingDur f w <= Go.max_int64 ->
  (forall rt, Filter.AppliesTo (Filter.NewAcceptanceDoneFilter f) rt = true
              <-> rt = Track.RequesterTypeUser)
  /\ (Filter.isAccepting f w = false ->
      Filter.AcceptanceDone_Check f w req t l = Filter.Reject "acceptance_done")
  /\ (Filter.isAccepting f w = true -> Filter.getEndTime f w = None ->
      Filter.AcceptanceDone_Check f w req t l = Filter.Accept)
  /\ (forall scheduled_end : Z,
        Filter.isAccepting f w = true -> Filter.getEndTime f w = Some scheduled_end ->
        (Filter.AcceptanceDone_Check f w req t l = Filter.Reject "time_limit_exceeded"
         <-> (scheduled_end - Filter.getEndingDur f w < Filter.getNow f w
              \/ scheduled_end - Filter.getEndingDur f w
                 <= Filter.getNow f w + Filter.getCurrentRemain f w + Filter.getQueueDuration f w))
        /\ (Filter.getNow f w + Filter.getCurrentRemain f w + Filter.getQueueDuration f w
            = scheduled_end - Filter.getEndingDur f w ->
            Filter.AcceptanceDone_Check f w req t l = Filter.Reject "time_limit_exceeded")
        /\ (Filter.getNow f w <= scheduled_end - Filter.getEndingDur f w ->
            Filter.getNow f w + Filter.getCurrentRemain f w + Filter.getQueueDuration f w
            < scheduled_end - Filter.getEndingDur f w ->
            Filter.AcceptanceDone_Check f w req t l = Filter.Accept)).
Proof.
  intros Hdur.
  split; [| split; [| split]].
  - intros rt. cbn. unfold Filter.userOnly. destruct rt; cbn; split; congruence.
  - intros Hacc. unfold Filter.AcceptanceDone_Check. rewrite Hacc. reflexivity.
  - intros Hacc Hend. unfold Filter.AcceptanceDone_Check. rewrite Hacc, Hend. reflexivity.
  - intros scheduled_end Hacc Hend.
    unfold Filter.AcceptanceDone_Check. rewrite Hacc, Hend. cbn [negb].
    rewrite (neg64_small _ Hdur).
    unfold Go.After, Go.Equal, Go.Add.
    set (deadline := scheduled_end + - Filter.getEndingDur f w).
    set (start := Filter.getNow f w + Filter.getCurrentRemain f w + Filter.getQueueDuration f w).
    replace (scheduled_end - Filter.getEndingDur f w) with deadline by (unfold deadline; lia).
    destruct (deadline <? Filter.getNow f w) eqn:Hnow;
      [apply Z.ltb_lt in Hnow | apply Z.ltb_ge in Hnow];
      cbn [orb];
      [| destruct (deadline <? start) eqn:Hlt;
         [apply Z.ltb_lt in Hlt | apply Z.ltb_ge in Hlt];
         destruct (start =? deadline) eqn:Heq;
         [apply Z.eqb_eq in Heq | apply Z.eqb_neq in Heq
         | apply Z.eqb_eq in Heq | apply Z.eqb_neq in Heq]; cbn [orb]];
      (split; [split | split]); intros;
      solve [ reflexivity | lia | discriminate | left; lia | right; lia
            | match goal with H : _ \/ _ |- _ => destruct H; lia end ].
Qed.

(** The test "track start exactly at deadline": the end is one hour away,
    the ending playlist lasts five minutes, fifteen minutes remain of the
    current track and forty are queued. *)
Definition gate_at_deadline : Filter.AcceptanceDoneFilter unit :=
  {| Filter.isAccepting := fun _ => true;
     Filter.getEndTime := fun _ => Some (1000 + Go.Hour);
     Filter.getEndingDur := fun _ => 5 * Go.Minute;
     Filter.getQueueDuration := fun _ => 40 * Go.Minute;
     Filter.getCurrentRemain := fun _ => 15 * Go.Minute;
     Filter.getNow := fun _ => 1000 |}.

Definition test_request : Filter.TrackRequest :=
  {| Filter.ListenerID := "test-listener"; Filter.TrackID := "test-track" |}.

Definition test_track : Track.Track :=
  {| Track.ID := "test-track"; Track.Name := ""; Track.Artists := [];
     Track.Duration := 10 * Go.Minute; Track.Markets := []; Track.IsPlayable := None |}.

Lemma acceptance_gate_decides_witness :
  Go.min_int64 < Filter.getEndingDur gate_at_deadline tt <= Go.max_int64
  /\ Filter.AcceptanceDone_Check gate_at_deadline tt test_request test_track
       (session_with_pending 0)
     = Filter.Reject "time_limit_exceeded".
Proof.
  assert (H : Go.min_int64 < Filter.getEndingDur gate_at_deadline tt <= Go.max_int64)
    by (vm_compute; split; [reflexivity | discriminate]).
  split; [exact H |].
  destruct (acceptance_gate_decides gate_at_deadline tt test_request test_track
              (session_with_pending 0) H) as (_ & _ & _ & Hend).
  destruct (Hend (1000 + Go.Hour) eq_refl eq_refl) as (_ & Heq & _).
  apply Heq. reflexivity.
Defined.

(** ** C5: the duplicate-track filter *)

(** The table of [TestNormalizeTrackName]. *)
Lemma normalizeTrackName_test_table :
  map Filter.normalizeTrackName
    [ "Bohemian Rhapsody"; "Bohemian Rhapsody - 2011 Remaster"; "Yesterday (Remastered 2023)";
      "Hotel California [Remastered]"; "Stairway to Heaven (Radio Edit)"; "Imagine - Live";
      "Let It Be (Single Version)"; "Hey Jude - Remastered Version";
      "Come Together (2019 Mix)"; "   Extra   Spaces   " ]%string
  = [ "bohemian rhapsody"; "bohemian rhapsody"; "yesterday"; "hotel california";
      "stairway to heaven"; "imagine"; "let it be"; "hey jude";
      "come together (2019 mix)"; "extra spaces" ]%string.
Proof. vm_compute. reflexivity. Qed.

Arguments Filter.normalizeTrackName : simpl never.

(** Two tracks are the same song for the filter: the same id, or the same
    normalized name and first artists that are equal without case. *)
Definition same_song (queued requested : Track.Track) : Prop :=
  Track.ID queued = Track.ID requested
  \/ (Filter.normalizeTrackName (Track.Name queued)
      = Filter.normalizeTrackName (Track.Name requested)
      /\ exists a1 rest1 a2 rest2,
           Track.Artists queued = a1 :: rest1
           /\ Track.Artists requested = a2 :: rest2
           /\ Strs.EqualFold a1 a2 = true).

Lemma isSameArtist_true (t1 t2 : Track.Track) :
  Filter.isSameArtist t1 t2 = true
  <-> exists a1 rest1 a2 rest2,
        Track.Artists t1 = a1 :: rest1 /\ Track.Artists t2 = a2 :: rest2
        /\ Strs.EqualFold a1 a2 = true.
Proof.
  unfold Filter.isSameArtist.
  destruct (Track.Artists t1) as [| a1 r1]; destruct (Track.Artists t2) as [| a2 r2];
    split; try discriminate.
  - intros (? & ? & ? & ? & H & _). discriminate H.
  - intros (? & ? & ? & ? & H & _). discriminate H.
  - intros (? & ? & ? & ? & _ & H & _). discriminate H.
  - intros H. exists a1, r1, a2, r2. auto.
  - intros (? & ? & ? & ? & H1 & H2 & H). congruence.
Qed.

Lemma same_song_decided (queued requested : Track.Track) :
  same_song queued requested
  <-> (String.eqb (Track.ID queued) (Track.ID requested)
       || Filter.isRemaster queued requested) = true.
Proof.
  unfold same_song, Filter.isRemaster. rewrite orb_true_iff, String.eqb_eq.
  destruct (String.eqb (Filter.normalizeTrackName (Track.Name queued))
              (Filter.normalizeTrackName (Track.Name requested))) eqn:Hn; cbn [negb].
  - apply String.eqb_eq in Hn. rewrite isSameArtist_true. tauto.
  - apply String.eqb_neq in Hn. split; [| intros [H | H]; [auto | discriminate]].
    intros [H | [H _]]; [auto | contradiction].
Qed.

Lemma DuplicateTrack_loop_rejects (queuedTracks : list Track.QueuedTrack) (requested : Track.Track) :
  Filter.DuplicateTrack_loop queuedTracks requested = Filter.Reject "duplicate_track"
  <-> exists queued, In queued queuedTracks /\ same_song (Track.track queued) requested.
Proof.
  induction queuedTracks as [| q rest IH]; cbn [Filter.DuplicateTrack_loop].
  - split; [discriminate | intros (? & [] & _)].
  - destruct (String.eqb (Track.ID (Track.track q)) (Track.ID requested)) eqn:Hid;
      [| destruct (Filter.isRemaster (Track.track q) requested) eqn:Hr];
      pose proof (same_song_decided (Track.track q) requested) as Hq;
      rewrite Hid in Hq; try rewrite Hr in Hq; cbn [orb] in Hq.
    + split; [| reflexivity]. intros _. exists q. split; [now left | apply Hq; reflexivity].
    + split; [| reflexivity]. intros _. exists q. split; [now left | apply Hq; reflexivity].
    + rewrite IH. split.
      * intros (x & Hin & Hx). exists x. split; [now right | exact Hx].
      * intros (x & [Heq | Hin] & Hx).
        -- subst x. apply Hq in Hx. discriminate Hx.
        -- exists x. auto.
Qed.

Lemma DuplicateTrack_loop_two_results (queuedTracks : list Track.QueuedTrack) (requested : Track.Track) :
  Filter.DuplicateTrack_loop queuedTracks requested = Filter.Accept
  \/ Filter.DuplicateTrack_loop queuedTracks requested = Filter.Reject "duplicate_track".
Proof.
  induction queuedTracks as [| q rest IH]; cbn [Filter.DuplicateTrack_loop].
  - now left.
  - destruct (String.eqb _ _); [now right |].
    destruct (Filter.isRemaster _ _); [now right | exact IH].
Qed.

(** C5.  The filter applies to the USER class only.  Over the combined list
    played + current + queued of the controller, it rejects with
    [duplicate_track] if and only if the list holds a track with the same id,
    or one with the same normalized name whose first artist equals the
    requested track's first artist without case; every other request is
    accepted, in particular a cover (same normalized name, other first
    artist) and a remix (another normalized name) with a fresh id. *)
Theorem duplicate_track_decides (w : Session.FilterWorld) (req : Filter.TrackRequest)
    (requested : Track.Track) (l : Listener.Session) :
  let f := Filter.NewDuplicateTrackFilter (fun w => Playback.GetAllTracks (Session.fwPlayback w)) in
  let c := Session.fwPlayback w in
  (forall rt, Filter.AppliesTo f rt = true <-> rt = Track.RequesterTypeUser)
  /\ (Filter.Check f w req requested l = Filter.Reject "duplicate_track"
      <-> exists queued,
            (In queued (Playback.played c) \/ Playback.currentTrack c = Some queued
             \/ In queued (Playback.queue c))
            /\ same_song (Track.track queued) requested)
  /\ (Filter.Check f w req requested l <> Filter.Reject "duplicate_track" ->
      Filter.Check f w req requested l = Filter.Accept)
  /\ ((forall queued,
         In queued (Playback.played c) \/ Playback.currentTrack c = Some queued
         \/ In queued (Playback.queue c) ->
         Track.ID (Track.track queued) <> Track.ID requested
         /\ (Filter.normalizeTrackName (Track.Name (Track.track queued))
             <> Filter.normalizeTrackName (Track.Name requested)
             \/ Filter.isSameArtist (Track.track queued) requested = false)) ->
      Filter.Check f w req requested l = Filter.Accept).
Proof.
  intros f c.
  assert (Hall : forall q, In q (Playback.GetAllTracks c)
                 <-> (In q (Playback.played c) \/ Playback.currentTrack c = Some q
                      \/ In q (Playback.queue c))).
  { intros q. unfold Playback.GetAllTracks, Playback.currentAsList.
    rewrite !in_app_iff. destruct (Playback.currentTrack c) as [cur |]; cbn [In].
    - split; intros [H | [H | H]]; auto.
      + destruct H as [H | []]. subst. auto.
      + injection H as ->. auto.
    - split; intros [H | [H | H]]; auto; try contradiction; discriminate. }
  assert (Hrej : Filter.Check f w req requested l = Filter.Reject "duplicate_track"
                 <-> exists queued,
                       (In queued (Playback.played c) \/ Playback.currentTrack c = Some queued
                        \/ In queued (Playback.queue c))
                       /\ same_song (Track.track queued) requested).
  { unfold f. cbn [Filter.Check Filter.NewDuplicateTrackFilter].
    unfold Filter.DuplicateTrack_Check. rewrite DuplicateTrack_loop_rejects.
    split; intros (q & Hin & Hs); exists q; (split; [apply Hall; exact Hin | exact Hs]). }
  split; [| split; [exact Hrej | split]].
  - intros rt. cbn. unfold Filter.userOnly. destruct rt; cbn; split; congruence.
  - unfold f. cbn [Filter.Check Filter.NewDuplicateTrackFilter].
    unfold Filter.DuplicateTrack_Check. intros Hne.
    destruct (DuplicateTrack_loop_two_results (Playback.GetAllTracks c) requested); tauto.
  - intros Hno. revert Hrej. unfold f. cbn [Filter.Check Filter.NewDuplicateTrackFilter].
    unfold Filter.DuplicateTrack_Check. intros Hrej.
    destruct (DuplicateTrack_loop_two_results (Playback.GetAllTracks c) requested) as [H | H];
      [exact H |].
    exfalso. apply Hrej in H. destruct H as (q & Hin & Hs).
    destruct (Hno q Hin) as (Hid & Hdiff).
    destruct Hs as [Hs | (Hname & Hart)]; [contradiction |].
    destruct Hdiff as [Hd | Hd]; [contradiction |].
    apply isSameArtist_true in Hart. congruence.
Qed.

(** A witness for C5: the spec's duplicate-remaster scenario.  The queue holds
    "Yesterday" by The Beatles (id A); the remaster B is rejected and the
    cover C by Paul McCartney is accepted. *)
Definition mk_track (id name : string) (artists : list string) (d : Z) : Track.Track :=
  {| Track.ID := id; Track.Name := name; Track.Artists := artists; Track.Duration := d;
     Track.Markets := []; Track.IsPlayable := None |}.

Definition queued_by (who : string) (t : Track.Track) : Track.QueuedTrack :=
  {| Track.track := t;
     Track.requester := {| Track.RequesterID := who; Track.RequesterName := who;
                           Track.ExternalUserID := ""; Track.Type_ := Track.RequesterTypeUser |};
     Track.AddedAt := 0 |}.

Definition yesterday_A : Track.Track := mk_track "A" "Yesterday" ["The Beatles"] (3 * Go.Minute).
Definition yesterday_B : Track.Track :=
  mk_track "B" "Yesterday (Remastered 2023)" ["The Beatles"] (3 * Go.Minute).
Definition yesterday_C : Track.Track := mk_track "C" "Yesterday" ["Paul McCartney"] (3 * Go.Minute).

Definition test_config : Playback.Config :=
  {| Playback.DepletionThresholdSec := 30; Playback.NotificationDelay := 0;
     Playback.GapCorrection := 0 |}.

Definition world_with_queue (qts : list Track.QueuedTrack) : Session.FilterWorld :=
  {| Session.fwState := State.New "s";
     Session.fwPlayback := Playback.set_queue qts (Playback.NewController test_config);
     Session.fwNow := 0 |}.

Lemma duplicate_track_decides_witness :
  Filter.Check
    (Filter.NewDuplicateTrackFilter (fun w => Playback.GetAllTracks (Session.fwPlayback w)))
    (world_with_queue [queued_by "u" yesterday_A]) test_request yesterday_B
    (session_with_pending 0)
  = Filter.Reject "duplicate_track"
  /\ Filter.Check
       (Filter.NewDuplicateTrackFilter (fun w => Playback.GetAllTracks (Session.fwPlayback w)))
       (world_with_queue [queued_by "u" yesterday_A]) test_request yesterday_C
       (session_with_pending 0)
     = Filter.Accept.
Proof.
  split.
  - apply (proj1 (proj2 (duplicate_track_decides
                           (world_with_queue [queued_by "u" yesterday_A]) test_request
                           yesterday_B (session_with_pending 0)))).
    exists (queued_by "u" yesterday_A). split.
    + right. right. left. reflexivity.
    + right. split; [vm_compute; reflexivity |].
      exists "The Beatles"%string, [], "The Beatles"%string, []. repeat split.
  - apply (proj2 (proj2 (proj2 (duplicate_track_decides
                                  (world_with_queue [queued_by "u" yesterday_A]) test_request
                                  yesterday_C (session_with_pending 0))))).
    intros queued [[] | [H | [H | []]]]; [discriminate H |].
    subst queued. split; [vm_compute; discriminate | right; vm_compute; reflexivity].
Defined.

(** ** The playback controller: what an operation leaves alone *)

(** Everything that concerns the track being played: the current track, the
    state, the history, the virtual clock, and the track-end and
    notification-delay timers with their goroutines. *)
Record playing_untouched (c c' : Playback.Controller) : Prop := mkUntouched {
  same_currentTrack : Playback.currentTrack c' = Playback.currentTrack c;
  same_state : Playback.state c' = Playback.state c;
  same_played : Playback.played c' = Playback.played c;
  same_startTime : Playback.startTime c' = Playback.startTime c;
  same_scheduledStartTime : Playback.scheduledStartTime c' = Playback.scheduledStartTime c;
  same_notificationTime : Playback.notificationTime c' = Playback.notificationTime c;
  same_pausedAt : Playback.pausedAt c' = Playback.pausedAt c;
  same_pausedElapsed : Playback.pausedElapsed c' = Playback.pausedElapsed c;
  same_timerCancel : Playback.timerCancel c' = Playback.timerCancel c;
  same_notificationDelayTimerCancel :
    Playback.notificationDelayTimerCancel c' = Playback.notificationDelayTimerCancel c;
  same_trackTimers : Playback.trackTimers c' = Playback.trackTimers c;
  same_notificationTimers : Playback.notificationTimers c' = Playback.notificationTimers c;
  same_config : Playback.config c' = Playback.config c
}.

Lemma playing_untouched_refl (c : Playback.Controller) : playing_untouched c c.
Proof. constructor; reflexivity. Qed.

Lemma playing_untouched_trans (c1 c2 c3 : Playback.Controller) :
  playing_untouched c1 c2 -> playing_untouched c2 c3 -> playing_untouched c1 c3.
Proof. intros [] []. constructor; congruence. Qed.

Ltac untouched := constructor; reflexivity.

Lemma sendEventLocked_untouched (e : Playback.Event) (c : Playback.Controller) :
  playing_untouched c (Playback.sendEventLocked e c).
Proof. unfold Playback.sendEventLocked. destruct (_ <? _)%nat; untouched. Qed.

Lemma checkDepletionLocked_untouched (now : Z) (c : Playback.Controller) :
  playing_untouched c (Playback.checkDepletionLocked now c).
Proof.
  unfold Playback.checkDepletionLocked.
  destruct (Playback.depletionNotified c); [apply playing_untouched_refl |].
  destruct (_ && _).
  - eapply playing_untouched_trans; [| apply sendEventLocked_untouched]. untouched.
  - destruct (_ && _); untouched.
Qed.

Lemma Enqueue_untouched (now : Z) (qt : Track.QueuedTrack) (c : Playback.Controller) :
  playing_untouched c (Playback.Enqueue now qt c).
Proof.
  unfold Playback.Enqueue.
  eapply playing_untouched_trans; [| apply checkDepletionLocked_untouched]. untouched.
Qed.

Lemma EnqueueMultiple_untouched (now : Z) (qts : list Track.QueuedTrack) (c : Playback.Controller) :
  playing_untouched c (Playback.EnqueueMultiple now qts c).
Proof.
  unfold Playback.EnqueueMultiple.
  eapply playing_untouched_trans; [| apply checkDepletionLocked_untouched]. untouched.
Qed.

(** The queue after [checkDepletionLocked], [Enqueue]. *)
Lemma sendEventLocked_queue (e : Playback.Event) (c : Playback.Controller) :
  Playback.queue (Playback.sendEventLocked e c) = Playback.queue c.
Proof. unfold Playback.sendEventLocked. destruct (_ <? _)%nat; reflexivity. Qed.

Lemma checkDepletionLocked_queue (now : Z) (c : Playback.Controller) :
  Playback.queue (Playback.checkDepletionLocked now c) = Playback.queue c.
Proof.
  unfold Playback.checkDepletionLocked.
  destruct (Playback.depletionNotified c); [reflexivity |].
  destruct (_ && _); [rewrite sendEventLocked_queue; reflexivity |].
  destruct (_ && _); reflexivity.
Qed.

Lemma Enqueue_queue (now : Z) (qt : Track.QueuedTrack) (c : Playback.Controller) :
  Playback.queue (Playback.Enqueue now qt c) = Playback.queue c ++ [qt].
Proof. unfold Playback.Enqueue. rewrite checkDepletionLocked_queue. reflexivity. Qed.

(** [enqueuePlaylistTracks] on the controller. *)
Definition as_queued (m : Session.Manager) (now : Z) (requesterName : string)
    (requesterType : Track.RequesterType) (t : Track.Track) : Track.QueuedTrack :=
  {| Track.track := t;
     Track.requester :=
       {| Track.RequesterID := Listener.ID (Session.systemUser m);
          Track.RequesterName := requesterName;
          Track.ExternalUserID := "";
          Track.Type_ := requesterType |};
     Track.AddedAt := now |}.

Lemma addRecentArtistsLocked_frame (artists : list string) (m : Session.Manager) :
  Session.playback (Session.addRecentArtistsLocked artists m) = Session.playback m
  /\ Session.stateMgr (Session.addRecentArtistsLocked artists m) = Session.stateMgr m
  /\ Session.systemUser (Session.addRecentArtistsLocked artists m) = Session.systemUser m
  /\ Session.listenerReg (Session.addRecentArtistsLocked artists m) = Session.listenerReg m
  /\ Session.endingDisplayName (Session.addRecentArtistsLocked artists m)
     = Session.endingDisplayName m
  /\ Session.endingPlaylistURL (Session.addRecentArtistsLocked artists m)
     = Session.endingPlaylistURL m.
Proof.
  unfold Session.addRecentArtistsLocked. revert m.
  induction artists as [| a rest IH]; intros m; cbn [fold_left]; [repeat split |].
  match goal with
  | |- context [fold_left ?f rest ?m1] => destruct (IH m1) as (H1 & H2 & H3 & H4 & H5 & H6)
  end.
  rewrite H1, H2, H3, H4, H5, H6. repeat split.
Qed.

(** One round of the loop of [enqueuePlaylistTracks]. *)
Definition enqueueOne (now : Z) (name : string) (rt : Track.RequesterType)
    (m : Session.Manager) (t : Track.Track) : Session.Manager :=
  Session.addRecentArtistsLocked (Track.Artists t)
    (Session.set_playback
       (Playback.Enqueue now (as_queued m now name rt t) (Session.playback m)) m).

Lemma enqueueOne_frame (now : Z) (name : string) (rt : Track.RequesterType)
    (m : Session.Manager) (t : Track.Track) :
  Session.playback (enqueueOne now name rt m t)
  = Playback.Enqueue now (as_queued m now name rt t) (Session.playback m)
  /\ Session.stateMgr (enqueueOne now name rt m t) = Session.stateMgr m
  /\ Session.systemUser (enqueueOne now name rt m t) = Session.systemUser m.
Proof.
  unfold enqueueOne.
  destruct (addRecentArtistsLocked_frame (Track.Artists t)
              (Session.set_playback
                 (Playback.Enqueue now (as_queued m now name rt t) (Session.playback m)) m))
    as (Hp & Hst & Hsys & _).
  rewrite Hp, Hst, Hsys. repeat split.
Qed.

Lemma as_queued_systemUser (m m' : Session.Manager) now name rt :
  Session.systemUser m' = Session.systemUser m ->
  as_queued m' now name rt = as_queued m now name rt.
Proof. unfold as_queued. intros ->. reflexivity. Qed.

Lemma enqueuePlaylistTracks_fold (now : Z) (tracks : list Track.Track) (name : string)
    (rt : Track.RequesterType) (m : Session.Manager) :
  Session.enqueuePlaylistTracks now tracks name rt m
  = fold_left (enqueueOne now name rt) tracks m.
Proof. reflexivity. Qed.

Lemma enqueuePlaylistTracks_playback (now : Z) (tracks : list Track.Track) (name : string)
    (rt : Track.RequesterType) (m : Session.Manager) :
  playing_untouched (Session.playback m)
    (Session.playback (Session.enqueuePlaylistTracks now tracks name rt m))
  /\ Playback.queue (Session.playback (Session.enqueuePlaylistTracks now tracks name rt m))
     = Playback.queue (Session.playback m) ++ map (as_queued m now name rt) tracks
  /\ Session.stateMgr (Session.enqueuePlaylistTracks now tracks name rt m) = Session.stateMgr m.
Proof.
  rewrite enqueuePlaylistTracks_fold. revert m.
  induction tracks as [| t rest IH]; intros m; cbn [fold_left map].
  - rewrite app_nil_r. split; [apply playing_untouched_refl | split; reflexivity].
  - destruct (IH (enqueueOne now name rt m t)) as (Hu & Hq & Hs).
    destruct (enqueueOne_frame now name rt m t) as (Hp & Hst & Hsys).
    rewrite Hp in Hu, Hq. rewrite (as_queued_systemUser _ _ now name rt Hsys) in Hq.
    split; [| split].
    + eapply playing_untouched_trans; [apply Enqueue_untouched | exact Hu].
    + rewrite Hq, Enqueue_queue, <- app_assoc. reflexivity.
    + rewrite Hs, Hst. reflexivity.
Qed.

Lemma enqueuePlaylistTracks_endingURL (now : Z) (tracks : list Track.Track) (name : string)
    (rt : Track.RequesterType) (m : Session.Manager) :
  Session.endingPlaylistURL (Session.enqueuePlaylistTracks now tracks name rt m)
  = Session.endingPlaylistURL m.
Proof.
  rewrite enqueuePlaylistTracks_fold. revert m.
  induction tracks as [| t rest IH]; intros m; cbn [fold_left]; [reflexivity |].
  rewrite IH. unfold enqueueOne.
  rewrite (proj2 (proj2 (proj2 (proj2 (proj2 (addRecentArtistsLocked_frame _ _)))))).
  reflexivity.
Qed.

(** ** C10: ClearQueue and the ending transition *)

Lemma transitionToEnding_untouched (sp : Session.Spotify) (now : Z) (m : Session.Manager) :
  playing_untouched (Session.playback m) (Session.playback (Session.transitionToEnding sp now m)).
Proof.
  unfold Session.transitionToEnding.
  destruct (negb _); [apply playing_untouched_refl |].
  cbn [Session.endingPlaylistURL Session.set_stateMgr].
  destruct (String.eqb _ _); [apply playing_untouched_refl |].
  destruct (Session.GetPlaylistTracks sp _) as [[| t tracks] |];
    try apply playing_untouched_refl.
  cbn [Playback.ClearQueue].
  eapply playing_untouched_trans;
    [| apply (proj1 (enqueuePlaylistTracks_playback _ _ _ _ _))].
  untouched.
Qed.

Lemma transitionToEnding_swaps_queue (sp : Session.Spotify) (now : Z) (m : Session.Manager)
    (tracks : list Track.Track) :
  State.phase (Session.stateMgr m) = State.PhaseActive ->
  Session.endingPlaylistURL m <> ""%string ->
  Session.GetPlaylistTracks sp (Session.endingPlaylistURL m) = Some tracks ->
  tracks <> [] ->
  Playback.queue (Session.playback (Session.transitionToEnding sp now m))
  = map (as_queued m now (Session.endingDisplayName m) Track.RequesterTypeEnding) tracks.
Proof.
  intros Hph Hurl Hget Hne.
  unfold Session.transitionToEnding, State.GetPhase. rewrite Hph.
  change (State.Phase_eqb State.PhaseActive State.PhaseActive) with true.
  cbn [negb Session.endingPlaylistURL Session.set_stateMgr].
  apply String.eqb_neq in Hurl. rewrite Hurl, Hget.
  destruct tracks as [| t rest]; [contradiction |].
  cbn [Playback.ClearQueue].
  rewrite (proj1 (proj2 (enqueuePlaylistTracks_playback _ _ _ _ _))).
  reflexivity.
Qed.

(** C10.  [ClearQueue] returns the queue as it was, in order, and leaves an
    empty queue; the current track, the playback state, the played history,
    the virtual-clock fields, the three timer handles, the timer goroutines,
    the event channel and the depletion flag are unchanged.  The ending
    transition, which clears the queue and then enqueues the ending playlist,
    therefore leaves the current track, its clock and its track-end timer as
    they were: the track goes on to its end.  When the session is active and
    the ending playlist loads with at least one track, the queue afterwards
    is exactly the ending playlist. *)
Theorem ClearQueue_empties_only_the_queue (c : Playback.Controller) :
  snd (Playback.ClearQueue c) = Playback.queue c
  /\ Playback.queue (fst (Playback.ClearQueue c)) = []
  /\ fst (Playback.ClearQueue c) = Playback.set_queue [] c
  /\ playing_untouched c (fst (Playback.ClearQueue c))
  /\ Playback.depletionTimerCancel (fst (Playback.ClearQueue c)) = Playback.depletionTimerCancel c
  /\ Playback.depletionTimers (fst (Playback.ClearQueue c)) = Playback.depletionTimers c
  /\ Playback.eventCh (fst (Playback.ClearQueue c)) = Playback.eventCh c
  /\ Playback.depletionNotified (fst (Playback.ClearQueue c)) = Playback.depletionNotified c
  /\ (forall (sp : Session.Spotify) (now : Z) (m : Session.Manager),
        Session.playback m = c ->
        playing_untouched c (Session.playback (Session.transitionToEnding sp now m)))
  /\ (forall (sp : Session.Spotify) (now : Z) (m : Session.Manager) (tracks : list Track.Track),
        Session.playback m = c ->
        State.phase (Session.stateMgr m) = State.PhaseActive ->
        Session.endingPlaylistURL m <> ""%string ->
        Session.GetPlaylistTracks sp (Session.endingPlaylistURL m) = Some tracks ->
        tracks <> [] ->
        Playback.queue (Session.playback (Session.transitionToEnding sp now m))
        = map (as_queued m now (Session.endingDisplayName m) Track.RequesterTypeEnding) tracks).
Proof.
  repeat (split; [first [reflexivity | untouched] |]).
  split.
  - intros sp now m <-. apply transitionToEnding_untouched.
  - intros sp now m tracks <-. apply transitionToEnding_swaps_queue.
Qed.

(** ** C9: Skip and the played history *)

(** The three track lists of the controller. *)
Definition tracks_of (c : Playback.Controller)
    : list Track.QueuedTrack * option Track.QueuedTrack * list Track.QueuedTrack :=
  (Playback.played c, Playback.currentTrack c, Playback.queue c).

Lemma sendEventLocked_tracks (e : Playback.Event) (c : Playback.Controller) :
  tracks_of (Playback.sendEventLocked e c) = tracks_of c.
Proof. unfold Playback.sendEventLocked. destruct (_ <? _)%nat; reflexivity. Qed.

Lemma checkDepletionLocked_tracks (now : Z) (c : Playback.Controller) :
  tracks_of (Playback.checkDepletionLocked now c) = tracks_of c.
Proof.
  unfold Playback.checkDepletionLocked.
  destruct (Playback.depletionNotified c); [reflexivity |].
  destruct (_ && _); [rewrite sendEventLocked_tracks; reflexivity |].
  destruct (_ && _); reflexivity.
Qed.

Lemma tracks_of_inv (c c' : Playback.Controller) :
  tracks_of c' = tracks_of c ->
  Playback.played c' = Playback.played c
  /\ Playback.currentTrack c' = Playback.currentTrack c
  /\ Playback.queue c' = Playback.queue c.
Proof. unfold tracks_of. intros H. injection H as -> -> ->. auto. Qed.

(** [playNextLocked] with no current track: nothing is added to the history,
    and the head of the queue becomes the current track. *)
Lemma tracks_of_set_notificationDelayTimerCancel (v : option nat) (c : Playback.Controller) :
  tracks_of (Playback.set_notificationDelayTimerCancel v c) = tracks_of c.
Proof. reflexivity. Qed.

Lemma tracks_of_set_notificationTimers (v : list Playback.Timer) (c : Playback.Controller) :
  tracks_of (Playback.set_notificationTimers v c) = tracks_of c.
Proof. reflexivity. Qed.

Lemma tracks_of_set_notificationTime (v : Z) (c : Playback.Controller) :
  tracks_of (Playback.set_notificationTime v c) = tracks_of c.
Proof. reflexivity. Qed.

Lemma startTrackTimer_tracks (now d : Z) (c : Playback.Controller) :
  tracks_of (Playback.startTrackTimer now d c) = tracks_of c.
Proof. reflexivity. Qed.

Lemma playNextLocked_tracks (now : Z) (b : bool) (c : Playback.Controller) :
  Playback.currentTrack c = None ->
  tracks_of (fst (Playback.playNextLocked now b c))
  = match Playback.queue c with
    | [] => (Playback.played c, None, [])
    | qt :: rest => (Playback.played c, Some qt, rest)
    end.
Proof.
  intros Hcur. unfold Playback.playNextLocked.
  destruct (Playback.queue c) as [| qt rest] eqn:Hq.
  - cbn [fst]. rewrite sendEventLocked_tracks. unfold tracks_of.
    cbn [Playback.played Playback.currentTrack Playback.queue Playback.set_state].
    rewrite Hcur, Hq. reflexivity.
  - cbn [Playback.currentTrack Playback.set_queue]. rewrite Hcur.
    unfold Playback.startWallClockTimer. cbv beta iota zeta.
    destruct (0 <? Playback.NotificationDelay _); cbn [fst].
    + rewrite tracks_of_set_notificationDelayTimerCancel, tracks_of_set_notificationTimers,
        tracks_of_set_notificationTime.
      rewrite checkDepletionLocked_tracks, startTrackTimer_tracks. reflexivity.
    + rewrite sendEventLocked_tracks, checkDepletionLocked_tracks, startTrackTimer_tracks.
      reflexivity.
Qed.

Lemma Skip_tracks (now : Z) (c : Playback.Controller) (skipped : Track.QueuedTrack) :
  Playback.currentTrack c = Some skipped ->
  tracks_of (fst (Playback.Skip now c))
  = match Playback.queue c with
    | [] => (Playback.played c, None, [])
    | qt :: rest => (Playback.played c, Some qt, rest)
    end.
Proof.
  intros Hcur. unfold Playback.Skip. rewrite Hcur.
  rewrite playNextLocked_tracks.
  - rewrite (proj2 (proj2 (tracks_of_inv _ _ (sendEventLocked_tracks _ _)))).
    rewrite (proj1 (tracks_of_inv _ _ (sendEventLocked_tracks _ _))). reflexivity.
  - rewrite (proj1 (proj2 (tracks_of_inv _ _ (sendEventLocked_tracks _ _)))). reflexivity.
Qed.

Lemma onTrackEndLocked_tracks (now : Z) (c : Playback.Controller) (ended : Track.QueuedTrack) :
  Playback.currentTrack c = Some ended ->
  tracks_of (Playback.onTrackEndLocked now c)
  = match Playback.queue c with
    | [] => (Playback.played c ++ [ended], None, [])
    | qt :: rest => (Playback.played c ++ [ended], Some qt, rest)
    end.
Proof.
  intros Hcur. unfold Playback.onTrackEndLocked. rewrite Hcur.
  rewrite playNextLocked_tracks.
  - rewrite (proj2 (proj2 (tracks_of_inv _ _ (sendEventLocked_tracks _ _)))).
    rewrite (proj1 (tracks_of_inv _ _ (sendEventLocked_tracks _ _))). reflexivity.
  - rewrite (proj1 (proj2 (tracks_of_inv _ _ (sendEventLocked_tracks _ _)))). reflexivity.
Qed.

Lemma GetAllTracks_of (c : Playback.Controller) played cur q :
  tracks_of c = (played, cur, q) ->
  Playback.GetAllTracks c = played ++ match cur with Some x => [x] | None => [] end ++ q.
Proof.
  unfold tracks_of, Playback.GetAllTracks, Playback.currentAsList.
  intros H. injection H as -> -> ->. reflexivity.
Qed.

Definition duplicateTrackFilter : Filter.Filter Session.FilterWorld :=
  Filter.NewDuplicateTrackFilter (fun w => Playback.GetAllTracks (Session.fwPlayback w)).

Definition world_of (c : Playback.Controller) : Session.FilterWorld :=
  {| Session.fwState := State.New "s"; Session.fwPlayback := c; Session.fwNow := 0 |}.

(** The controller after the opening playlist ["Yesterday";
    "Yesterday (Remastered 2023)"] was enqueued and [Play] started: the first
    is the current track, the remaster waits in the queue. *)
Definition playing_A_then_B : Playback.Controller :=
  fst (Playback.Play 0
         (Playback.EnqueueMultiple 0 [queued_by "opening" yesterday_A; queued_by "opening" yesterday_B]
            (Playback.NewController test_config))).

(** C9, as stated, fails: "Yesterday" is playing and its remaster is queued;
    after the skip the history is unchanged and "Yesterday" is in none of the
    controller's lists, yet a new request for it is rejected as a duplicate
    of the queued remaster. *)
Lemma skipped_track_still_rejected :
  Playback.currentTrack playing_A_then_B = Some (queued_by "opening" yesterday_A)
  /\ Playback.played (fst (Playback.Skip 1 playing_A_then_B)) = Playback.played playing_A_then_B
  /\ ~ In (queued_by "opening" yesterday_A)
         (Playback.GetAllTracks (fst (Playback.Skip 1 playing_A_then_B)))
  /\ Filter.Check duplicateTrackFilter (world_of (fst (Playback.Skip 1 playing_A_then_B)))
       test_request yesterday_A (session_with_pending 0)
     = Filter.Reject "duplicate_track".
Proof.
  split; [vm_compute; reflexivity |].
  split; [vm_compute; reflexivity |].
  split; [| vm_compute; reflexivity].
  vm_compute. intros [H | []]. discriminate H.
Qed.

(** C9, amended.  A skip of the current track leaves the played history
    unchanged (a natural track end appends the ended track), and afterwards
    [GetAllTracks] is the history followed by the queue as they were before
    the skip: the skipped track is gone from it unless the history or the
    queue holds it as well.  A new request for the skipped track passes the
    duplicate filter exactly when no entry of the history or the queue is the
    same song (same id, or same normalized name and first artist). *)
Theorem Skip_leaves_history (now : Z) (c : Playback.Controller) (skipped : Track.QueuedTrack) :
  Playback.currentTrack c = Some skipped ->
  Playback.played (fst (Playback.Skip now c)) = Playback.played c
  /\ Playback.played (Playback.onTrackEndLocked now c) = Playback.played c ++ [skipped]
  /\ Playback.GetAllTracks (fst (Playback.Skip now c)) = Playback.played c ++ Playback.queue c
  /\ (forall (req : Filter.TrackRequest) (l : Listener.Session),
        Filter.Check duplicateTrackFilter (world_of (fst (Playback.Skip now c))) req
          (Track.track skipped) l = Filter.Accept
        <-> ~ exists queued,
              (In queued (Playback.played c) \/ In queued (Playback.queue c))
              /\ same_song (Track.track queued) (Track.track skipped)).
Proof.
  intros Hcur.
  pose proof (Skip_tracks now c skipped Hcur) as Hs.
  pose proof (onTrackEndLocked_tracks now c skipped Hcur) as He.
  assert (Hall : Playback.GetAllTracks (fst (Playback.Skip now c))
                 = Playback.played c ++ Playback.queue c).
  { destruct (Playback.queue c) as [| qt rest];
      rewrite (GetAllTracks_of _ _ _ _ Hs); reflexivity. }
  split; [| split; [| split; [exact Hall |]]].
  - destruct (Playback.queue c); unfold tracks_of in Hs; injection Hs; auto.
  - destruct (Playback.queue c); unfold tracks_of in He; injection He; auto.
  - intros req l. unfold duplicateTrackFilter.
    cbn [Filter.Check Filter.NewDuplicateTrackFilter].
    unfold Filter.DuplicateTrack_Check, world_of. cbn [Session.fwPlayback].
    rewrite Hall.
    pose proof (DuplicateTrack_loop_rejects (Playback.played c ++ Playback.queue c)
                  (Track.track skipped)) as Hrej.
    destruct (DuplicateTrack_loop_two_results (Playback.played c ++ Playback.queue c)
                (Track.track skipped)) as [Hacc | Hr].
    + split; [| intros _; exact Hacc].
      intros _ (q & Hin & Hsame).
      assert (Hx : Filter.DuplicateTrack_loop (Playback.played c ++ Playback.queue c)
                     (Track.track skipped) = Filter.Reject "duplicate_track").
      { apply Hrej. exists q. rewrite in_app_iff. auto. }
      rewrite Hacc in Hx. discriminate Hx.
    + split.
      * intros Hacc. rewrite Hr in Hacc. discriminate Hacc.
      * intros Hno. exfalso. apply Hno. apply Hrej in Hr.
        destruct Hr as (q & Hin & Hsame). exists q. rewrite in_app_iff in Hin. auto.
Qed.

Lemma Skip_leaves_history_witness :
  Playback.currentTrack playing_A_then_B = Some (queued_by "opening" yesterday_A)
  /\ Playback.played (fst (Playback.Skip 1 playing_A_then_B)) = []
  /\ Playback.GetAllTracks (fst (Playback.Skip 1 playing_A_then_B))
     = [queued_by "opening" yesterday_B].
Proof.
  assert (H : Playback.currentTrack playing_A_then_B = Some (queued_by "opening" yesterday_A))
    by (vm_compute; reflexivity).
  split; [exact H |].
  destruct (Skip_leaves_history 1 playing_A_then_B (queued_by "opening" yesterday_A) H)
    as (Hp & _ & Hall & _).
  split.
  - rewrite Hp. vm_compute. reflexivity.
  - rewrite Hall. vm_compute. reflexivity.
Defined.

(** ** C7: RequestTrack *)

Lemma Execute_accepts {W : Type} (fs : list (Filter.Filter W)) (w : W) req t l rt :
  Filter.Accepted (Filter.Execute fs w req t l rt) = true ->
  Filter.Execute fs w req t l rt = Filter.Accept.
Proof.
  induction fs as [| f rest IH]; cbn [Filter.Execute]; [reflexivity |].
  destruct (negb (Filter.AppliesTo f rt)); [exact IH |].
  destruct (Filter.Accepted (Filter.Check f w req t l)) eqn:Hacc; cbn [negb]; [exact IH |].
  intros H. congruence.
Qed.

(** A rejection of the chain is the result of its first rejecting filter:
    every applicable filter before it accepted. *)
Lemma Execute_rejects_first {W : Type} (fs : list (Filter.Filter W)) (w : W) req t l rt :
  Filter.Accepted (Filter.Execute fs w req t l rt) = false ->
  exists pre f post,
    fs = pre ++ f :: post
    /\ Filter.AppliesTo f rt = true
    /\ Filter.Check f w req t l = Filter.Execute fs w req t l rt
    /\ Forall (fun g => Filter.AppliesTo g rt = true ->
                        Filter.Accepted (Filter.Check g w req t l) = true) pre.
Proof.
  induction fs as [| f rest IH]; cbn [Filter.Execute]; [discriminate |].
  destruct (Filter.AppliesTo f rt) eqn:Happ; cbn [negb].
  - destruct (Filter.Accepted (Filter.Check f w req t l)) eqn:Hacc; cbn [negb].
    + intros H. destruct (IH H) as (pre & g & post & -> & Hg & Hc & Hpre).
      exists (f :: pre), g, post. repeat split; auto.
    + intros _. exists [], f, rest. repeat split; auto.
  - intros H. destruct (IH H) as (pre & g & post & -> & Hg & Hc & Hpre).
    exists (f :: pre), g, post. repeat split; auto.
    constructor; [congruence | exact Hpre].
Qed.

Definition user_queued (session : Listener.Session) (now : Z) (t : Track.Track)
    : Track.QueuedTrack :=
  {| Track.track := t;
     Track.requester :=
       {| Track.RequesterID := Listener.ID session;
          Track.RequesterName := Listener.DisplayName session;
          Track.ExternalUserID := Listener.ExternalUserID session;
          Track.Type_ := Track.RequesterTypeUser |};
     Track.AddedAt := now |}.

Definition filter_world (now : Z) (m : Session.Manager) : Session.FilterWorld :=
  {| Session.fwState := Session.stateMgr m; Session.fwPlayback := Session.playback m;
     Session.fwNow := now |}.

Definition track_request (listenerID trackID : string) : Filter.TrackRequest :=
  {| Filter.ListenerID := listenerID; Filter.TrackID := trackID |}.

Lemma RequestTrack_accepted (sp : Session.Spotify) (now : Z) (listenerID trackID : string)
    (m : Session.Manager) (session : Listener.Session) (t : Track.Track) :
  Registry.listeners (Session.listenerReg m) !! listenerID = Some session ->
  Session.GetTrack sp trackID (Session.Market (Session.config m)) = Some t ->
  Filter.Accepted
    (Filter.Execute (Session.filterChain m) (filter_world now m)
       (track_request listenerID trackID) t session Track.RequesterTypeUser) = true ->
  snd (Session.RequestTrack sp now listenerID trackID m) = (true, ""%string, None)
  /\ Session.playback (fst (Session.RequestTrack sp now listenerID trackID m))
     = Playback.Enqueue now (user_queued session now t) (Session.playback m)
  /\ Registry.listeners (Session.listenerReg (fst (Session.RequestTrack sp now listenerID trackID m)))
     = <[listenerID := Listener.IncrementPendingTracks now session]>
         (Registry.listeners (Session.listenerReg m)).
Proof.
  intros Hl Ht Hacc. unfold Session.RequestTrack, Registry.Get. rewrite Hl, Ht.
  unfold filter_world, track_request in Hacc. rewrite Hacc. cbn [negb].
  cbv zeta.
  set (m1 := Session.set_playback _ m).
  destruct (addRecentArtistsLocked_frame (Track.Artists t) m1) as (Hp & _ & _ & Hr & _).
  unfold Session.addRecentArtists.
  set (m2 := Session.addRecentArtistsLocked (Track.Artists t) m1) in *.
  assert (Hreg : Registry.listeners (Session.listenerReg m2) !! listenerID = Some session).
  { rewrite Hr. exact Hl. }
  unfold Registry.IncrementPending. rewrite Hreg. cbn [fst].
  set (m3 := Session.set_listenerReg _ m2).
  assert (H3 : Session.playback m3 = Playback.Enqueue now (user_queued session now t) (Session.playback m)
               /\ Registry.listeners (Session.listenerReg m3)
                  = <[listenerID := Listener.IncrementPendingTracks now session]>
                      (Registry.listeners (Session.listenerReg m))).
  { subst m3. cbn [Session.playback Session.listenerReg Session.set_listenerReg Registry.listeners].
    rewrite Hp, Hr. subst m1. split; reflexivity. }
  destruct H3 as (H3p & H3r).
  destruct (Playback.GetState (Session.playback m3));
    cbn [fst snd Session.playback Session.listenerReg Session.set_spawned];
    rewrite H3p, H3r; repeat split.
Qed.

(** C7.  [RequestTrack] never returns an error.  An unknown listener gives
    [(false, "invalid_listener", nil)]; a failed track fetch gives
    [(false, "track_not_found", nil)]; a rejection by the USER filter chain
    gives [(false, code, nil)] with the code of the first rejecting filter;
    in these three cases the manager is unchanged.  Otherwise the result is
    [(true, "", nil)], the track is enqueued and the listener's session is
    replaced by its [IncrementPendingTracks]. *)
Theorem RequestTrack_outcomes (sp : Session.Spotify) (now : Z) (listenerID trackID : string)
    (m : Session.Manager) :
  snd (snd (Session.RequestTrack sp now listenerID trackID m)) = None
  /\ (Registry.listeners (Session.listenerReg m) !! listenerID = None ->
      Session.RequestTrack sp now listenerID trackID m
      = (m, (false, "invalid_listener"%string, None)))
  /\ (forall session,
        Registry.listeners (Session.listenerReg m) !! listenerID = Some session ->
        Session.GetTrack sp trackID (Session.Market (Session.config m)) = None ->
        Session.RequestTrack sp now listenerID trackID m
        = (m, (false, "track_not_found"%string, None)))
  /\ (forall session t,
        Registry.listeners (Session.listenerReg m) !! listenerID = Some session ->
        Session.GetTrack sp trackID (Session.Market (Session.config m)) = Some t ->
        Filter.Accepted
          (Filter.Execute (Session.filterChain m) (filter_world now m)
             (track_request listenerID trackID) t session Track.RequesterTypeUser) = false ->
        exists pre f post,
          Session.filterChain m = pre ++ f :: post
          /\ Filter.AppliesTo f Track.RequesterTypeUser = true
          /\ Forall (fun g => Filter.AppliesTo g Track.RequesterTypeUser = true ->
                              Filter.Accepted
                                (Filter.Check g (filter_world now m)
                                   (track_request listenerID trackID) t session) = true) pre
          /\ Filter.Accepted
               (Filter.Check f (filter_world now m) (track_request listenerID trackID) t session)
             = false
          /\ Session.RequestTrack sp now listenerID trackID m
             = (m, (false,
                    Filter.Code
                      (Filter.Check f (filter_world now m) (track_request listenerID trackID)
                         t session),
                    None)))
  /\ (forall session t,
        Registry.listeners (Session.listenerReg m) !! listenerID = Some session ->
        Session.GetTrack sp trackID (Session.Market (Session.config m)) = Some t ->
        Filter.Accepted
          (Filter.Execute (Session.filterChain m) (filter_world now m)
             (track_request listenerID trackID) t session Track.RequesterTypeUser) = true ->
        snd (Session.RequestTrack sp now listenerID trackID m) = (true, ""%string, None)
        /\ Playback.queue (Session.playback (fst (Session.RequestTrack sp now listenerID trackID m)))
           = Playback.queue (Session.playback m) ++ [user_queued session now t]
        /\ Registry.listeners
             (Session.listenerReg (fst (Session.RequestTrack sp now listenerID trackID m)))
           = <[listenerID := Listener.IncrementPendingTracks now session]>
               (Registry.listeners (Session.listenerReg m)))
  /\ (fst (fst (snd (Session.RequestTrack sp now listenerID trackID m))) = false ->
      fst (Session.RequestTrack sp now listenerID trackID m) = m).
Proof.
  assert (Hno : Registry.listeners (Session.listenerReg m) !! listenerID = None ->
                Session.RequestTrack sp now listenerID trackID m
                = (m, (false, "invalid_listener"%string, None))).
  { intros Hl. unfold Session.RequestTrack, Registry.Get. rewrite Hl. reflexivity. }
  assert (Hnt : forall session,
             Registry.listeners (Session.listenerReg m) !! listenerID = Some session ->
             Session.GetTrack sp trackID (Session.Market (Session.config m)) = None ->
             Session.RequestTrack sp now listenerID trackID m
             = (m, (false, "track_not_found"%string, None))).
  { intros session Hl Ht. unfold Session.RequestTrack, Registry.Get. rewrite Hl, Ht. reflexivity. }
  assert (Hrej : forall session t,
             Registry.listeners (Session.listenerReg m) !! listenerID = Some session ->
             Session.GetTrack sp trackID (Session.Market (Session.config m)) = Some t ->
             Filter.Accepted
               (Filter.Execute (Session.filterChain m) (filter_world now m)
                  (track_request listenerID trackID) t session Track.RequesterTypeUser) = false ->
             Session.RequestTrack sp now listenerID trackID m
             = (m, (false,
                    Filter.Code
                      (Filter.Execute (Session.filterChain m) (filter_world now m)
                         (track_request listenerID trackID) t session Track.RequesterTypeUser),
                    None))).
  { intros session t Hl Ht Hacc. unfold Session.RequestTrack, Registry.Get. rewrite Hl, Ht.
    unfold filter_world, track_request in Hacc |- *. rewrite Hacc. reflexivity. }
  split; [| split; [exact Hno | split; [exact Hnt | split; [| split]]]].
  - destruct (Registry.listeners (Session.listenerReg m) !! listenerID) as [session |] eqn:Hl;
      [| rewrite (Hno eq_refl); reflexivity].
    destruct (Session.GetTrack sp trackID (Session.Market (Session.config m))) as [t |] eqn:Ht;
      [| rewrite (Hnt session eq_refl eq_refl); reflexivity].
    destruct (Filter.Accepted
                (Filter.Execute (Session.filterChain m) (filter_world now m)
                   (track_request listenerID trackID) t session Track.RequesterTypeUser))
      eqn:Hacc.
    + rewrite (proj1 (RequestTrack_accepted sp now listenerID trackID m session t Hl Ht Hacc)).
      reflexivity.
    + rewrite (Hrej session t eq_refl eq_refl Hacc). reflexivity.
  - intros session t Hl Ht Hacc.
    destruct (Execute_rejects_first _ _ _ _ _ _ Hacc) as (pre & f & post & Hfs & Happ & Hc & Hpre).
    exists pre, f, post. rewrite Hc. repeat split; auto.
  - intros session t Hl Ht Hacc.
    destruct (RequestTrack_accepted sp now listenerID trackID m session t Hl Ht Hacc)
      as (Hres & Hp & Hr).
    rewrite Hp, Enqueue_queue. auto.
  - destruct (Registry.listeners (Session.listenerReg m) !! listenerID) as [session |] eqn:Hl;
      [| rewrite (Hno eq_refl); reflexivity].
    destruct (Session.GetTrack sp trackID (Session.Market (Session.config m))) as [t |] eqn:Ht;
      [| rewrite (Hnt session eq_refl eq_refl); reflexivity].
    destruct (Filter.Accepted
                (Filter.Execute (Session.filterChain m) (filter_world now m)
                   (track_request listenerID trackID) t session Track.RequesterTypeUser))
      eqn:Hacc.
    + rewrite (proj1 (RequestTrack_accepted sp now listenerID trackID m session t Hl Ht Hacc)).
      discriminate.
    + rewrite (Hrej session t eq_refl eq_refl Hacc). reflexivity.
Qed.

(** ** A concrete session for the evaluations below *)

Definition ending_1 : Track.Track := mk_track "e1" "Goodnight" ["The Beatles"] (2 * Go.Minute).
Definition ending_2 : Track.Track := mk_track "e2" "The End" ["The Doors"] (3 * Go.Minute).
Definition ending_3 : Track.Track := mk_track "e3" "Closing Time" ["Semisonic"] (4 * Go.Minute).

Definition test_catalog : list Track.Track :=
  [yesterday_A; yesterday_B; yesterday_C; ending_1; ending_2; ending_3].

Definition test_spotify : Session.Spotify :=
  {| Session.CreatePlaylist := fun _ => Some "playlist-1"%string;
     Session.GetPlaylistURL := fun id => id;
     Session.GetPlaylistTracks :=
       fun url => if String.eqb url "ending" then Some [ending_1; ending_2; ending_3] else None;
     Session.AddTracksToPlaylist := fun _ _ => true;
     Session.RemoveTracksFromPlaylist := fun _ _ => true;
     Session.GetTrack :=
       fun id _ => find (fun t => String.eqb (Track.ID t) id) test_catalog |}.

Definition test_session_config : Session.Config :=
  {| Session.Title := "19box";
     Session.ParsedStartTime := Some (10 * Go.Second);
     Session.ParsedEndTime := Some (10 * Go.Second + Go.Hour);
     Session.SessionKeywords := [];
     Session.OpeningPlaylistURL := "";
     Session.OpeningDisplayName := "";
     Session.EndingPlaylistURL := "ending";
     Session.EndingDisplayName := "Ending";
     Session.Market := "";
     Session.KickedEnabled := true;
     Session.UserPendingEnabled := true;
     Session.DuplicateTrackEnabled := true;
     Session.DurationLimit := None;
     Session.RecentArtistCount := 3;
     Session.PlaybackConfig := test_config |}.

(** The manager as [main] creates it, with [Start] past its first critical
    section and waiting for the start time. *)
Definition waiting_session : Session.Manager :=
  fst (Session.Start_prepare test_spotify 0 "2026-01-01 00:00"
         (Session.NewManager 0 "session-1" "system-1" test_session_config)).

(** The session once [Start] has completed at the start time, with one
    listener joined. *)
Definition active_session : Session.Manager :=
  let m := fst (Session.Start_activate (10 * Go.Second) waiting_session) in
  Session.set_listenerReg
    (fst (Registry.Join (11 * Go.Second) "listener-1" "Alice" "" false (Session.listenerReg m))) m.

(** ** C4: the session phases *)

Definition phase_of (m : Session.Manager) : State.Phase := State.phase (Session.stateMgr m).
Definition accepting_of (m : Session.Manager) : State.AcceptingState :=
  State.accepting (Session.stateMgr m).

Lemma broadcastState_stateMgr (m : Session.Manager) :
  Session.stateMgr (fst (Session.broadcastState m)) = Session.stateMgr m.
Proof.
  unfold Session.broadcastState.
  destruct (Notification.Broadcast _ _) as [nm sends]. reflexivity.
Qed.

Lemma closeDone_stateMgr (m : Session.Manager) :
  Session.stateMgr (Session.closeDone m) = Session.stateMgr m.
Proof. unfold Session.closeDone. destruct (Session.done m); reflexivity. Qed.

(** [Start]'s second critical section makes the session active and accepting
    whatever the phase was: it does not look at the phase. *)
Lemma Start_activate_phase (now : Z) (m : Session.Manager) :
  phase_of (fst (Session.Start_activate now m)) = State.PhaseActive
  /\ accepting_of (fst (Session.Start_activate now m)) = State.Accepting.
Proof.
  unfold Session.Start_activate, phase_of, accepting_of.
  match goal with
  | |- context [Session.broadcastState ?x] =>
      pose proof (broadcastState_stateMgr x) as Hb;
      destruct (Session.broadcastState x) as [m' sends]
  end.
  cbn [fst Session.stateMgr Session.set_spawned] in *. rewrite Hb.
  destruct (Session.ParsedStartTime (Session.config m)); split; reflexivity.
Qed.

Lemma Stop_waiting_terminates (sp : Session.Spotify) (now : Z) (m : Session.Manager) :
  phase_of m = State.PhaseWaiting ->
  phase_of (Session.Stop sp now m) = State.PhaseTerminated.
Proof.
  unfold phase_of, Session.Stop, State.GetPhase. intros ->.
  rewrite closeDone_stateMgr. reflexivity.
Qed.

(** C4 fails on the code.  [Start] has set its times and created the session
    playlist and waits, lock released, for the start time; an admin [Stop]
    arrives and terminates the waiting session; at the start time [Start]
    takes the lock again and, without looking at the phase, makes the session
    active and accepting: the phase goes from terminated back to active. *)
Theorem Start_reactivates_a_stopped_session :
  phase_of waiting_session = State.PhaseWaiting
  /\ phase_of (Session.Stop test_spotify (5 * Go.Second) waiting_session) = State.PhaseTerminated
  /\ Session.done (Session.Stop test_spotify (5 * Go.Second) waiting_session) = true
  /\ phase_of
       (fst (Session.Start_activate (10 * Go.Second)
               (Session.Stop test_spotify (5 * Go.Second) waiting_session)))
     = State.PhaseActive
  /\ accepting_of
       (fst (Session.Start_activate (10 * Go.Second)
               (Session.Stop test_spotify (5 * Go.Second) waiting_session)))
     = State.Accepting
  /\ State.Phase_rank
       (phase_of
          (fst (Session.Start_activate (10 * Go.Second)
                  (Session.Stop test_spotify (5 * Go.Second) waiting_session))))
     < State.Phase_rank
         (phase_of (Session.Stop test_spotify (5 * Go.Second) waiting_session)).
Proof. vm_compute. repeat split; reflexivity. Qed.

(** The operations of the session manager that touch the phase, each one
    critical section of the source. *)
Inductive SessionOp :=
| OpStartPrepare (sp : Session.Spotify) (createAt : string)
| OpStartActivate
| OpStop (sp : Session.Spotify)
| OpStopImmediate
| OpDeadline (sp : Session.Spotify)
| OpQueueEmpty.

Definition session_step (now : Z) (op : SessionOp) (m : Session.Manager) : Session.Manager :=
  match op with
  | OpStartPrepare sp createAt => fst (Session.Start_prepare sp now createAt m)
  | OpStartActivate => fst (Session.Start_activate now m)
  | OpStop sp => Session.Stop sp now m
  | OpStopImmediate => fst (Session.StopImmediate now m)
  | OpDeadline sp => Session.transitionToEnding sp now m
  | OpQueueEmpty => fst (Session.onQueueEmpty now m)
  end.

Fixpoint session_run (ops : list (Z * SessionOp)) (m : Session.Manager) : Session.Manager :=
  match ops with
  | [] => m
  | (now, op) :: rest => session_run rest (session_step now op m)
  end.

(** A run in which [Start] reaches its second critical section only while
    the session is still waiting. *)
Fixpoint activates_only_when_waiting (ops : list (Z * SessionOp)) (m : Session.Manager) : Prop :=
  match ops with
  | [] => True
  | (now, op) :: rest =>
      (op = OpStartActivate -> phase_of m = State.PhaseWaiting)
      /\ activates_only_when_waiting rest (session_step now op m)
  end.

Definition accepting_implies_active (m : Session.Manager) : Prop :=
  accepting_of m = State.Accepting -> phase_of m = State.PhaseActive.

Definition lifecycle (m : Session.Manager) : State.Phase * State.AcceptingState :=
  (phase_of m, accepting_of m).

Lemma lifecycle_SetTimes a b (m : Session.Manager) :
  lifecycle (Session.set_stateMgr (State.SetTimes a b (Session.stateMgr m)) m) = lifecycle m.
Proof. reflexivity. Qed.

Lemma lifecycle_SetKeywords kw (m : Session.Manager) :
  lifecycle (Session.set_stateMgr (State.SetKeywords kw (Session.stateMgr m)) m) = lifecycle m.
Proof. reflexivity. Qed.

Lemma lifecycle_SetPlaylistInfo a b c (m : Session.Manager) :
  lifecycle (Session.set_stateMgr (State.SetPlaylistInfo a b c (Session.stateMgr m)) m)
  = lifecycle m.
Proof. reflexivity. Qed.

Lemma lifecycle_SetEndingDuration d (m : Session.Manager) :
  lifecycle (Session.set_stateMgr (State.SetEndingDuration d (Session.stateMgr m)) m)
  = lifecycle m.
Proof. reflexivity. Qed.

Lemma lifecycle_enqueuePlaylistTracks now tracks name rt (m : Session.Manager) :
  lifecycle (Session.enqueuePlaylistTracks now tracks name rt m) = lifecycle m.
Proof.
  unfold lifecycle, phase_of, accepting_of.
  rewrite (proj2 (proj2 (enqueuePlaylistTracks_playback now tracks name rt m))). reflexivity.
Qed.

Lemma Start_prepare_lifecycle (sp : Session.Spotify) (now : Z) (createAt : string)
    (m : Session.Manager) :
  lifecycle (fst (Session.Start_prepare sp now createAt m)) = lifecycle m.
Proof.
  unfold Session.Start_prepare. cbv zeta.
  destruct (Session.CreatePlaylist sp _) as [playlistID |]; cbn [fst].
  - destruct (String.eqb (Session.OpeningPlaylistURL _) "").
    + destruct (String.eqb (Session.endingPlaylistURL _) ""); cbn [fst].
      * rewrite lifecycle_SetPlaylistInfo, lifecycle_SetKeywords, lifecycle_SetTimes.
        reflexivity.
      * destruct (Session.GetPlaylistTracks sp _); cbn [fst];
          rewrite ?lifecycle_SetEndingDuration, lifecycle_SetPlaylistInfo,
            lifecycle_SetKeywords, lifecycle_SetTimes; reflexivity.
    + destruct (Session.GetPlaylistTracks sp (Session.OpeningPlaylistURL _)) as [tracks |];
        cbn [fst].
      * destruct (Session.AddTracksToPlaylist sp playlistID _); cbn [fst].
        -- destruct (String.eqb (Session.endingPlaylistURL _) ""); cbn [fst].
           ++ rewrite lifecycle_enqueuePlaylistTracks, lifecycle_SetPlaylistInfo,
                lifecycle_SetKeywords, lifecycle_SetTimes. reflexivity.
           ++ destruct (Session.GetPlaylistTracks sp (Session.endingPlaylistURL _)); cbn [fst];
                rewrite ?lifecycle_SetEndingDuration, lifecycle_enqueuePlaylistTracks,
                  lifecycle_SetPlaylistInfo, lifecycle_SetKeywords, lifecycle_SetTimes;
                reflexivity.
        -- rewrite lifecycle_enqueuePlaylistTracks, lifecycle_SetPlaylistInfo,
             lifecycle_SetKeywords, lifecycle_SetTimes. reflexivity.
      * rewrite lifecycle_SetPlaylistInfo, lifecycle_SetKeywords, lifecycle_SetTimes.
        reflexivity.
  - rewrite lifecycle_SetKeywords, lifecycle_SetTimes. reflexivity.
Qed.

Lemma Start_prepare_stateMgr (sp : Session.Spotify) (now : Z) (createAt : string)
    (m : Session.Manager) :
  phase_of (fst (Session.Start_prepare sp now createAt m)) = phase_of m
  /\ accepting_of (fst (Session.Start_prepare sp now createAt m)) = accepting_of m.
Proof.
  pose proof (Start_prepare_lifecycle sp now createAt m) as H.
  unfold lifecycle in H. injection H as H1 H2. split; assumption.
Qed.

Lemma terminateNow_stateMgr (now : Z) (m : Session.Manager) :
  phase_of (fst (Session.terminateNow now m)) = State.PhaseTerminated
  /\ accepting_of (fst (Session.terminateNow now m)) = State.NotAccepting.
Proof.
  unfold Session.terminateNow, phase_of, accepting_of.
  match goal with
  | |- context [Session.broadcastState ?x] =>
      pose proof (broadcastState_stateMgr x) as Hb;
      destruct (Session.broadcastState x) as [m' sends]
  end.
  cbn [fst] in *. rewrite closeDone_stateMgr.
  cbn [Session.stateMgr Session.set_cancelled]. rewrite Hb. split; reflexivity.
Qed.

Lemma transitionToEnding_stateMgr (sp : Session.Spotify) (now : Z) (m : Session.Manager) :
  (phase_of m = State.PhaseActive ->
   phase_of (Session.transitionToEnding sp now m) = State.PhaseEnding
   /\ accepting_of (Session.transitionToEnding sp now m) = State.NotAccepting)
  /\ (phase_of m <> State.PhaseActive -> Session.transitionToEnding sp now m = m).
Proof.
  unfold Session.transitionToEnding, phase_of, accepting_of, State.GetPhase.
  split.
  - intros ->. change (State.Phase_eqb State.PhaseActive State.PhaseActive) with true.
    cbn [negb Session.endingPlaylistURL Session.set_stateMgr].
    destruct (String.eqb _ _); [split; reflexivity |].
    destruct (Session.GetPlaylistTracks sp _) as [[| t tracks] |]; try (split; reflexivity).
    cbn [Playback.ClearQueue].
    rewrite (proj2 (proj2 (enqueuePlaylistTracks_playback _ _ _ _ _))). split; reflexivity.
  - intros Hne. destruct (State.phase (Session.stateMgr m)); try reflexivity. contradiction.
Qed.

(** The phase and accepting state after an operation, from those before:
    the state machine the session manager implements. *)
Definition lifecycle_step (op : SessionOp) (pa : State.Phase * State.AcceptingState)
    : State.Phase * State.AcceptingState :=
  let '(p, a) := pa in
  match op, p with
  | OpStartPrepare _ _, _ => (p, a)
  | OpStartActivate, _ => (State.PhaseActive, State.Accepting)
  | OpStop _, State.PhaseWaiting => (State.PhaseTerminated, a)
  | OpStop _, State.PhaseActive => (State.PhaseEnding, State.NotAccepting)
  | OpStop _, _ => (p, a)
  | OpStopImmediate, State.PhaseWaiting => (State.PhaseTerminated, a)
  | OpStopImmediate, State.PhaseActive => (State.PhaseTerminated, State.NotAccepting)
  | OpStopImmediate, _ => (p, a)
  | OpDeadline _, State.PhaseActive => (State.PhaseEnding, State.NotAccepting)
  | OpDeadline _, _ => (p, a)
  | OpQueueEmpty, State.PhaseEnding => (State.PhaseTerminated, State.NotAccepting)
  | OpQueueEmpty, _ => (p, a)
  end.

Lemma lifecycle_eq (m : Session.Manager) p a :
  phase_of m = p -> accepting_of m = a -> lifecycle m = (p, a).
Proof. unfold lifecycle. congruence. Qed.

Lemma transitionToEnding_lifecycle (sp : Session.Spotify) (now : Z) (m : Session.Manager) :
  lifecycle (Session.transitionToEnding sp now m)
  = match phase_of m with
    | State.PhaseActive => (State.PhaseEnding, State.NotAccepting)
    | _ => lifecycle m
    end.
Proof.
  destruct (transitionToEnding_stateMgr sp now m) as (Hact & Hother).
  destruct (phase_of m) eqn:Hp; try (rewrite Hother by congruence; reflexivity).
  destruct (Hact eq_refl). apply lifecycle_eq; assumption.
Qed.

Lemma stop_waiting_lifecycle (m : Session.Manager) :
  lifecycle
    (Session.closeDone
       (Session.set_cancelled true
          (Session.set_stateMgr (State.SetPhase State.PhaseTerminated (Session.stateMgr m)) m)))
  = (State.PhaseTerminated, accepting_of m).
Proof.
  unfold lifecycle, phase_of, accepting_of. rewrite closeDone_stateMgr. reflexivity.
Qed.

Lemma session_step_lifecycle (now : Z) (op : SessionOp) (m : Session.Manager) :
  lifecycle (session_step now op m) = lifecycle_step op (lifecycle m).
Proof.
  destruct op as [sp createAt | | sp | | sp |]; cbn [session_step].
  - rewrite Start_prepare_lifecycle. unfold lifecycle, lifecycle_step. reflexivity.
  - destruct (Start_activate_phase now m). unfold lifecycle_step, lifecycle at 2.
    apply lifecycle_eq; assumption.
  - unfold Session.Stop, State.GetPhase, lifecycle_step, lifecycle at 2. fold (phase_of m).
    destruct (phase_of m) eqn:Hp.
    + apply stop_waiting_lifecycle.
    + rewrite transitionToEnding_lifecycle, Hp. reflexivity.
    + apply lifecycle_eq; [exact Hp | reflexivity].
    + apply lifecycle_eq; [exact Hp | reflexivity].
  - unfold Session.StopImmediate, State.GetPhase, lifecycle_step, lifecycle at 2.
    fold (phase_of m).
    destruct (phase_of m) eqn:Hp; cbn [fst].
    + apply stop_waiting_lifecycle.
    + destruct (terminateNow_stateMgr now m). apply lifecycle_eq; assumption.
    + apply lifecycle_eq; [exact Hp | reflexivity].
    + apply lifecycle_eq; [exact Hp | reflexivity].
  - rewrite transitionToEnding_lifecycle. unfold lifecycle_step, lifecycle.
    destruct (phase_of m); reflexivity.
  - unfold Session.onQueueEmpty, Session.terminateSession, State.GetPhase, lifecycle_step,
      lifecycle at 2. fold (phase_of m).
    destruct (phase_of m) eqn:Hp; cbn [fst];
      try (apply lifecycle_eq; [exact Hp | reflexivity]).
    destruct (terminateNow_stateMgr now m). apply lifecycle_eq; assumption.
Qed.

(** One operation: the phase does not go back, a terminated session keeps
    its phase and accepting state, and "accepting implies active" is kept. *)
Lemma session_step_keeps_order (now : Z) (op : SessionOp) (m : Session.Manager) :
  (op = OpStartActivate -> phase_of m = State.PhaseWaiting) ->
  State.Phase_rank (phase_of m) <= State.Phase_rank (phase_of (session_step now op m))
  /\ (phase_of m = State.PhaseTerminated ->
      phase_of (session_step now op m) = State.PhaseTerminated
      /\ accepting_of (session_step now op m) = accepting_of m)
  /\ (accepting_implies_active m -> accepting_implies_active (session_step now op m)).
Proof.
  intros Hguard. unfold accepting_implies_active.
  pose proof (session_step_lifecycle now op m) as H.
  generalize dependent (session_step now op m). intros m' H. unfold lifecycle in H.
  destruct (phase_of m) eqn:Hp; destruct (accepting_of m) eqn:Ha;
    destruct op; cbn [lifecycle_step] in H; injection H as -> ->;
    cbn [State.Phase_rank];
    try (specialize (Hguard eq_refl); discriminate);
    (split; [lia | split; [intros; try discriminate; auto | intros Hi Hacc;
       try discriminate; try reflexivity; try (specialize (Hi eq_refl); discriminate)]]).
Qed.

(** Runs in which [Start] activates only a waiting session: the phase never
    goes back along waiting < active < ending < terminated, a terminated
    session changes neither phase nor accepting state, and accepting implies
    active throughout. *)
Theorem guarded_runs_keep_phase_order (ops : list (Z * SessionOp)) (m : Session.Manager) :
  activates_only_when_waiting ops m ->
  accepting_implies_active m ->
  State.Phase_rank (phase_of m) <= State.Phase_rank (phase_of (session_run ops m))
  /\ (phase_of m = State.PhaseTerminated ->
      phase_of (session_run ops m) = State.PhaseTerminated
      /\ accepting_of (session_run ops m) = accepting_of m)
  /\ accepting_implies_active (session_run ops m).
Proof.
  revert m. induction ops as [| [now op] rest IH]; intros m Hg Hinv; cbn [session_run].
  - repeat split; auto; lia.
  - destruct Hg as (Hguard & Hrest).
    destruct (session_step_keeps_order now op m Hguard) as (Hle & Hterm & Hkeep).
    destruct (IH _ Hrest (Hkeep Hinv)) as (Hle' & Hterm' & Hinv').
    split; [lia | split; [| exact Hinv']].
    intros Ht. destruct (Hterm Ht) as (Hp & Ha).
    destruct (Hterm' Hp) as (Hp' & Ha'). split; congruence.
Qed.

Lemma guarded_runs_keep_phase_order_witness :
  activates_only_when_waiting
    [(0, OpStartPrepare test_spotify "2026-01-01 00:00"); (10 * Go.Second, OpStartActivate);
     (20 * Go.Second, OpStop test_spotify); (30 * Go.Second, OpQueueEmpty);
     (40 * Go.Second, OpStopImmediate)]
    (Session.NewManager 0 "session-1" "system-1" test_session_config)
  /\ phase_of
       (session_run
          [(0, OpStartPrepare test_spotify "2026-01-01 00:00"); (10 * Go.Second, OpStartActivate);
           (20 * Go.Second, OpStop test_spotify); (30 * Go.Second, OpQueueEmpty);
           (40 * Go.Second, OpStopImmediate)]
          (Session.NewManager 0 "session-1" "system-1" test_session_config))
     = State.PhaseTerminated
  /\ accepting_implies_active
       (session_run
          [(0, OpStartPrepare test_spotify "2026-01-01 00:00"); (10 * Go.Second, OpStartActivate);
           (20 * Go.Second, OpStop test_spotify); (30 * Go.Second, OpQueueEmpty);
           (40 * Go.Second, OpStopImmediate)]
          (Session.NewManager 0 "session-1" "system-1" test_session_config)).
Proof.
  assert (Hg : activates_only_when_waiting
                 [(0, OpStartPrepare test_spotify "2026-01-01 00:00");
                  (10 * Go.Second, OpStartActivate);
                  (20 * Go.Second, OpStop test_spotify); (30 * Go.Second, OpQueueEmpty);
                  (40 * Go.Second, OpStopImmediate)]
                 (Session.NewManager 0 "session-1" "system-1" test_session_config)).
  { cbn [activates_only_when_waiting].
    repeat (split; [first [discriminate | intros _; vm_compute; reflexivity] |]).
    exact I. }
  split; [exact Hg |].
  split; [vm_compute; reflexivity |].
  apply (guarded_runs_keep_phase_order _ _ Hg). intros H. vm_compute in H. discriminate H.
Defined.

(** ** C3: sequence numbers *)

(** The two places that take a sequence number: [NextSequenceNo] and the
    first critical section of [Broadcast]. *)
Inductive Allocation :=
| ByNextSequenceNo
| ByBroadcast (n : Notification.Notification).

Definition allocate (a : Allocation) (m : Notification.Manager) : Notification.Manager * Z :=
  match a with
  | ByNextSequenceNo => Notification.NextSequenceNo m
  | ByBroadcast n =>
      let '(m', n') := Notification.Broadcast_stamp n m in (m', Notification.SequenceNo n')
  end.

(** The numbers handed out by a series of allocations, in allocation order. *)
Fixpoint allocated (allocs : list Allocation) (m : Notification.Manager) : list Z :=
  match allocs with
  | [] => []
  | a :: rest => snd (allocate a m) :: allocated rest (fst (allocate a m))
  end.

Lemma allocate_next (a : Allocation) (m : Notification.Manager) :
  0 <= Notification.sequenceNo m < 2 ^ 64 - 1 ->
  snd (allocate a m) = Notification.sequenceNo m + 1
  /\ Notification.sequenceNo (fst (allocate a m)) = Notification.sequenceNo m + 1
  /\ Notification.subscriptions (fst (allocate a m)) = Notification.subscriptions m.
Proof.
  intros H.
  assert (Hw : Go.wrapu64 (Notification.sequenceNo m + 1) = Notification.sequenceNo m + 1).
  { unfold Go.wrapu64. apply Z.mod_small. lia. }
  destruct a; cbn; rewrite Hw; repeat split.
Qed.

Lemma allocated_counts_up (allocs : list Allocation) (m : Notification.Manager) :
  0 <= Notification.sequenceNo m ->
  Notification.sequenceNo m + Z.of_nat (length allocs) < 2 ^ 64 ->
  allocated allocs m
  = map (fun i => Notification.sequenceNo m + 1 + Z.of_nat i) (seq 0 (length allocs)).
Proof.
  revert m. induction allocs as [| a rest IH]; intros m H0 Hlen; [reflexivity |].
  cbn [allocated length seq map]. cbn [length] in Hlen.
  destruct (allocate_next a m ltac:(lia)) as (Hs & Hm & _).
  rewrite Hs, IH, Hm by (rewrite ?Hm; lia).
  f_equal; [lia |]. rewrite <- seq_shift, map_map. apply map_ext. intros i. lia.
Qed.

(** C3.  Every sequence number comes from the one counter of the
    notification manager, whether [NextSequenceNo] or [Broadcast] takes it.
    From a new manager, as long as fewer than 2^64 numbers have been taken,
    the k-th allocation gets the number k: the numbers are strictly
    increasing in allocation order and no two are equal. *)
Theorem sequence_numbers_strictly_increase (allocs : list Allocation) :
  Z.of_nat (length allocs) < 2 ^ 64 ->
  allocated allocs Notification.NewManager
  = map (fun i => Z.of_nat i + 1) (seq 0 (length allocs))
  /\ (forall i j x y,
        (i < j)%nat ->
        allocated allocs Notification.NewManager !! i = Some x ->
        allocated allocs Notification.NewManager !! j = Some y ->
        x < y)
  /\ NoDup (allocated allocs Notification.NewManager).
Proof.
  intros Hlen.
  assert (Heq : allocated allocs Notification.NewManager
                = map (fun i => Z.of_nat i + 1) (seq 0 (length allocs))).
  { rewrite allocated_counts_up by (cbn; lia). apply map_ext. intros i. cbn. lia. }
  assert (Hlook : forall i x, allocated allocs Notification.NewManager !! i = Some x ->
                              x = Z.of_nat i + 1).
  { intros i x. rewrite Heq, list_lookup_fmap.
    destruct (seq 0 (length allocs) !! i) as [k |] eqn:Hk; [| discriminate].
    apply lookup_seq in Hk. destruct Hk as (-> & _). cbn. intros [= <-]. reflexivity. }
  split; [exact Heq | split].
  - intros i j x y Hij Hx Hy. apply Hlook in Hx, Hy. lia.
  - apply NoDup_alt. intros i j x Hx Hy. apply Hlook in Hx, Hy. lia.
Qed.

Lemma sequence_numbers_strictly_increase_witness :
  Z.of_nat
    (length
       [ByBroadcast (Notification.mkNotification 0 Notification.CHANGE_STATE None None);
        ByNextSequenceNo;
        ByBroadcast (Notification.mkNotification 0 Notification.CHANGE_TRACK None None)])
  < 2 ^ 64
  /\ allocated
       [ByBroadcast (Notification.mkNotification 0 Notification.CHANGE_STATE None None);
        ByNextSequenceNo;
        ByBroadcast (Notification.mkNotification 0 Notification.CHANGE_TRACK None None)]
       Notification.NewManager
     = [1; 2; 3].
Proof.
  assert (Hlen : Z.of_nat
                   (length
                      [ByBroadcast (Notification.mkNotification 0 Notification.CHANGE_STATE None None);
                       ByNextSequenceNo;
                       ByBroadcast (Notification.mkNotification 0 Notification.CHANGE_TRACK None None)])
                 < 2 ^ 64) by reflexivity.
  split; [exact Hlen |].
  exact (proj1 (sequence_numbers_strictly_increase _ Hlen)).
Defined.

(** ** Evaluations on the concrete session *)

(** C7 at the concrete session: an unknown listener, and an accepted request
    of listener-1 for "Yesterday". *)
Lemma RequestTrack_outcomes_witness :
  Registry.listeners (Session.listenerReg active_session) !! "nobody"%string = None
  /\ Session.RequestTrack test_spotify (12 * Go.Second) "nobody" "A" active_session
     = (active_session, (false, "invalid_listener"%string, None))
  /\ snd (Session.RequestTrack test_spotify (12 * Go.Second) "listener-1" "A" active_session)
     = (true, ""%string, None)
  /\ Playback.queue
       (Session.playback
          (fst (Session.RequestTrack test_spotify (12 * Go.Second) "listener-1" "A" active_session)))
     = [user_queued (Listener.NewSession (11 * Go.Second) "listener-1" "Alice" "" false)
          (12 * Go.Second) yesterday_A].
Proof.
  assert (Hn : Registry.listeners (Session.listenerReg active_session) !! "nobody"%string = None)
    by (vm_compute; reflexivity).
  destruct (RequestTrack_outcomes test_spotify (12 * Go.Second) "nobody" "A" active_session)
    as (_ & Hno & _).
  destruct (RequestTrack_outcomes test_spotify (12 * Go.Second) "listener-1" "A" active_session)
    as (_ & _ & _ & _ & Hacc & _).
  destruct (Hacc (Listener.NewSession (11 * Go.Second) "listener-1" "Alice" "" false) yesterday_A
              ltac:(vm_compute; reflexivity) ltac:(vm_compute; reflexivity)
              ltac:(vm_compute; reflexivity)) as (Hres & Hq & _).
  split; [exact Hn | split; [exact (Hno Hn) | split; [exact Hres |]]].
  rewrite Hq. vm_compute. reflexivity.
Defined.

(** The session with "Yesterday" playing and the cover queued. *)
Definition playing_session : Session.Manager :=
  Session.set_playback
    (fst (Playback.Play (12 * Go.Second)
            (Playback.EnqueueMultiple (12 * Go.Second)
               [queued_by "listener-1" yesterday_A; queued_by "listener-2" yesterday_C]
               (Session.playback active_session))))
    active_session.

(** C10 at the concrete session: the ending transition replaces the queue by
    the ending playlist and leaves "Yesterday" playing. *)
Lemma ClearQueue_empties_only_the_queue_witness :
  Playback.queue (Session.playback playing_session) = [queued_by "listener-2" yesterday_C]
  /\ State.phase (Session.stateMgr playing_session) = State.PhaseActive
  /\ Playback.currentTrack
       (Session.playback
          (Session.transitionToEnding test_spotify (20 * Go.Second) playing_session))
     = Some (queued_by "listener-1" yesterday_A)
  /\ Playback.queue
       (Session.playback
          (Session.transitionToEnding test_spotify (20 * Go.Second) playing_session))
     = map (as_queued playing_session (20 * Go.Second) "Ending" Track.RequesterTypeEnding)
         [ending_1; ending_2; ending_3].
Proof.
  destruct (ClearQueue_empties_only_the_queue (Session.playback playing_session))
    as (_ & _ & _ & _ & _ & _ & _ & _ & Hkeep & Hswap).
  split; [vm_compute; reflexivity | split; [vm_compute; reflexivity | split]].
  - rewrite (same_currentTrack _ _ (Hkeep test_spotify (20 * Go.Second) playing_session eq_refl)).
    vm_compute. reflexivity.
  - apply (Hswap test_spotify (20 * Go.Second) playing_session [ending_1; ending_2; ending_3]
             eq_refl); [vm_compute; reflexivity | discriminate | vm_compute; reflexivity
                        | discriminate].
Defined.

(** ** C2: a notification older than the initial state *)

Definition track_changed : Notification.Notification :=
  {| Notification.SequenceNo := 0; Notification.Type_ := Notification.CHANGE_TRACK;
     Notification.SessionInfo_ := None; Notification.TrackInfo_ := None |}.

Definition initial_sys : Connect.Sys :=
  {| Connect.world := {| Connect.session := active_session; Connect.heap := [] |};
     Connect.broadcaster := Connect.BEnter track_changed;
     Connect.subscriber := Connect.SEnter "subscription-1" |}.

(** [Broadcast] takes its sequence number, then the handler subscribes, then
    [Broadcast] copies the subscriptions and sends, and the handler sends the
    initial state and flushes. *)
Definition racy_schedule : list Connect.Tid :=
  [ Connect.TBroadcast;                      (* sequence number k taken *)
    Connect.TSubscribe;                      (* subscribed, sequence number k+1 *)
    Connect.TBroadcast;                      (* subscriptions copied *)
    Connect.TBroadcast;                      (* sent to the adapter: buffered *)
    Connect.TBroadcast;
    Connect.TSubscribe;                      (* status read *)
    Connect.TSubscribe;                      (* INITIAL_STATE sent *)
    Connect.TSubscribe;                      (* Flush: ready, buffer taken *)
    Connect.TSubscribe;                      (* buffered notification sent *)
    Connect.TSubscribe ].

Definition delivered (s : Connect.Sys) : list (Notification.NotificationType * Z) :=
  match Connect.heap (Connect.world s) !! 0%nat with
  | Some a => map (fun n => (Notification.Type_ n, Notification.SequenceNo n)) (Connect.stream a)
  | None => []
  end.

Definition sequence_counter (s : Connect.Sys) : Z :=
  Notification.sequenceNo (Connect.notif (Connect.world s)).

(** C2 fails on the code.  With the counter at k (one broadcast was made at
    the start of the session), the schedule delivers [INITIAL_STATE] with
    sequence number k+2 first and then the [CHANGE_TRACK] notification with
    the smaller number k+1. *)
Theorem subscriber_gets_older_sequence_no :
  sequence_counter initial_sys = 1
  /\ delivered (Connect.run racy_schedule initial_sys)
     = [(Notification.INITIAL_STATE, 3); (Notification.CHANGE_TRACK, 2)]
  /\ Connect.broadcaster (Connect.run racy_schedule initial_sys) = Connect.BReturned
  /\ Connect.subscriber (Connect.run racy_schedule initial_sys)
     = Connect.SWaiting "subscription-1" 0%nat.
Proof. vm_compute. repeat split; reflexivity. Qed.

(** The earlier handler under the same race: the sequence number is taken by
    [NextSequenceNo] after the broadcast took its own, the initial state is
    sent and the stream subscribed before the broadcast copies the
    subscriptions. *)
Definition initial_sys_direct : ConnectDirect.Sys :=
  {| ConnectDirect.world := {| Connect.session := active_session; Connect.heap := [] |};
     ConnectDirect.broadcaster := Connect.BEnter track_changed;
     ConnectDirect.subscriber := ConnectDirect.SEnter "subscription-1" |}.

Definition racy_schedule_direct : list Connect.Tid :=
  [ Connect.TBroadcast; Connect.TSubscribe; Connect.TSubscribe; Connect.TSubscribe;
    Connect.TSubscribe; Connect.TBroadcast; Connect.TBroadcast; Connect.TBroadcast ].

Lemma direct_subscriber_gets_older_sequence_no :
  match Connect.heap (ConnectDirect.world (ConnectDirect.run racy_schedule_direct initial_sys_direct))
        !! 0%nat with
  | Some a => map (fun n => (Notification.Type_ n, Notification.SequenceNo n)) (Connect.stream a)
  | None => []
  end
  = [(Notification.INITIAL_STATE, 3); (Notification.CHANGE_TRACK, 2)].
Proof. vm_compute. reflexivity. Qed.

(** * Further properties of the embedded code *)

(** ** The listener registry (src/unnamed/part_011) *)

(** Every session is filed under its own id. *)
Definition keyed (r : Registry.ListenerRegistry) : Prop :=
  forall k s, Registry.listeners r !! k = Some s -> Listener.ID s = k.

(** The operations of the registry that change it. *)
Inductive RegistryOp :=
| RJoin (now : Z) (id displayName externalUserID : string) (isVIP : bool)
| RKick (listenerID : string)
| RIncrementPending (now : Z) (listenerID : string)
| RDecrementPending (listenerID : string).

Definition registry_step (op : RegistryOp) (r : Registry.ListenerRegistry)
    : Registry.ListenerRegistry :=
  match op with
  | RJoin now id displayName externalUserID isVIP =>
      fst (Registry.Join now id displayName externalUserID isVIP r)
  | RKick listenerID => fst (Registry.Kick listenerID r)
  | RIncrementPending now listenerID => fst (Registry.IncrementPending now listenerID r)
  | RDecrementPending listenerID => Registry.DecrementPending listenerID r
  end.

Definition registry_run (ops : list RegistryOp) (r : Registry.ListenerRegistry)
    : Registry.ListenerRegistry :=
  fold_left (fun r op => registry_step op r) ops r.

(** The session [Join] finds for an external id, if any. *)
Definition rejoined (externalUserID : string) (r : Registry.ListenerRegistry)
    : option (string * Listener.Session) :=
  if String.eqb externalUserID "" then None
  else find (fun kv => String.eqb (Listener.ExternalUserID (snd kv)) externalUserID
                       && negb (Listener.IsKicked (snd kv)))
            (map_to_list (Registry.listeners r)).

Lemma Join_cases (now : Z) (id displayName externalUserID : string) (isVIP : bool)
    (r : Registry.ListenerRegistry) :
  Registry.Join now id displayName externalUserID isVIP r
  = match rejoined externalUserID r with
    | Some kv => (r, Listener.ID (snd kv))
    | None =>
        ({| Registry.listeners :=
              <[id := Listener.NewSession now id displayName externalUserID isVIP]>
                (Registry.listeners r) |}, id)
    end.
Proof. reflexivity. Qed.

Lemma rejoined_Some (externalUserID : string) (r : Registry.ListenerRegistry) k s :
  rejoined externalUserID r = Some (k, s) ->
  Registry.listeners r !! k = Some s
  /\ Listener.ExternalUserID s = externalUserID
  /\ Listener.IsKicked s = false
  /\ externalUserID <> ""%string.
Proof.
  unfold rejoined. destruct (String.eqb externalUserID "") eqn:He; [discriminate |].
  intros Hf. apply find_some in Hf. destruct Hf as (Hin & Hp).
  apply list_elem_of_In, elem_of_map_to_list in Hin.
  apply andb_true_iff in Hp. destruct Hp as (Hext & Hk). cbn [snd] in Hext, Hk.
  apply String.eqb_eq in Hext. apply negb_true_iff in Hk. apply String.eqb_neq in He.
  auto.
Qed.

Lemma rejoined_None (externalUserID : string) (r : Registry.ListenerRegistry) k s :
  rejoined externalUserID r = None ->
  Registry.listeners r !! k = Some s ->
  externalUserID = ""%string
  \/ Listener.ExternalUserID s <> externalUserID
  \/ Listener.IsKicked s = true.
Proof.
  unfold rejoined. destruct (String.eqb externalUserID "") eqn:He.
  - apply String.eqb_eq in He. auto.
  - intros Hf Hl. right.
    apply elem_of_map_to_list, list_elem_of_In in Hl.
    pose proof (find_none _ _ Hf _ Hl) as Hp. cbn [snd] in Hp.
    apply andb_false_iff in Hp. destruct Hp as [Hp | Hp].
    + left. apply String.eqb_neq. exact Hp.
    + right. apply negb_false_iff. exact Hp.
Qed.

Lemma keyed_insert (r : Registry.ListenerRegistry) (k : string) (s : Listener.Session) :
  keyed r -> Listener.ID s = k ->
  keyed {| Registry.listeners := <[k := s]> (Registry.listeners r) |}.
Proof.
  intros Hr Hs k' s'. cbn [Registry.listeners].
  destruct (decide (k = k')) as [<- | Hne].
  - rewrite lookup_insert_eq. intros [= <-]. exact Hs.
  - rewrite lookup_insert_ne by exact Hne. apply Hr.
Qed.

Lemma registry_step_keyed (op : RegistryOp) (r : Registry.ListenerRegistry) :
  keyed r -> keyed (registry_step op r).
Proof.
  intros Hr. destruct op as [now id dn ext vip | k | now k | k]; cbn [registry_step].
  - rewrite Join_cases. destruct (rejoined ext r); cbn [fst]; [exact Hr |].
    apply keyed_insert; [exact Hr | reflexivity].
  - unfold Registry.Kick. destruct (Registry.listeners r !! k) as [s |] eqn:Hk; cbn [fst];
      [| exact Hr].
    apply keyed_insert; [exact Hr | exact (Hr k s Hk)].
  - unfold Registry.IncrementPending.
    destruct (Registry.listeners r !! k) as [s |] eqn:Hk; cbn [fst]; [| exact Hr].
    apply keyed_insert; [exact Hr | exact (Hr k s Hk)].
  - unfold Registry.DecrementPending.
    destruct (Registry.listeners r !! k) as [s |] eqn:Hk; [| exact Hr].
    apply keyed_insert; [exact Hr |].
    unfold Listener.DecrementPendingTracks. destruct (0 <? _); exact (Hr k s Hk).
Qed.

Lemma registry_run_keyed (ops : list RegistryOp) (r : Registry.ListenerRegistry) :
  keyed r -> keyed (registry_run ops r).
Proof.
  revert r. induction ops as [| op rest IH]; intros r Hr; [exact Hr |].
  change (registry_run (op :: rest) r) with (registry_run rest (registry_step op r)).
  apply IH, registry_step_keyed, Hr.
Qed.

(** X2.  Whatever joins, kicks, increments and decrements were made since
    the registry was created, every session is filed under its own id: the
    key of the map and the [ID] field of the session agree. *)
Theorem registry_files_sessions_under_their_id (ops : list RegistryOp) (k : string)
    (s : Listener.Session) :
  Registry.listeners (registry_run ops Registry.NewListenerRegistry) !! k = Some s <->
  Registry.Get k (registry_run ops Registry.NewListenerRegistry) = inl s
  /\ Listener.ID s = k.
Proof.
  assert (Hk : keyed (registry_run ops Registry.NewListenerRegistry)).
  { apply registry_run_keyed. intros k' s'. cbn. rewrite lookup_empty. discriminate. }
  unfold Registry.Get. split.
  - intros Hl. rewrite Hl. split; [reflexivity | exact (Hk k s Hl)].
  - intros (Hg & _). destruct (_ !! k); [injection Hg as -> |]; [reflexivity | discriminate].
Qed.

(** X3.  [Join] answers with the id of a registered session that passes
    [Validate]; when an external id was given, the session carries it.  This
    holds on both paths, the new session and the session found again by its
    external id. *)
Theorem Join_returns_a_valid_listener (ops : list RegistryOp) (now : Z)
    (id displayName externalUserID : string) (isVIP : bool) :
  let r := registry_run ops Registry.NewListenerRegistry in
  let r' := fst (Registry.Join now id displayName externalUserID isVIP r) in
  let id' := snd (Registry.Join now id displayName externalUserID isVIP r) in
  Registry.Validate id' r' = None
  /\ exists s, Registry.Get id' r' = inl s
               /\ Listener.ID s = id'
               /\ Listener.IsKicked s = false
               /\ (externalUserID <> ""%string -> Listener.ExternalUserID s = externalUserID).
Proof.
  intros r r' id'.
  assert (Hk : keyed r).
  { apply registry_run_keyed. intros k' s'. cbn. rewrite lookup_empty. discriminate. }
  subst r' id'. rewrite Join_cases.
  destruct (rejoined externalUserID r) as [[k s] |] eqn:Hre; cbn [fst snd].
  - apply rejoined_Some in Hre. destruct Hre as (Hl & Hext & Hkick & _).
    pose proof (Hk k s Hl) as Hid. rewrite Hid.
    unfold Registry.Validate, Registry.Get. rewrite Hl, Hkick.
    split; [reflexivity |]. exists s. auto.
  - unfold Registry.Validate, Registry.Get. cbn [Registry.listeners].
    rewrite lookup_insert_eq. cbn. split; [reflexivity |]. eexists. repeat split.
Qed.

(** X4.  A kick is permanent: once a listener is kicked, [Validate] answers
    [ErrListenerKicked] for that id after any further operations, as long as
    no later [Join] draws the same id again for a new session. *)
Theorem kicked_listener_stays_kicked (ops : list RegistryOp) (r : Registry.ListenerRegistry)
    (k : string) (s : Listener.Session) :
  Registry.listeners r !! k = Some s ->
  Listener.IsKicked s = true ->
  Forall (fun op => match op with RJoin _ id _ _ _ => id <> k | _ => True end) ops ->
  Registry.Validate k (registry_run ops r) = Some Registry.ErrListenerKicked.
Proof.
  intros Hl Hkick Hops.
  assert (H : exists s', Registry.listeners (registry_run ops r) !! k = Some s'
                         /\ Listener.IsKicked s' = true).
  { revert r s Hl Hkick. induction Hops as [| op rest Hop _ IH]; intros r s Hl Hkick.
    - exists s. auto.
    - change (registry_run (op :: rest) r) with (registry_run rest (registry_step op r)).
      assert (Hstep : exists s', Registry.listeners (registry_step op r) !! k = Some s'
                                 /\ Listener.IsKicked s' = true).
      { destruct op as [now id dn ext vip | k' | now k' | k']; cbn [registry_step].
        - rewrite Join_cases. destruct (rejoined ext r); cbn [fst Registry.listeners].
          + exists s. auto.
          + rewrite lookup_insert_ne by exact Hop. exists s. auto.
        - unfold Registry.Kick.
          destruct (Registry.listeners r !! k') as [s1 |] eqn:Hk';
            cbn [fst Registry.listeners]; [| exists s; auto].
          destruct (decide (k' = k)) as [-> | Hne].
          + rewrite lookup_insert_eq. eexists. split; reflexivity.
          + rewrite lookup_insert_ne by exact Hne. exists s. auto.
        - unfold Registry.IncrementPending.
          destruct (Registry.listeners r !! k') as [s1 |] eqn:Hk';
            cbn [fst Registry.listeners]; [| exists s; auto].
          destruct (decide (k' = k)) as [-> | Hne].
          + rewrite lookup_insert_eq. eexists. split; [reflexivity |].
            rewrite Hl in Hk'. injection Hk' as <-. exact Hkick.
          + rewrite lookup_insert_ne by exact Hne. exists s. auto.
        - unfold Registry.DecrementPending.
          destruct (Registry.listeners r !! k') as [s1 |] eqn:Hk';
            cbn [Registry.listeners]; [| exists s; auto].
          destruct (decide (k' = k)) as [-> | Hne].
          + rewrite lookup_insert_eq. eexists. split; [reflexivity |].
            rewrite Hl in Hk'. injection Hk' as <-.
            unfold Listener.DecrementPendingTracks. destruct (0 <? _); exact Hkick.
          + rewrite lookup_insert_ne by exact Hne. exists s. auto. }
      destruct Hstep as (s' & Hl' & Hkick'). exact (IH _ _ Hl' Hkick'). }
  destruct H as (s' & Hl' & Hkick'). unfold Registry.Validate. rewrite Hl', Hkick'. reflexivity.
Qed.

Definition registry_of_two : Registry.ListenerRegistry :=
  registry_run
    [RJoin 0 "listener-1" "Alice" "ext-1" false; RJoin 1 "listener-2" "Bob" "ext-2" false;
     RKick "listener-1"]
    Registry.NewListenerRegistry.

Lemma kicked_listener_stays_kicked_witness :
  Registry.Validate "listener-1"
    (registry_run
       [RIncrementPending 2 "listener-1"; RJoin 3 "listener-3" "Alice" "ext-1" false;
        RDecrementPending "listener-1"; RKick "listener-2"]
       registry_of_two)
  = Some Registry.ErrListenerKicked.
Proof.
  apply (kicked_listener_stays_kicked _ registry_of_two "listener-1"
           (Listener.Kick (Listener.NewSession 0 "listener-1" "Alice" "ext-1" false))).
  - vm_compute. reflexivity.
  - reflexivity.
  - repeat constructor. discriminate.
Defined.

(** X5.  [Join] never hands out the id of a kicked session: joining again
    under the external id of a kicked listener gives another session. *)
Theorem Join_never_returns_a_kicked_id (ops : list RegistryOp) (now : Z)
    (id displayName externalUserID k : string) (isVIP : bool) (s : Listener.Session) :
  Registry.listeners (registry_run ops Registry.NewListenerRegistry) !! k = Some s ->
  Listener.IsKicked s = true ->
  id <> k ->
  snd (Registry.Join now id displayName externalUserID isVIP
         (registry_run ops Registry.NewListenerRegistry)) <> k.
Proof.
  intros Hl Hkick Hid.
  assert (Hk : keyed (registry_run ops Registry.NewListenerRegistry)).
  { apply registry_run_keyed. intros k' s'. cbn. rewrite lookup_empty. discriminate. }
  rewrite Join_cases.
  destruct (rejoined externalUserID _) as [[k1 s1] |] eqn:Hre; cbn [snd]; [| exact Hid].
  apply rejoined_Some in Hre. destruct Hre as (Hl1 & _ & Hk1 & _).
  rewrite (Hk k1 s1 Hl1). intros ->. rewrite Hl in Hl1. injection Hl1 as <-. congruence.
Qed.

Lemma Join_never_returns_a_kicked_id_witness :
  Listener.IsKicked (Listener.Kick (Listener.NewSession 0 "listener-1" "Alice" "ext-1" false))
  = true
  /\ snd (Registry.Join 5 "listener-3" "Alice" "ext-1" false
            (registry_run
               [RJoin 0 "listener-1" "Alice" "ext-1" false; RKick "listener-1"]
               Registry.NewListenerRegistry))
     <> "listener-1"%string.
Proof.
  split; [reflexivity |].
  apply (Join_never_returns_a_kicked_id _ 5 "listener-3" "Alice" "ext-1" "listener-1" false
           (Listener.Kick (Listener.NewSession 0 "listener-1" "Alice" "ext-1" false))).
  - vm_compute. reflexivity.
  - reflexivity.
  - discriminate.
Defined.

(** X6.  The registry never forgets a listener: no operation removes an
    entry, and the count grows by at most one per operation. *)
Theorem registry_never_forgets (ops : list RegistryOp) (r : Registry.ListenerRegistry) :
  (forall k, is_Some (Registry.listeners r !! k) ->
             is_Some (Registry.listeners (registry_run ops r) !! k))
  /\ (Registry.Count r <= Registry.Count (registry_run ops r) <= Registry.Count r + length ops)%nat.
Proof.
  revert r. induction ops as [| op rest IH]; intros r.
  - cbn. split; [auto | lia].
  - change (registry_run (op :: rest) r) with (registry_run rest (registry_step op r)).
    cbn [length].
    assert (Hstep : (forall k, is_Some (Registry.listeners r !! k) ->
                               is_Some (Registry.listeners (registry_step op r) !! k))
                    /\ (Registry.Count r <= Registry.Count (registry_step op r)
                        <= Registry.Count r + 1)%nat).
    { assert (Hins : forall k s, is_Some (Registry.listeners r !! k) ->
                (forall k', is_Some (Registry.listeners r !! k') ->
                            is_Some (<[k := s]> (Registry.listeners r) !! k'))
                /\ size (<[k := s]> (Registry.listeners r)) = size (Registry.listeners r)).
      { intros k s [s0 Hs0]. split.
        - intros k' Hk'. destruct (decide (k = k')) as [<- | Hne].
          + rewrite lookup_insert_eq. eauto.
          + rewrite lookup_insert_ne by exact Hne. exact Hk'.
        - rewrite <- (insert_delete_id (Registry.listeners r) k s0 Hs0) at 2.
          rewrite <- insert_delete_eq.
          rewrite !map_size_insert_None by apply lookup_delete_eq. reflexivity. }
      unfold Registry.Count.
      destruct op as [now id dn ext vip | k | now k | k]; cbn [registry_step].
      - rewrite Join_cases. destruct (rejoined ext r); cbn [fst Registry.listeners];
          [split; [auto | lia] |].
        split.
        + intros k' Hk'. destruct (decide (id = k')) as [<- | Hne].
          * rewrite lookup_insert_eq. eauto.
          * rewrite lookup_insert_ne by exact Hne. exact Hk'.
        + destruct (Registry.listeners r !! id) as [s0 |] eqn:Hid.
          * rewrite (proj2 (Hins id _ (mk_is_Some _ _ Hid))). lia.
          * rewrite map_size_insert_None by exact Hid. lia.
      - unfold Registry.Kick. destruct (Registry.listeners r !! k) as [s0 |] eqn:Hk;
          cbn [fst Registry.listeners]; [| split; [auto | lia]].
        destruct (Hins k (Listener.Kick s0) (mk_is_Some _ _ Hk)) as (H1 & H2).
        rewrite H2. split; [exact H1 | lia].
      - unfold Registry.IncrementPending.
        destruct (Registry.listeners r !! k) as [s0 |] eqn:Hk;
          cbn [fst Registry.listeners]; [| split; [auto | lia]].
        destruct (Hins k (Listener.IncrementPendingTracks now s0) (mk_is_Some _ _ Hk))
          as (H1 & H2).
        rewrite H2. split; [exact H1 | lia].
      - unfold Registry.DecrementPending.
        destruct (Registry.listeners r !! k) as [s0 |] eqn:Hk;
          cbn [Registry.listeners]; [| split; [auto | lia]].
        destruct (Hins k (Listener.DecrementPendingTracks s0) (mk_is_Some _ _ Hk))
          as (H1 & H2).
        rewrite H2. split; [exact H1 | lia]. }
    destruct Hstep as (Hs1 & Hs2). destruct (IH (registry_step op r)) as (IH1 & IH2).
    split; [intros k Hk; apply IH1, Hs1, Hk | lia].
Qed.

(** ** The listener session and the filters that read it
    (src/unnamed/part_014, src/internal/app/filter/kicked.go, user_pending.go) *)

(** X7.  [Session.CanRequest] and the two filters that guard a request by
    the listener's own state agree: for a pending count that is not negative,
    [CanRequest] holds exactly when both [KickedFilter] and
    [UserPendingFilter] accept.  (At a negative count, which only the
    wrap-around of the increment produces, [CanRequest] refuses and
    [UserPendingFilter] accepts.) *)
Theorem CanRequest_agrees_with_the_filters (l : Listener.Session) :
  (0 <= Listener.PendingTracks l ->
   Listener.CanRequest l
   = Filter.Accepted (Filter.Kicked_Check l) && Filter.Accepted (Filter.UserPending_Check l))
  /\ (Listener.PendingTracks l < 0 -> Listener.IsKicked l = false ->
      Listener.VIPStatus l = false ->
      Listener.CanRequest l = false
      /\ Filter.Accepted (Filter.Kicked_Check l) && Filter.Accepted (Filter.UserPending_Check l)
         = true).
Proof.
  unfold Listener.CanRequest, Filter.Kicked_Check, Filter.UserPending_Check.
  split.
  - intros Hp. destruct (Listener.IsKicked l); [reflexivity |].
    destruct (Listener.VIPStatus l); [reflexivity |].
    destruct (Z.ltb_spec 0 (Listener.PendingTracks l)) as [H | H];
      destruct (Z.eqb_spec (Listener.PendingTracks l) 0) as [H0 | H0];
      cbn; try reflexivity; lia.
  - intros Hp -> ->.
    destruct (Z.ltb_spec 0 (Listener.PendingTracks l)) as [H | H]; [lia |].
    destruct (Z.eqb_spec (Listener.PendingTracks l) 0) as [H0 | H0]; [lia |].
    split; reflexivity.
Qed.

(** ** The notification manager (src/internal/app/notification/manager.go) *)

Lemma Subscribe_then_Unsubscribe (id : string) (stream : Notification.Ref)
    (m : Notification.Manager) :
  Notification.subscriptions m !! id = None ->
  Notification.Unsubscribe id (fst (Notification.Subscribe id stream m)) = m.
Proof.
  intros Hid. destruct m as [subs seq].
  unfold Notification.Unsubscribe, Notification.Subscribe.
  cbn [fst Notification.subscriptions Notification.sequenceNo] in *.
  rewrite delete_insert_id by exact Hid. reflexivity.
Qed.

(** X8.  Subscribing under a fresh id and unsubscribing again is a round
    trip: the manager is as it was, and in between there is exactly one more
    subscriber, who is reached by [Send]. *)
Theorem Subscribe_Unsubscribe_round_trip (id : string) (stream : Notification.Ref)
    (n : Notification.Notification) (m : Notification.Manager) :
  Notification.subscriptions m !! id = None ->
  Notification.Unsubscribe id (fst (Notification.Subscribe id stream m)) = m
  /\ Notification.SubscriberCount (fst (Notification.Subscribe id stream m))
     = S (Notification.SubscriberCount m)
  /\ Notification.Send id n (fst (Notification.Subscribe id stream m)) = Some (stream, n)
  /\ Notification.Send id n m = None.
Proof.
  intros Hid. split; [apply Subscribe_then_Unsubscribe, Hid |].
  unfold Notification.SubscriberCount, Notification.Send. cbn.
  rewrite map_size_insert_None by exact Hid. rewrite lookup_insert_eq, Hid. auto.
Qed.

Definition two_subscribers : Notification.Manager :=
  fst (Notification.Subscribe "subscription-2" 1%nat
         (fst (Notification.Subscribe "subscription-1" 0%nat Notification.NewManager))).

Lemma Subscribe_Unsubscribe_round_trip_witness :
  Notification.Unsubscribe "subscription-3"
    (fst (Notification.Subscribe "subscription-3" 2%nat two_subscribers))
  = two_subscribers.
Proof.
  apply (Subscribe_Unsubscribe_round_trip "subscription-3" 2%nat
           (Notification.mkNotification 0 Notification.CHANGE_STATE None None) two_subscribers).
  vm_compute. reflexivity.
Defined.

Lemma Broadcast_sends (n : Notification.Notification) (m : Notification.Manager) :
  snd (Notification.Broadcast n m)
  = map (fun r => (r, Notification.withSequenceNo (Go.wrapu64 (Notification.sequenceNo m + 1)) n))
      (map snd (map_to_list (Notification.subscriptions m))).
Proof. reflexivity. Qed.

(** X9.  [Broadcast] takes one sequence number and sends the notification,
    stamped with it, once per subscription: as many sends as subscribers,
    every subscriber's stream among the targets, every send to a subscribed
    stream, and all of them carrying the same number.  The subscriptions are
    as before. *)
Theorem Broadcast_reaches_every_subscriber (n : Notification.Notification)
    (m : Notification.Manager) :
  let stamped := Notification.withSequenceNo (Go.wrapu64 (Notification.sequenceNo m + 1)) n in
  length (snd (Notification.Broadcast n m)) = Notification.SubscriberCount m
  /\ (forall id stream, Notification.subscriptions m !! id = Some stream ->
                        In (stream, stamped) (snd (Notification.Broadcast n m)))
  /\ (forall stream x, In (stream, x) (snd (Notification.Broadcast n m)) ->
                       x = stamped
                       /\ exists id, Notification.subscriptions m !! id = Some stream)
  /\ Notification.subscriptions (fst (Notification.Broadcast n m)) = Notification.subscriptions m
  /\ Notification.sequenceNo (fst (Notification.Broadcast n m))
     = Go.wrapu64 (Notification.sequenceNo m + 1).
Proof.
  intros stamped. rewrite Broadcast_sends. fold stamped.
  split; [| split; [| split; [| split; reflexivity]]].
  - rewrite !length_map. unfold Notification.SubscriberCount.
    apply length_map_to_list.
  - intros id stream Hs. apply in_map_iff. exists stream. split; [reflexivity |].
    apply in_map_iff. exists (id, stream). split; [reflexivity |].
    apply list_elem_of_In, elem_of_map_to_list, Hs.
  - intros stream x Hin. apply in_map_iff in Hin. destruct Hin as (r & [= <- <-] & Hr).
    split; [reflexivity |]. apply in_map_iff in Hr. destruct Hr as ([id r'] & Heq & Hin).
    cbn in Heq. subst r'. exists id. apply elem_of_map_to_list, list_elem_of_In, Hin.
Qed.

(** X10.  A stream that was unsubscribed gets nothing from later
    broadcasts, provided no other subscription holds it; after [Close] a
    broadcast sends nothing at all, and still uses up a sequence number. *)
Theorem Broadcast_skips_the_unsubscribed (id : string) (stream : Notification.Ref)
    (n : Notification.Notification) (m : Notification.Manager) :
  (forall id', id' <> id -> Notification.subscriptions m !! id' <> Some stream) ->
  (forall x, ~ In (stream, x) (snd (Notification.Broadcast n (Notification.Unsubscribe id m))))
  /\ Notification.Send id n (Notification.Unsubscribe id m) = None
  /\ snd (Notification.Broadcast n (Notification.Close m)) = []
  /\ Notification.sequenceNo (fst (Notification.Broadcast n (Notification.Close m)))
     = Go.wrapu64 (Notification.sequenceNo m + 1).
Proof.
  intros Honly. split; [| split; [| split]].
  - intros x Hin. rewrite Broadcast_sends in Hin.
    apply in_map_iff in Hin. destruct Hin as (r & [= <- _] & Hr).
    apply in_map_iff in Hr. destruct Hr as ([id' r'] & Heq & Hin). cbn in Heq. subst r'.
    apply list_elem_of_In, elem_of_map_to_list in Hin. cbn in Hin.
    destruct (decide (id' = id)) as [-> | Hne].
    + rewrite lookup_delete_eq in Hin. discriminate.
    + rewrite lookup_delete_ne in Hin by congruence. exact (Honly id' Hne Hin).
  - unfold Notification.Send. cbn. rewrite lookup_delete_eq. reflexivity.
  - rewrite Broadcast_sends. cbn. rewrite map_to_list_empty. reflexivity.
  - reflexivity.
Qed.

Lemma Broadcast_skips_the_unsubscribed_witness :
  Notification.subscriptions two_subscribers !! "subscription-2"%string = Some 1%nat
  /\ (forall x, ~ In (1%nat, x)
                   (snd (Notification.Broadcast
                           (Notification.mkNotification 0 Notification.CHANGE_TRACK None None)
                           (Notification.Unsubscribe "subscription-2" two_subscribers)))).
Proof.
  split; [vm_compute; reflexivity |].
  apply (Broadcast_skips_the_unsubscribed "subscription-2" 1%nat
           (Notification.mkNotification 0 Notification.CHANGE_TRACK None None) two_subscribers).
  intros id' Hne. unfold two_subscribers, Notification.Subscribe, Notification.NewManager.
  cbn [fst Notification.subscriptions].
  rewrite lookup_insert_ne by congruence.
  destruct (decide (id' = "subscription-1"%string)) as [-> | H1].
  - rewrite lookup_insert_eq. discriminate.
  - rewrite lookup_insert_ne by congruence. rewrite lookup_empty. discriminate.
Defined.

(** ** The stream adapter of [SubscribeNotifications] (src/unnamed/part_013) *)

Lemma streamSend_all (ns : list Notification.Notification) (a : Connect.notificationStreamAdapter) :
  fold_left (fun a n => Connect.streamSend n a) ns a
  = {| Connect.stream := Connect.stream a ++ ns; Connect.buffer := Connect.buffer a;
       Connect.ready := Connect.ready a |}.
Proof.
  revert a. induction ns as [| n rest IH]; intros a; cbn [fold_left].
  - rewrite app_nil_r. destruct a; reflexivity.
  - rewrite IH. cbn. rewrite <- app_assoc. reflexivity.
Qed.

Lemma Send_all_buffered (ns : list Notification.Notification) (a : Connect.notificationStreamAdapter) :
  Connect.ready a = false ->
  fold_left (fun a n => Connect.Send n a) ns a
  = {| Connect.stream := Connect.stream a; Connect.buffer := Connect.buffer a ++ ns;
       Connect.ready := false |}.
Proof.
  revert a. induction ns as [| n rest IH]; intros a Hr; cbn [fold_left].
  - rewrite app_nil_r. destruct a; cbn in *; subst; reflexivity.
  - rewrite IH; unfold Connect.Send; rewrite Hr; cbn; [| reflexivity].
    rewrite <- app_assoc. reflexivity.
Qed.

Lemma Send_all_direct (ns : list Notification.Notification) (a : Connect.notificationStreamAdapter) :
  Connect.ready a = true ->
  fold_left (fun a n => Connect.Send n a) ns a
  = {| Connect.stream := Connect.stream a ++ ns; Connect.buffer := Connect.buffer a;
       Connect.ready := true |}.
Proof.
  revert a. induction ns as [| n rest IH]; intros a Hr; cbn [fold_left].
  - rewrite app_nil_r. destruct a; cbn in *; subst; reflexivity.
  - rewrite IH; unfold Connect.Send; rewrite Hr; cbn; [| reflexivity].
    rewrite <- app_assoc. reflexivity.
Qed.

(** X11.  The adapter loses and reorders nothing as long as [Flush] is not
    interleaved with a [Send]: what was sent before the flush is buffered,
    the flush writes the buffer in order, and what is sent afterwards
    follows. *)
Theorem adapter_keeps_the_order (before after : list Notification.Notification)
    (a : Connect.notificationStreamAdapter) :
  Connect.ready a = false ->
  let a1 := fold_left (fun a n => Connect.Send n a) before a in
  let a2 := fold_left (fun a n => Connect.Send n a) after (Connect.Flush a1) in
  Connect.stream a1 = Connect.stream a
  /\ Connect.stream a2 = Connect.stream a ++ Connect.buffer a ++ before ++ after
  /\ Connect.buffer a2 = []
  /\ Connect.ready a2 = true.
Proof.
  intros Hr a1 a2. subst a2 a1.
  rewrite (Send_all_buffered before a Hr). unfold Connect.Flush, Connect.Flush_take.
  rewrite streamSend_all. cbn [Connect.stream Connect.buffer Connect.ready].
  rewrite Send_all_direct by reflexivity. cbn [Connect.stream Connect.buffer Connect.ready].
  rewrite <- !app_assoc. auto.
Qed.

Lemma adapter_keeps_the_order_witness :
  Connect.stream
    (fold_left (fun a n => Connect.Send n a)
       [Notification.mkNotification 3 Notification.CHANGE_STATE None None]
       (Connect.Flush
          (fold_left (fun a n => Connect.Send n a)
             [Notification.mkNotification 1 Notification.CHANGE_TRACK None None;
              Notification.mkNotification 2 Notification.CHANGE_STATE None None]
             (Connect.mkAdapter [] [] false))))
  = [Notification.mkNotification 1 Notification.CHANGE_TRACK None None;
     Notification.mkNotification 2 Notification.CHANGE_STATE None None;
     Notification.mkNotification 3 Notification.CHANGE_STATE None None].
Proof.
  exact (proj1 (proj2 (adapter_keeps_the_order
                         [Notification.mkNotification 1 Notification.CHANGE_TRACK None None;
                          Notification.mkNotification 2 Notification.CHANGE_STATE None None]
                         [Notification.mkNotification 3 Notification.CHANGE_STATE None None]
                         (Connect.mkAdapter [] [] false) eq_refl))).
Defined.

(** X12.  [Flush] sets [ready] and releases the lock before it writes the
    buffer.  A [Send] that arrives in between goes to the stream directly:
    it is written before every buffered notification, although they were
    sent earlier. *)
Theorem Send_during_Flush_overtakes_the_buffer (n : Notification.Notification)
    (a : Connect.notificationStreamAdapter) :
  let '(a', buffered) := Connect.Flush_take a in
  Connect.stream (fold_left (fun a x => Connect.streamSend x a) buffered (Connect.Send n a'))
  = Connect.stream a ++ n :: Connect.buffer a.
Proof.
  cbn [Connect.Flush_take]. rewrite streamSend_all. unfold Connect.Send.
  cbn. rewrite <- app_assoc. reflexivity.
Qed.

(** ** The playback controller (src/unnamed/part_003) *)

(** The operations on a controller: the exported methods, a timer goroutine
    running its callback, and the consumer of [Events()] receiving. *)
Inductive PlaybackOp :=
| PPlay
| PPause
| PResume
| PSkip
| PStop
| PEnqueue (qt : Track.QueuedTrack)
| PEnqueueMultiple (qts : list Track.QueuedTrack)
| PClearQueue
| PFire (k : Playback.TimerKind) (i : nat)
| PRecv.

Definition playback_step (now : Z) (op : PlaybackOp) (c : Playback.Controller)
    : Playback.Controller :=
  match op with
  | PPlay => fst (Playback.Play now c)
  | PPause => fst (Playback.Pause now c)
  | PResume => fst (Playback.Resume now c)
  | PSkip => fst (Playback.Skip now c)
  | PStop => Playback.Stop c
  | PEnqueue qt => Playback.Enqueue now qt c
  | PEnqueueMultiple qts => Playback.EnqueueMultiple now qts c
  | PClearQueue => fst (Playback.ClearQueue c)
  | PFire k i => Playback.fire now k i c
  | PRecv => fst (Playback.recvEvent c)
  end.

(** A run: each operation with the clock reading at which it takes the lock. *)
Definition playback_run (ops : list (Z * PlaybackOp)) (c : Playback.Controller)
    : Playback.Controller :=
  fold_left (fun c op => playback_step (fst op) (snd op) c) ops c.

Lemma playback_run_cons (op : Z * PlaybackOp) (ops : list (Z * PlaybackOp))
    (c : Playback.Controller) :
  playback_run (op :: ops) c = playback_run ops (playback_step (fst op) (snd op) c).
Proof. reflexivity. Qed.

Lemma playback_run_app (ops1 ops2 : list (Z * PlaybackOp)) (c : Playback.Controller) :
  playback_run (ops1 ++ ops2) c = playback_run ops2 (playback_run ops1 c).
Proof. apply fold_left_app. Qed.

(** *** The track lists *)

Lemma tracks_of_untouched (c c' : Playback.Controller) :
  playing_untouched c c' -> Playback.queue c' = Playback.queue c -> tracks_of c' = tracks_of c.
Proof. intros [] Hq. unfold tracks_of. congruence. Qed.

Lemma playNextLocked_all_tracks (now : Z) (b : bool) (c : Playback.Controller) :
  tracks_of (fst (Playback.playNextLocked now b c))
  = match Playback.queue c with
    | [] => tracks_of c
    | qt :: rest => (Playback.played c ++ Playback.currentAsList c, Some qt, rest)
    end.
Proof.
  unfold Playback.playNextLocked, Playback.currentAsList.
  destruct (Playback.queue c) as [| qt rest] eqn:Hq.
  - cbn [fst]. rewrite sendEventLocked_tracks. unfold tracks_of.
    cbn [Playback.played Playback.currentTrack Playback.queue Playback.set_state].
    rewrite Hq. reflexivity.
  - cbn [Playback.currentTrack Playback.set_queue].
    destruct (Playback.currentTrack c) as [cur |] eqn:Hcur;
      unfold Playback.startWallClockTimer; cbv beta iota zeta;
      destruct (0 <? Playback.NotificationDelay _); cbn [fst];
      rewrite ?tracks_of_set_notificationDelayTimerCancel, ?tracks_of_set_notificationTimers,
        ?tracks_of_set_notificationTime, ?sendEventLocked_tracks,
        ?checkDepletionLocked_tracks, ?startTrackTimer_tracks;
      rewrite ?app_nil_r; reflexivity.
Qed.

Lemma GetAllTracks_tracks_of (c : Playback.Controller) :
  Playback.GetAllTracks c
  = fst (fst (tracks_of c))
    ++ match snd (fst (tracks_of c)) with Some x => [x] | None => [] end
    ++ snd (tracks_of c).
Proof. reflexivity. Qed.

Lemma playNextLocked_GetAllTracks (now : Z) (b : bool) (c : Playback.Controller) :
  Playback.GetAllTracks (fst (Playback.playNextLocked now b c)) = Playback.GetAllTracks c.
Proof.
  rewrite GetAllTracks_tracks_of, playNextLocked_all_tracks.
  unfold Playback.GetAllTracks, tracks_of.
  destruct (Playback.queue c) as [| qt rest]; cbn [fst snd].
  - reflexivity.
  - rewrite <- app_assoc. reflexivity.
Qed.

Lemma onTrackEndLocked_GetAllTracks (now : Z) (c : Playback.Controller) :
  Playback.GetAllTracks (Playback.onTrackEndLocked now c) = Playback.GetAllTracks c.
Proof.
  unfold Playback.onTrackEndLocked.
  destruct (Playback.currentTrack c) as [ended |] eqn:Hcur; [| reflexivity].
  rewrite playNextLocked_GetAllTracks, GetAllTracks_tracks_of, sendEventLocked_tracks.
  unfold Playback.GetAllTracks, Playback.currentAsList. rewrite Hcur.
  cbn. rewrite <- app_assoc. reflexivity.
Qed.

Lemma stopTrackTimer_untouched_tracks (c : Playback.Controller) :
  tracks_of (Playback.stopTrackTimer c) = tracks_of c.
Proof. reflexivity. Qed.

Lemma Pause_tracks (now : Z) (c : Playback.Controller) :
  tracks_of (fst (Playback.Pause now c)) = tracks_of c.
Proof.
  unfold Playback.Pause.
  destruct (Playback.currentTrack c); [| reflexivity].
  destruct (negb _); [reflexivity |]. cbn [fst].
  rewrite sendEventLocked_tracks.
  destruct (Go.Before now _); reflexivity.
Qed.

Lemma resumeLocked_GetAllTracks (now : Z) (c : Playback.Controller) :
  Playback.GetAllTracks (fst (Playback.resumeLocked now c)) = Playback.GetAllTracks c.
Proof.
  unfold Playback.resumeLocked.
  destruct (Playback.currentTrack c) as [cur |] eqn:Hcur; [| reflexivity].
  destruct (negb _); [reflexivity |].
  destruct (_ <=? 0); cbn [fst].
  - rewrite onTrackEndLocked_GetAllTracks. destruct (Playback.pausedAt c); reflexivity.
  - rewrite GetAllTracks_tracks_of, sendEventLocked_tracks, checkDepletionLocked_tracks,
      startTrackTimer_tracks.
    unfold Playback.startWallClockTimer. cbv beta iota zeta.
    destruct (negb _ && _); destruct (Playback.pausedAt c); reflexivity.
Qed.

Lemma runCallback_GetAllTracks (now : Z) (cb : Playback.Callback) (c : Playback.Controller) :
  Playback.GetAllTracks (Playback.runCallback now cb c) = Playback.GetAllTracks c.
Proof.
  destruct cb as [| | trackID |]; cbn [Playback.runCallback].
  - apply onTrackEndLocked_GetAllTracks.
  - rewrite GetAllTracks_tracks_of, checkDepletionLocked_tracks. reflexivity.
  - cbn [Playback.currentTrack Playback.set_notificationDelayTimerCancel].
    destruct (Playback.currentTrack c); [| reflexivity].
    destruct (negb _); [reflexivity |].
    rewrite GetAllTracks_tracks_of, sendEventLocked_tracks. reflexivity.
  - cbn [Playback.currentTrack Playback.set_notificationDelayTimerCancel].
    destruct (Playback.currentTrack c); [| reflexivity].
    rewrite GetAllTracks_tracks_of, sendEventLocked_tracks. reflexivity.
Qed.

Lemma fire_GetAllTracks (now : Z) (k : Playback.TimerKind) (i : nat) (c : Playback.Controller) :
  Playback.GetAllTracks (Playback.fire now k i c) = Playback.GetAllTracks c.
Proof.
  unfold Playback.fire.
  destruct (Playback.timersOf k c !! i) as [t |]; [| reflexivity].
  destruct (Playback.due now t); [| reflexivity].
  rewrite runCallback_GetAllTracks. destruct k; reflexivity.
Qed.

(** X13.  What each operation does to the list of all tracks
    ([GetAllTracks]: history, current track, queue).  [Play], [Pause],
    [Resume], a firing timer (a track reaching its end included) and a
    received event leave the list as it is; [Enqueue] and [EnqueueMultiple]
    append to it; [Skip] and [Stop] take the current track out of it without
    recording it in the history; [ClearQueue] takes the queue out of it. *)
Theorem GetAllTracks_after_each_operation (now : Z) (op : PlaybackOp) (c : Playback.Controller) :
  Playback.GetAllTracks (playback_step now op c)
  = match op with
    | PSkip | PStop => Playback.played c ++ Playback.queue c
    | PClearQueue => Playback.played c ++ Playback.currentAsList c
    | PEnqueue qt => Playback.GetAllTracks c ++ [qt]
    | PEnqueueMultiple qts => Playback.GetAllTracks c ++ qts
    | PPlay | PPause | PResume | PFire _ _ | PRecv => Playback.GetAllTracks c
    end.
Proof.
  destruct op as [| | | | | qt | qts | | k i |]; cbn [playback_step].
  - unfold Playback.Play. destruct (Playback.state c).
    + apply playNextLocked_GetAllTracks.
    + reflexivity.
    + apply resumeLocked_GetAllTracks.
  - rewrite GetAllTracks_tracks_of, Pause_tracks. reflexivity.
  - apply resumeLocked_GetAllTracks.
  - unfold Playback.Skip.
    destruct (Playback.currentTrack c) as [cur |] eqn:Hcur.
    + rewrite playNextLocked_GetAllTracks, GetAllTracks_tracks_of, sendEventLocked_tracks.
      reflexivity.
    + cbn [fst]. unfold Playback.GetAllTracks, Playback.currentAsList. rewrite Hcur.
      reflexivity.
  - reflexivity.
  - unfold Playback.Enqueue.
    rewrite GetAllTracks_tracks_of, checkDepletionLocked_tracks.
    unfold Playback.GetAllTracks. cbn. rewrite <- !app_assoc. reflexivity.
  - unfold Playback.EnqueueMultiple.
    rewrite GetAllTracks_tracks_of, checkDepletionLocked_tracks.
    unfold Playback.GetAllTracks. cbn. rewrite <- !app_assoc. reflexivity.
  - unfold Playback.GetAllTracks. cbn. rewrite app_nil_r. reflexivity.
  - apply fire_GetAllTracks.
  - unfold Playback.recvEvent. destruct (Playback.eventCh c); reflexivity.
Qed.

(** *** The three stages of [playNextLocked] on a non-empty queue *)

(** The bookkeeping: the head of the queue becomes the current track, the
    track that was current (if any) goes to the history, the clock starts. *)
Definition advanced (now : Z) (qt : Track.QueuedTrack) (rest : list Track.QueuedTrack)
    (c : Playback.Controller) : Playback.Controller :=
  let c := Playback.set_queue rest c in
  let c :=
    match Playback.currentTrack c with
    | Some cur => Playback.set_played (Playback.played c ++ [cur]) c
    | None => c
    end in
  let c := Playback.set_currentTrack (Some qt) c in
  let c := Playback.set_pausedAt None c in
  let c := Playback.set_pausedElapsed 0 c in
  let c := Playback.set_state Playback.StatePlaying c in
  let gapCorrection := Playback.GapCorrection (Playback.config c) in
  let startBase := if 0 <? gapCorrection then Go.Add now gapCorrection else now in
  let c := Playback.set_scheduledStartTime startBase c in
  Playback.set_startTime (Playback.scheduledStartTime c) c.

(** The announcement: delayed by a timer, or sent at once. *)
Definition announced (notificationDelay gapCorrection now : Z) (qt : Track.QueuedTrack)
    (c : Playback.Controller) : Playback.Controller :=
  if 0 <? notificationDelay then
    let c := Playback.set_notificationTime
               (Go.Add (Playback.scheduledStartTime c) notificationDelay) c in
    let '(ts, h) :=
      Playback.startWallClockTimer now (Go.add64 notificationDelay gapCorrection)
        (Playback.CbTrackStarted (Track.ID (Track.track qt))) (Playback.notificationTimers c) in
    Playback.set_notificationDelayTimerCancel (Some h) (Playback.set_notificationTimers ts c)
  else
    Playback.sendEventLocked
      {| Playback.EvType := Playback.EventTrackStarted;
         Playback.EvTrack := Playback.currentTrack c;
         Playback.EvState := Playback.state c |} c.

Lemma playNextLocked_cons (now : Z) (b : bool) (c : Playback.Controller)
    (qt : Track.QueuedTrack) (rest : list Track.QueuedTrack) :
  Playback.queue c = qt :: rest ->
  Playback.playNextLocked now b c
  = (announced (Playback.NotificationDelay (Playback.config c))
       (Playback.GapCorrection (Playback.config c)) now qt
       (Playback.checkDepletionLocked now
          (Playback.startTrackTimer now
             (Go.add64 (Track.Duration (Track.track qt))
                (Playback.GapCorrection (Playback.config c)))
             (advanced now qt rest c))),
     None).
Proof.
  intros Hq. unfold Playback.playNextLocked. rewrite Hq.
  unfold announced, advanced. cbv zeta.
  change (Playback.config
            (Playback.set_state Playback.StatePlaying
               (Playback.set_pausedElapsed 0
                  (Playback.set_pausedAt None
                     (Playback.set_currentTrack (Some qt)
                        match Playback.currentTrack (Playback.set_queue rest c) with
                        | Some cur =>
                            Playback.set_played
                              (Playback.played (Playback.set_queue rest c) ++ [cur])
                              (Playback.set_queue rest c)
                        | None => Playback.set_queue rest c
                        end)))))
    with (Playback.config
            match Playback.currentTrack (Playback.set_queue rest c) with
            | Some cur =>
                Playback.set_played
                  (Playback.played (Playback.set_queue rest c) ++ [cur])
                  (Playback.set_queue rest c)
            | None => Playback.set_queue rest c
            end).
  assert (Hcfg : Playback.config
            match Playback.currentTrack (Playback.set_queue rest c) with
            | Some cur =>
                Playback.set_played
                  (Playback.played (Playback.set_queue rest c) ++ [cur])
                  (Playback.set_queue rest c)
            | None => Playback.set_queue rest c
            end = Playback.config c).
  { destruct (Playback.currentTrack (Playback.set_queue rest c)); reflexivity. }
  rewrite !Hcfg.
  destruct (0 <? Playback.NotificationDelay (Playback.config c)); reflexivity.
Qed.

Lemma playNextLocked_nil (now : Z) (b : bool) (c : Playback.Controller) :
  Playback.queue c = [] ->
  Playback.playNextLocked now b c
  = (Playback.sendEventLocked
       {| Playback.EvType := Playback.EventQueueEmpty; Playback.EvTrack := None;
          Playback.EvState := Playback.StateIdle |}
       (Playback.set_state Playback.StateIdle c),
     Some Playback.ErrQueueEmpty).
Proof. intros Hq. unfold Playback.playNextLocked. rewrite Hq. reflexivity. Qed.

(** *** Idle exactly when nothing is playing *)

Definition coherent (c : Playback.Controller) : Prop :=
  Playback.state c = Playback.StateIdle <-> Playback.currentTrack c = None.

Lemma sendEventLocked_state (e : Playback.Event) (c : Playback.Controller) :
  Playback.state (Playback.sendEventLocked e c) = Playback.state c.
Proof. apply (same_state _ _ (sendEventLocked_untouched e c)). Qed.

Lemma sendEventLocked_currentTrack (e : Playback.Event) (c : Playback.Controller) :
  Playback.currentTrack (Playback.sendEventLocked e c) = Playback.currentTrack c.
Proof. apply (same_currentTrack _ _ (sendEventLocked_untouched e c)). Qed.

Lemma checkDepletionLocked_state (now : Z) (c : Playback.Controller) :
  Playback.state (Playback.checkDepletionLocked now c) = Playback.state c.
Proof. apply (same_state _ _ (checkDepletionLocked_untouched now c)). Qed.

Lemma checkDepletionLocked_currentTrack (now : Z) (c : Playback.Controller) :
  Playback.currentTrack (Playback.checkDepletionLocked now c) = Playback.currentTrack c.
Proof. apply (same_currentTrack _ _ (checkDepletionLocked_untouched now c)). Qed.

Lemma coherent_untouched (c c' : Playback.Controller) :
  playing_untouched c c' -> coherent c -> coherent c'.
Proof. intros [] H. unfold coherent in *. congruence. Qed.

Lemma advanced_state now qt rest (c : Playback.Controller) :
  Playback.state (advanced now qt rest c) = Playback.StatePlaying.
Proof. reflexivity. Qed.

Lemma advanced_currentTrack now qt rest (c : Playback.Controller) :
  Playback.currentTrack (advanced now qt rest c) = Some qt.
Proof. reflexivity. Qed.

Lemma announced_untouched nd gc now qt (c : Playback.Controller) :
  Playback.state (announced nd gc now qt c) = Playback.state c
  /\ Playback.currentTrack (announced nd gc now qt c) = Playback.currentTrack c
  /\ Playback.played (announced nd gc now qt c) = Playback.played c
  /\ Playback.queue (announced nd gc now qt c) = Playback.queue c
  /\ Playback.startTime (announced nd gc now qt c) = Playback.startTime c
  /\ Playback.pausedAt (announced nd gc now qt c) = Playback.pausedAt c
  /\ Playback.pausedElapsed (announced nd gc now qt c) = Playback.pausedElapsed c
  /\ Playback.timerCancel (announced nd gc now qt c) = Playback.timerCancel c
  /\ Playback.trackTimers (announced nd gc now qt c) = Playback.trackTimers c
  /\ Playback.depletionNotified (announced nd gc now qt c) = Playback.depletionNotified c
  /\ Playback.config (announced nd gc now qt c) = Playback.config c.
Proof.
  unfold announced. destruct (0 <? nd); [repeat split |].
  unfold Playback.sendEventLocked. destruct (_ <? _)%nat; repeat split.
Qed.

Lemma playNextLocked_state (now : Z) (b : bool) (c : Playback.Controller) :
  Playback.state (fst (Playback.playNextLocked now b c))
  = match Playback.queue c with [] => Playback.StateIdle | _ :: _ => Playback.StatePlaying end.
Proof.
  destruct (Playback.queue c) as [| qt rest] eqn:Hq.
  - rewrite (playNextLocked_nil now b c Hq). cbn [fst].
    rewrite sendEventLocked_state. reflexivity.
  - rewrite (playNextLocked_cons now b c qt rest Hq). cbn [fst].
    rewrite (proj1 (announced_untouched _ _ _ _ _)), checkDepletionLocked_state.
    reflexivity.
Qed.

Lemma playNextLocked_currentTrack (now : Z) (b : bool) (c : Playback.Controller) :
  Playback.currentTrack (fst (Playback.playNextLocked now b c))
  = match Playback.queue c with [] => Playback.currentTrack c | qt :: _ => Some qt end.
Proof.
  pose proof (playNextLocked_all_tracks now b c) as H. unfold tracks_of in H.
  destruct (Playback.queue c); injection H as _ H _; exact H.
Qed.

Lemma playNextLocked_coherent (now : Z) (b : bool) (c : Playback.Controller) :
  Playback.currentTrack c = None -> coherent (fst (Playback.playNextLocked now b c)).
Proof.
  intros Hcur. unfold coherent.
  rewrite playNextLocked_state, playNextLocked_currentTrack, Hcur.
  destruct (Playback.queue c); split; intros; first [reflexivity | discriminate].
Qed.

Lemma onTrackEndLocked_coherent (now : Z) (c : Playback.Controller) :
  coherent c -> coherent (Playback.onTrackEndLocked now c).
Proof.
  intros Hc. unfold Playback.onTrackEndLocked.
  destruct (Playback.currentTrack c) as [ended |]; [| exact Hc].
  apply playNextLocked_coherent. rewrite sendEventLocked_currentTrack. reflexivity.
Qed.

Lemma resumeLocked_coherent (now : Z) (c : Playback.Controller) :
  coherent c -> coherent (fst (Playback.resumeLocked now c)).
Proof.
  intros Hc. unfold Playback.resumeLocked.
  destruct (Playback.currentTrack c) as [cur |] eqn:Hcur; [| exact Hc].
  destruct (negb _); [exact Hc |].
  destruct (_ <=? 0); cbn [fst].
  - apply onTrackEndLocked_coherent. unfold coherent.
    destruct (Playback.pausedAt c); cbn; rewrite Hcur; split; discriminate.
  - unfold coherent.
    rewrite sendEventLocked_state, sendEventLocked_currentTrack,
      checkDepletionLocked_state, checkDepletionLocked_currentTrack.
    unfold Playback.startWallClockTimer. cbv beta iota zeta.
    destruct (negb _ && _); destruct (Playback.pausedAt c); cbn; rewrite Hcur;
      split; discriminate.
Qed.

Lemma runCallback_coherent (now : Z) (cb : Playback.Callback) (c : Playback.Controller) :
  coherent c -> coherent (Playback.runCallback now cb c).
Proof.
  intros Hc. destruct cb as [| | trackID |]; cbn [Playback.runCallback].
  - apply onTrackEndLocked_coherent, Hc.
  - eapply coherent_untouched; [apply checkDepletionLocked_untouched |]. exact Hc.
  - cbn [Playback.currentTrack Playback.set_notificationDelayTimerCancel].
    destruct (Playback.currentTrack c) eqn:Hcur; [| exact Hc].
    destruct (negb _); [exact Hc |].
    eapply coherent_untouched; [apply sendEventLocked_untouched |]. exact Hc.
  - cbn [Playback.currentTrack Playback.set_notificationDelayTimerCancel].
    destruct (Playback.currentTrack c) eqn:Hcur; [| exact Hc].
    eapply coherent_untouched; [apply sendEventLocked_untouched |]. exact Hc.
Qed.

Lemma playback_step_coherent (now : Z) (op : PlaybackOp) (c : Playback.Controller) :
  coherent c -> coherent (playback_step now op c).
Proof.
  intros Hc. destruct op as [| | | | | qt | qts | | k i |]; cbn [playback_step].
  - unfold Playback.Play. destruct (Playback.state c) eqn:Hs.
    + apply playNextLocked_coherent. apply Hc. exact Hs.
    + exact Hc.
    + apply resumeLocked_coherent, Hc.
  - unfold Playback.Pause.
    destruct (Playback.currentTrack c) as [cur |] eqn:Hcur; [| exact Hc].
    destruct (negb _); [exact Hc |]. cbn [fst]. unfold coherent.
    rewrite sendEventLocked_state, sendEventLocked_currentTrack.
    destruct (Go.Before now _); cbn; rewrite Hcur; split; discriminate.
  - apply resumeLocked_coherent, Hc.
  - unfold Playback.Skip.
    destruct (Playback.currentTrack c) as [cur |] eqn:Hcur; [| exact Hc].
    apply playNextLocked_coherent. rewrite sendEventLocked_currentTrack. reflexivity.
  - unfold coherent. cbn. split; reflexivity.
  - eapply coherent_untouched; [apply Enqueue_untouched |]. exact Hc.
  - eapply coherent_untouched; [apply EnqueueMultiple_untouched |]. exact Hc.
  - exact Hc.
  - unfold Playback.fire.
    destruct (Playback.timersOf k c !! i) as [t |]; [| exact Hc].
    destruct (Playback.due now t); [| exact Hc].
    apply runCallback_coherent. destruct k; exact Hc.
  - unfold Playback.recvEvent. destruct (Playback.eventCh c); exact Hc.
Qed.

(** X14.  The controller is idle exactly when it has no current track.
    This holds for a new controller and after every run of operations,
    timers firing in any order included.  So a playing or paused controller
    always has a current track, and [Play] on an idle controller puts
    nothing into the history. *)
Theorem idle_exactly_when_nothing_plays (cfg : Playback.Config) (ops : list (Z * PlaybackOp)) :
  let c := playback_run ops (Playback.NewController cfg) in
  (Playback.state c = Playback.StateIdle <-> Playback.currentTrack c = None)
  /\ (forall now, Playback.state c = Playback.StateIdle ->
                  Playback.played (fst (Playback.Play now c)) = Playback.played c).
Proof.
  intros c.
  assert (Hc : coherent c).
  { subst c.
    assert (H0 : coherent (Playback.NewController cfg)) by (split; reflexivity).
    revert H0. generalize (Playback.NewController cfg).
    induction ops as [| op rest IH]; intros c0 H0; [exact H0 |].
    rewrite playback_run_cons. apply IH, playback_step_coherent, H0. }
  split; [exact Hc |].
  intros now Hs. unfold Playback.Play. rewrite Hs.
  pose proof (playNextLocked_all_tracks now false c) as H. unfold tracks_of in H.
  unfold Playback.currentAsList in H. rewrite (proj1 Hc Hs) in H.
  destruct (Playback.queue c); injection H as H _ _; rewrite H, ?app_nil_r; reflexivity.
Qed.

(** *** The track-end timer *)
























(** *** QueueDepleting events *)

Definition is_depleting (e : Playback.Event) : bool :=
  match Playback.EvType e with
  | Playback.EventQueueDepleting => true
  | _ => false
  end.

(** The number of [QueueDepleting] events in a sequence of events. *)
Definition depleting (evs : list Playback.Event) : nat := length (List.filter is_depleting evs).

Lemma depleting_app (l1 l2 : list Playback.Event) :
  depleting (l1 ++ l2) = (depleting l1 + depleting l2)%nat.
Proof. unfold depleting. rewrite List.filter_app, length_app. reflexivity. Qed.

(** A run that also logs what the consumer of [Events()] has received. *)
Definition playback_step_log (now : Z) (op : PlaybackOp)
    (cl : Playback.Controller * list Playback.Event) : Playback.Controller * list Playback.Event :=
  match op with
  | PRecv =>
      let '(c', e) := Playback.recvEvent (fst cl) in
      (c', snd cl ++ match e with Some e => [e] | None => [] end)
  | _ => (playback_step now op (fst cl), snd cl)
  end.

Definition playback_trace (ops : list (Z * PlaybackOp))
    (cl : Playback.Controller * list Playback.Event) : Playback.Controller * list Playback.Event :=
  fold_left (fun cl op => playback_step_log (fst op) (snd op) cl) ops cl.

Definition is_enqueue (op : Z * PlaybackOp) : bool :=
  match snd op with
  | PEnqueue _ | PEnqueueMultiple _ => true
  | _ => false
  end.

(** The events in the channel that announce a depleting queue, and the flag. *)
Definition depletion_view (c : Playback.Controller) : nat * bool :=
  (depleting (Playback.eventCh c), Playback.depletionNotified c).

(** The [QueueDepleting] events in the channel, plus one if another may
    still be sent before the next enqueue. *)
Definition potential (c : Playback.Controller) : nat :=
  (depleting (Playback.eventCh c) + if Playback.depletionNotified c then 0 else 1)%nat.

Lemma potential_view (c c' : Playback.Controller) :
  depletion_view c' = depletion_view c -> potential c' = potential c.
Proof. unfold depletion_view, potential. intros [= -> ->]. reflexivity. Qed.

Lemma sendEventLocked_view (e : Playback.Event) (c : Playback.Controller) :
  is_depleting e = false ->
  depletion_view (Playback.sendEventLocked e c) = depletion_view c.
Proof.
  intros He. unfold Playback.sendEventLocked. destruct (_ <? _)%nat; [| reflexivity].
  unfold depletion_view. cbn [Playback.eventCh Playback.depletionNotified Playback.set_eventCh].
  rewrite depleting_app. unfold depleting at 2. cbn [List.filter]. rewrite He.
  cbn [length]. rewrite Nat.add_0_r. reflexivity.
Qed.

Lemma sendEventLocked_potential (e : Playback.Event) (c : Playback.Controller) :
  is_depleting e = false -> potential (Playback.sendEventLocked e c) = potential c.
Proof. intros He. apply potential_view, sendEventLocked_view, He. Qed.

Lemma checkDepletionLocked_potential (now : Z) (c : Playback.Controller) :
  (potential (Playback.checkDepletionLocked now c) <= potential c)%nat.
Proof.
  unfold Playback.checkDepletionLocked.
  destruct (Playback.depletionNotified c) eqn:Hn; [lia |].
  destruct (_ && _).
  - unfold Playback.sendEventLocked. unfold potential at 2. rewrite Hn.
    destruct (_ <? _)%nat; unfold potential;
      cbn [Playback.eventCh Playback.depletionNotified Playback.set_eventCh
             Playback.set_depletionNotified Playback.stopDepletionTimer
             Playback.set_depletionTimerCancel Playback.set_depletionTimers].
    + rewrite depleting_app. unfold depleting at 2. cbn. lia.
    + lia.
  - destruct (_ && _); unfold potential;
      cbn [Playback.eventCh Playback.depletionNotified Playback.stopDepletionTimer
             Playback.set_depletionTimerCancel Playback.set_depletionTimers
             Playback.startWallClockTimer]; lia.
Qed.

Lemma advanced_view now qt rest (c : Playback.Controller) :
  depletion_view (advanced now qt rest c) = depletion_view c.
Proof. unfold advanced. destruct (Playback.currentTrack _); reflexivity. Qed.

Lemma announced_view nd gc now qt (c : Playback.Controller) :
  depletion_view (announced nd gc now qt c) = depletion_view c.
Proof.
  unfold announced. destruct (0 <? nd); [reflexivity |].
  apply sendEventLocked_view. reflexivity.
Qed.

Lemma startTrackTimer_view (now d : Z) (c : Playback.Controller) :
  depletion_view (Playback.startTrackTimer now d c) = depletion_view c.
Proof. reflexivity. Qed.

Lemma playNextLocked_potential (now : Z) (b : bool) (c : Playback.Controller) :
  (potential (fst (Playback.playNextLocked now b c)) <= potential c)%nat.
Proof.
  destruct (Playback.queue c) as [| qt rest] eqn:Hq.
  - rewrite (playNextLocked_nil now b c Hq). cbn [fst].
    rewrite sendEventLocked_potential by reflexivity. apply Nat.le_refl.
  - rewrite (playNextLocked_cons now b c qt rest Hq). cbn [fst].
    rewrite (potential_view _ _ (announced_view _ _ _ _ _)).
    etransitivity; [apply checkDepletionLocked_potential |].
    rewrite (potential_view _ _ (startTrackTimer_view _ _ _)).
    rewrite (potential_view _ _ (advanced_view _ _ _ _)). apply Nat.le_refl.
Qed.

Lemma onTrackEndLocked_potential (now : Z) (c : Playback.Controller) :
  (potential (Playback.onTrackEndLocked now c) <= potential c)%nat.
Proof.
  unfold Playback.onTrackEndLocked.
  destruct (Playback.currentTrack c) as [ended |]; [| apply Nat.le_refl].
  etransitivity; [apply playNextLocked_potential |].
  rewrite sendEventLocked_potential by reflexivity. apply Nat.le_refl.
Qed.

Lemma resumeLocked_potential (now : Z) (c : Playback.Controller) :
  (potential (fst (Playback.resumeLocked now c)) <= potential c)%nat.
Proof.
  unfold Playback.resumeLocked.
  destruct (Playback.currentTrack c) as [cur |]; [| apply Nat.le_refl].
  destruct (negb _); [apply Nat.le_refl |].
  destruct (_ <=? 0); cbn [fst].
  - etransitivity; [apply onTrackEndLocked_potential |].
    destruct (Playback.pausedAt c); apply Nat.le_refl.
  - rewrite sendEventLocked_potential by reflexivity.
    etransitivity; [apply checkDepletionLocked_potential |].
    rewrite (potential_view _ _ (startTrackTimer_view _ _ _)).
    unfold Playback.startWallClockTimer. cbv beta iota zeta.
    destruct (negb _ && _); destruct (Playback.pausedAt c); apply Nat.le_refl.
Qed.

Lemma runCallback_potential (now : Z) (cb : Playback.Callback) (c : Playback.Controller) :
  (potential (Playback.runCallback now cb c) <= potential c)%nat.
Proof.
  destruct cb as [| | trackID |]; cbn [Playback.runCallback].
  - apply onTrackEndLocked_potential.
  - etransitivity; [apply checkDepletionLocked_potential |]. apply Nat.le_refl.
  - cbn [Playback.currentTrack Playback.set_notificationDelayTimerCancel].
    destruct (Playback.currentTrack c); [| apply Nat.le_refl].
    destruct (negb _); [apply Nat.le_refl |].
    rewrite sendEventLocked_potential by reflexivity. apply Nat.le_refl.
  - cbn [Playback.currentTrack Playback.set_notificationDelayTimerCancel].
    destruct (Playback.currentTrack c); [| apply Nat.le_refl].
    rewrite sendEventLocked_potential by reflexivity. apply Nat.le_refl.
Qed.

Lemma playback_step_potential (now : Z) (op : PlaybackOp) (c : Playback.Controller) :
  (potential (playback_step now op c)
   <= potential c + match op with PEnqueue _ | PEnqueueMultiple _ => 1 | _ => 0 end)%nat.
Proof.
  destruct op as [| | | | | qt | qts | | k i |]; cbn [playback_step]; rewrite ?Nat.add_0_r.
  - unfold Playback.Play. destruct (Playback.state c).
    + apply playNextLocked_potential.
    + apply Nat.le_refl.
    + apply resumeLocked_potential.
  - unfold Playback.Pause.
    destruct (Playback.currentTrack c) as [cur |]; [| apply Nat.le_refl].
    destruct (negb _); [apply Nat.le_refl |]. cbn [fst].
    rewrite sendEventLocked_potential by reflexivity.
    destruct (Go.Before now _); apply Nat.le_refl.
  - apply resumeLocked_potential.
  - unfold Playback.Skip.
    destruct (Playback.currentTrack c) as [cur |]; [| apply Nat.le_refl].
    etransitivity; [apply playNextLocked_potential |].
    rewrite sendEventLocked_potential by reflexivity. apply Nat.le_refl.
  - apply Nat.le_refl.
  - unfold Playback.Enqueue.
    etransitivity; [apply checkDepletionLocked_potential |].
    unfold potential.
    cbn [Playback.eventCh Playback.depletionNotified Playback.set_depletionNotified
           Playback.set_queue].
    destruct (Playback.depletionNotified c); lia.
  - unfold Playback.EnqueueMultiple.
    etransitivity; [apply checkDepletionLocked_potential |].
    unfold potential.
    cbn [Playback.eventCh Playback.depletionNotified Playback.set_depletionNotified
           Playback.set_queue].
    destruct (Playback.depletionNotified c); lia.
  - apply Nat.le_refl.
  - unfold Playback.fire.
    destruct (Playback.timersOf k c !! i) as [t |]; [| apply Nat.le_refl].
    destruct (Playback.due now t); [| apply Nat.le_refl].
    etransitivity; [apply runCallback_potential |]. destruct k; apply Nat.le_refl.
  - unfold Playback.recvEvent, potential.
    destruct (Playback.eventCh c) as [| e rest] eqn:He; cbn [fst].
    + rewrite He. apply Nat.le_refl.
    + cbn [Playback.eventCh Playback.depletionNotified Playback.set_eventCh].
      change (e :: rest) with ([e] ++ rest). rewrite depleting_app. lia.
Qed.

(** The events sent so far and still to be expected: received, in the
    channel, and one more if the flag is not set. *)
Definition emitted (cl : Playback.Controller * list Playback.Event) : nat :=
  (depleting (snd cl) + potential (fst cl))%nat.

Lemma playback_step_log_emitted (now : Z) (op : PlaybackOp)
    (cl : Playback.Controller * list Playback.Event) :
  (emitted (playback_step_log now op cl)
   <= emitted cl + match op with PEnqueue _ | PEnqueueMultiple _ => 1 | _ => 0 end)%nat.
Proof.
  destruct cl as [c log]. unfold emitted.
  destruct op as [| | | | | qt | qts | | k i |];
    try (cbn [playback_step_log fst snd];
         match goal with
         | |- context [playback_step now ?op c] =>
             pose proof (playback_step_potential now op c) as H; cbn beta iota in H; lia
         end).
  cbn [playback_step_log fst snd]. unfold Playback.recvEvent, potential.
  destruct (Playback.eventCh c) as [| e rest] eqn:He; cbn [fst snd].
  - rewrite app_nil_r, He. lia.
  - cbn [Playback.eventCh Playback.depletionNotified Playback.set_eventCh].
    rewrite depleting_app. change (e :: rest) with ([e] ++ rest). rewrite depleting_app. lia.
Qed.

Lemma playback_trace_emitted (ops : list (Z * PlaybackOp))
    (cl : Playback.Controller * list Playback.Event) :
  (emitted (playback_trace ops cl) <= emitted cl + length (List.filter is_enqueue ops))%nat.
Proof.
  revert cl. induction ops as [| [now op] rest IH]; intros cl; [cbn; lia |].
  change (playback_trace ((now, op) :: rest) cl)
    with (playback_trace rest (playback_step_log now op cl)).
  pose proof (IH (playback_step_log now op cl)) as H1.
  pose proof (playback_step_log_emitted now op cl) as H2.
  cbn [List.filter]. unfold is_enqueue at 1. cbn [snd].
  destruct op; cbn [length] in *; lia.
Qed.

(** X16.  [QueueDepleting] is announced at most once between two enqueues.
    Over any run of operations (timers firing and the consumer receiving
    included), the number of [QueueDepleting] events that were received or
    are waiting in the channel grows by at most one per [Enqueue] or
    [EnqueueMultiple] of the run, plus one if the flag was not set at the
    start: once the event was sent, only an enqueue makes another one
    possible. *)
Theorem QueueDepleting_at_most_once_per_enqueue (ops : list (Z * PlaybackOp))
    (c : Playback.Controller) (received : list Playback.Event) :
  (depleting (snd (playback_trace ops (c, received))
              ++ Playback.eventCh (fst (playback_trace ops (c, received))))
   <= depleting (received ++ Playback.eventCh c)
      + (if Playback.depletionNotified c then 0 else 1)
      + length (List.filter is_enqueue ops))%nat.
Proof.
  pose proof (playback_trace_emitted ops (c, received)) as H.
  unfold emitted, potential in H. cbn [fst snd] in H.
  rewrite !depleting_app. lia.
Qed.

(** *** The virtual clock: pausing and resuming *)

(** Durations and distances between instants far from the ends of [int64]
    (2^60 nanoseconds are more than 36 years). *)
Definition moderate (z : Z) : Prop := - 2 ^ 60 <= z <= 2 ^ 60.

Lemma Sub_moderate (t u : Z) : moderate (t - u) -> Go.Sub t u = t - u.
Proof.
  unfold moderate, Go.Sub, Go.max_int64, Go.min_int64. intros H.
  destruct (Z.ltb_spec (2 ^ 63 - 1) (t - u)); [lia |].
  destruct (Z.ltb_spec (t - u) (- 2 ^ 63)); [lia | reflexivity].
Qed.

(** The fields [getRemainingDurationLocked] reads. *)
Definition clock_view (c : Playback.Controller)
    : option Track.QueuedTrack * Playback.State * Z * option Z * Z :=
  (Playback.currentTrack c, Playback.state c, Playback.startTime c, Playback.pausedAt c,
   Playback.pausedElapsed c).

Lemma clock_view_untouched (c c' : Playback.Controller) :
  playing_untouched c c' -> clock_view c' = clock_view c.
Proof. intros []. unfold clock_view. congruence. Qed.


(** The remaining time of a track whose clock has run for [run]. *)
Definition left_of (cur : Track.QueuedTrack) (run : Z) : Z :=
  if Track.Duration (Track.track cur) - run <? 0 then 0
  else Track.Duration (Track.track cur) - run.

Lemma remaining_playing (t : Z) (c : Playback.Controller) (cur : Track.QueuedTrack)
    (s e : Z) (pa : option Z) :
  clock_view c = (Some cur, Playback.StatePlaying, s, pa, e) ->
  s <= t -> moderate (t - s) -> moderate e -> moderate (Track.Duration (Track.track cur)) ->
  Playback.getRemainingDurationLocked t c = left_of cur (t - s - e).
Proof.
  unfold clock_view, Playback.getRemainingDurationLocked, left_of, moderate.
  intros [= H1 H2 H3 H4 H5] Hst Hts He Hd. rewrite H1, H2, H3, H5. cbv beta iota.
  unfold Go.Before. destruct (Z.ltb_spec t s); [lia |].
  rewrite Sub_moderate by exact Hts.
  rewrite (sub64_small (t - s) e) by (unfold Go.min_int64, Go.max_int64; lia).
  rewrite sub64_small by (unfold Go.min_int64, Go.max_int64; lia).
  reflexivity.
Qed.

Lemma remaining_paused (t : Z) (c : Playback.Controller) (cur : Track.QueuedTrack)
    (s p e : Z) :
  clock_view c = (Some cur, Playback.StatePaused, s, Some p, e) ->
  s <= p -> p <= t -> moderate (t - s) -> moderate e ->
  moderate (Track.Duration (Track.track cur)) ->
  Playback.getRemainingDurationLocked t c = left_of cur (p - s - e).
Proof.
  unfold clock_view, Playback.getRemainingDurationLocked, left_of, moderate.
  intros [= H1 H2 H3 H4 H5] Hsp Hpt Hts He Hd. rewrite H1, H2, H3, H4, H5. cbv beta iota.
  unfold Go.Before. destruct (Z.ltb_spec t s); [lia |].
  rewrite Sub_moderate by exact Hts.
  rewrite (Sub_moderate t p) by (unfold moderate; lia).
  rewrite (sub64_small (t - s) e) by (unfold Go.min_int64, Go.max_int64; lia).
  rewrite (sub64_small (t - s - e)) by (unfold Go.min_int64, Go.max_int64; lia).
  rewrite sub64_small by (unfold Go.min_int64, Go.max_int64; lia).
  replace (t - s - e - (t - p)) with (p - s - e) by lia. reflexivity.
Qed.

(** [Pause] on a playing track, past its scheduled start. *)
Lemma Pause_clock (now : Z) (c : Playback.Controller) (cur : Track.QueuedTrack) :
  Playback.currentTrack c = Some cur ->
  Playback.state c = Playback.StatePlaying ->
  Playback.startTime c <= now ->
  snd (Playback.Pause now c) = None
  /\ clock_view (fst (Playback.Pause now c))
     = (Some cur, Playback.StatePaused, Playback.startTime c, Some now, Playback.pausedElapsed c)
  /\ Playback.timerCancel (fst (Playback.Pause now c)) = None
  /\ Playback.trackTimers (fst (Playback.Pause now c))
     = Playback.cancelAt (Playback.timerCancel c) (Playback.trackTimers c).
Proof.
  intros Hcur Hst Hs. unfold Playback.Pause. rewrite Hcur, Hst. cbn [Playback.State_eqb negb].
  cbn [fst snd]. split; [reflexivity |].
  rewrite (clock_view_untouched _ _ (sendEventLocked_untouched _ _)).
  rewrite (same_timerCancel _ _ (sendEventLocked_untouched _ _)).
  rewrite (same_trackTimers _ _ (sendEventLocked_untouched _ _)).
  unfold Go.Before.
  cbn [Playback.startTime Playback.stopNotificationTimer Playback.stopDepletionTimer
         Playback.stopTrackTimer Playback.set_notificationDelayTimerCancel
         Playback.set_notificationTimers Playback.set_depletionTimerCancel
         Playback.set_depletionTimers Playback.set_timerCancel Playback.set_trackTimers].
  destruct (Z.ltb_spec now (Playback.startTime c)); [lia |].
  unfold clock_view. cbn. rewrite Hcur. auto.
Qed.

(** X17.  While the controller is paused the remaining time stands still:
    [GetRemainingDuration] answers at every later instant what it answered
    when [Pause] was called (for a pause past the scheduled start of the
    track, and durations far from the ends of [int64]). *)
Theorem remaining_time_stands_still_while_paused (now t : Z) (c : Playback.Controller)
    (cur : Track.QueuedTrack) :
  Playback.currentTrack c = Some cur ->
  Playback.state c = Playback.StatePlaying ->
  Playback.startTime c <= now -> now <= t ->
  moderate (t - Playback.startTime c) ->
  moderate (Playback.pausedElapsed c) ->
  moderate (Track.Duration (Track.track cur)) ->
  snd (Playback.Pause now c) = None
  /\ Playback.GetState (fst (Playback.Pause now c)) = Playback.StatePaused
  /\ Playback.GetRemainingDuration t (fst (Playback.Pause now c))
     = Playback.GetRemainingDuration now c.
Proof.
  intros Hcur Hst Hs Ht Hts He Hd.
  destruct (Pause_clock now c cur Hcur Hst Hs) as (Hok & Hclock & _).
  split; [exact Hok |]. split.
  - unfold Playback.GetState. unfold clock_view in Hclock. congruence.
  - unfold Playback.GetRemainingDuration.
    rewrite (remaining_paused t _ cur _ now _ Hclock) by (unfold moderate in *; lia || assumption).
    rewrite (remaining_playing now c cur (Playback.startTime c) (Playback.pausedElapsed c)
               (Playback.pausedAt c));
      [reflexivity | | | | |]; try assumption.
    + unfold clock_view. rewrite Hcur, Hst. reflexivity.
    + unfold moderate in *. lia.
Qed.

Definition playing_yesterday : Playback.Controller :=
  fst (Playback.Play 0
         (Playback.Enqueue 0 (queued_by "listener-1" yesterday_A)
            (Playback.NewController test_config))).

Lemma remaining_time_stands_still_while_paused_witness :
  Playback.currentTrack playing_yesterday = Some (queued_by "listener-1" yesterday_A)
  /\ Playback.GetRemainingDuration (100 * Go.Second)
       (fst (Playback.Pause (60 * Go.Second) playing_yesterday))
     = Playback.GetRemainingDuration (60 * Go.Second) playing_yesterday.
Proof.
  split; [vm_compute; reflexivity |].
  apply (remaining_time_stands_still_while_paused (60 * Go.Second) (100 * Go.Second)
           playing_yesterday (queued_by "listener-1" yesterday_A));
    vm_compute; first [reflexivity | discriminate | split; discriminate].
Defined.







(** ** The session manager (src/internal/app/session/state/types.go, second document) *)

(** *** The memory of recent artists *)

Lemma addRecentArtistsLocked_only_recent (artists : list string) (m : Session.Manager) :
  Session.addRecentArtistsLocked artists m
  = Session.set_recentArtists
      (Session.recentArtists (Session.addRecentArtistsLocked artists m)) m.
Proof.
  unfold Session.addRecentArtistsLocked. revert m.
  induction artists as [| a rest IH]; intros m; cbn [fold_left].
  - destruct m; reflexivity.
  - rewrite IH. reflexivity.
Qed.

Lemma firstn_app_firstn {A : Type} (n : nat) (l l' : list A) :
  firstn n (l ++ firstn n l') = firstn n (l ++ l').
Proof.
  rewrite !firstn_app, firstn_firstn. f_equal. f_equal. lia.
Qed.

Lemma addRecentArtistsLocked_recent (artists : list string) (m : Session.Manager) :
  0 <= Session.maxRecentArtists m ->
  (length (Session.recentArtists m) <= Z.to_nat (Session.maxRecentArtists m))%nat ->
  Session.recentArtists (Session.addRecentArtistsLocked artists m)
  = firstn (Z.to_nat (Session.maxRecentArtists m)) (rev artists ++ Session.recentArtists m).
Proof.
  intros Hmax. unfold Session.addRecentArtistsLocked.
  remember (Session.maxRecentArtists m) as k eqn:Hk. revert m Hk.
  induction artists as [| a rest IH]; intros m Hk Hlen; cbn [fold_left rev app].
  - rewrite firstn_all2 by exact Hlen. reflexivity.
  - match goal with
    | |- context [fold_left ?f rest ?m1] =>
        assert (Hm1 : Session.recentArtists m1 = firstn (Z.to_nat k) (a :: Session.recentArtists m)
                      /\ Session.maxRecentArtists m1 = k)
    end.
    { cbn [Session.recentArtists Session.maxRecentArtists Session.set_recentArtists].
      rewrite <- Hk. split; [| reflexivity].
      destruct (Z.ltb_spec k (Z.of_nat (length (a :: Session.recentArtists m)))) as [H | H].
      - reflexivity.
      - rewrite firstn_all2; [reflexivity | lia]. }
    destruct Hm1 as (Hr1 & Hk1).
    rewrite IH; [| symmetry; exact Hk1 | rewrite Hr1, length_firstn; lia].
    rewrite Hr1, <- app_assoc. cbn [app]. apply firstn_app_firstn.
Qed.

(** X19.  The memory of recent artists is a bounded list, most recent
    first: after [addRecentArtistsLocked], it holds the new artists in
    reverse order followed by the old ones, cut to [maxRecentArtists]
    entries; nothing else of the manager changes.  (For a limit that is not
    negative; with a negative limit the slice expression of the source is
    out of range.) *)
Theorem recent_artists_are_the_latest (artists : list string) (m : Session.Manager) :
  0 <= Session.maxRecentArtists m ->
  (length (Session.recentArtists m) <= Z.to_nat (Session.maxRecentArtists m))%nat ->
  Session.addRecentArtistsLocked artists m
  = Session.set_recentArtists
      (firstn (Z.to_nat (Session.maxRecentArtists m)) (rev artists ++ Session.recentArtists m)) m
  /\ (length (Session.recentArtists (Session.addRecentArtistsLocked artists m))
      <= Z.to_nat (Session.maxRecentArtists m))%nat.
Proof.
  intros Hmax Hlen. split.
  - rewrite addRecentArtistsLocked_only_recent at 1.
    rewrite addRecentArtistsLocked_recent by assumption. reflexivity.
  - rewrite addRecentArtistsLocked_recent by assumption. rewrite length_firstn. lia.
Qed.

Lemma recent_artists_are_the_latest_witness :
  Session.recentArtists
    (Session.addRecentArtistsLocked ["The Doors"; "Semisonic"; "Queen"]
       (Session.addRecentArtistsLocked ["The Beatles"; "Wings"]
          (Session.NewManager 0 "session-1" "system-1" test_session_config)))
  = ["Queen"; "Semisonic"; "The Doors"]%string.
Proof.
  rewrite (proj1 (recent_artists_are_the_latest ["The Doors"; "Semisonic"; "Queen"]%string
                    (Session.addRecentArtistsLocked ["The Beatles"; "Wings"]%string
                       (Session.NewManager 0 "session-1" "system-1" test_session_config))
                    ltac:(vm_compute; discriminate) ltac:(vm_compute; lia))).
  vm_compute. reflexivity.
Defined.

(** X20.  [filterByRecentArtists] never leaves the caller without a
    candidate: the result is a sub-list of the candidates, in their order,
    and it is empty only if there were no candidates.  Either the memory of
    recent artists is unchanged and no returned candidate has a recent
    artist (or the limit is 0 and nothing is filtered), or every candidate
    had a recent artist, the memory is cleared and all candidates are
    returned. *)
Theorem filterByRecentArtists_keeps_a_candidate (candidates : list Bgm.CandidateWithSource)
    (m : Session.Manager) :
  let m' := fst (Session.filterByRecentArtists candidates m) in
  let kept := snd (Session.filterByRecentArtists candidates m) in
  sublist kept candidates
  /\ (kept = [] <-> candidates = [])
  /\ ((m' = m
       /\ (Session.maxRecentArtists m = 0
           \/ Forall (fun c => Session.isRecentArtistLocked (Track.Artists (Bgm.CTrack c)) m
                               = false) kept))
      \/ (m' = Session.set_recentArtists [] m
          /\ kept = candidates
          /\ Session.recentArtists m <> []
          /\ Forall (fun c => Session.isRecentArtistLocked (Track.Artists (Bgm.CTrack c)) m
                              = true) candidates)).
Proof.
  intros m' kept. subst m' kept. unfold Session.filterByRecentArtists.
  destruct (Session.maxRecentArtists m =? 0) eqn:Hmax; cbn [fst snd].
  { split; [reflexivity | split; [reflexivity |]]. left. split; [reflexivity |].
    left. apply Z.eqb_eq, Hmax. }
  set (keep := fun c => negb (Session.isRecentArtistLocked (Track.Artists (Bgm.CTrack c)) m)).
  assert (Hsub : sublist (List.filter keep candidates) candidates).
  { clear. induction candidates as [| c rest IH]; cbn [List.filter]; [constructor |].
    destruct (keep c); [apply sublist_skip | apply sublist_cons]; exact IH. }
  assert (Hall : Forall (fun c => Session.isRecentArtistLocked
                                    (Track.Artists (Bgm.CTrack c)) m = false)
                   (List.filter keep candidates)).
  { apply Forall_forall. intros c Hin. apply list_elem_of_In, List.filter_In in Hin.
    destruct Hin as (_ & Hk). unfold keep in Hk. apply negb_true_iff in Hk. exact Hk. }
  destruct (List.filter keep candidates) as [| c0 kept0] eqn:Hf; cbn [length Nat.eqb andb].
  - destruct (Session.recentArtists m) as [| r rs] eqn:Hrec; cbn [length Nat.ltb Nat.leb fst snd].
    + (* nothing is recent, so nothing was filtered: there were no candidates *)
      assert (Hnil : candidates = []).
      { destruct candidates as [| c rest]; [reflexivity |]. exfalso.
        cbn [List.filter] in Hf.
        assert (Hk : keep c = true).
        { unfold keep, Session.isRecentArtistLocked. rewrite Hrec.
          apply negb_true_iff. clear. induction (Track.Artists (Bgm.CTrack c)); auto. }
        rewrite Hk in Hf. discriminate. }
      subst candidates. split; [constructor | split; [reflexivity |]].
      left. split; [reflexivity | right; constructor].
    + split; [reflexivity |]. split.
      * split; [intros ->; reflexivity | intros ->; reflexivity].
      * right. split; [reflexivity | split; [reflexivity | split; [discriminate |]]].
        apply Forall_forall. intros c Hin. apply list_elem_of_In in Hin.
        destruct (Session.isRecentArtistLocked (Track.Artists (Bgm.CTrack c)) m) eqn:Hc;
          [reflexivity |].
        assert (Hin' : In c (List.filter keep candidates)).
        { apply List.filter_In. split; [exact Hin |]. unfold keep. rewrite Hc. reflexivity. }
        rewrite Hf in Hin'. destruct Hin'.
  - cbn [fst snd]. split; [exact Hsub | split].
    + split; [discriminate |]. intros ->. discriminate.
    + left. split; [reflexivity | right; exact Hall].
Qed.

(** *** The filter chain of the session *)

Lemma Execute_skips {W : Type} (fs : list (Filter.Filter W)) (w : W) req t l rt :
  Forall (fun f => Filter.AppliesTo f rt = false) fs ->
  Filter.Execute fs w req t l rt = Filter.Accept.
Proof.
  induction 1 as [| f rest Hf _ IH]; cbn [Filter.Execute]; [reflexivity |].
  rewrite Hf. exact IH.
Qed.

Lemma userOnly_other (rt : Track.RequesterType) :
  rt <> Track.RequesterTypeUser -> Filter.userOnly rt = false.
Proof. destruct rt; intros H; [contradiction | reflexivity ..]. Qed.

(** X22.  Tracks that are not requested by a user (background music, the
    opening and ending playlists, system tracks) are checked by the market
    filter alone: for them the chain of [setupFilters] answers what
    [MarketFilter] answers, whatever the other filters are set to.  (The
    configured duration limit must be one that, as in the source, applies to
    user requests only.) *)
Theorem only_the_market_filter_checks_system_tracks (cfg : Session.Config)
    (w : Session.FilterWorld) (req : Filter.TrackRequest) (t : Track.Track)
    (l : Listener.Session) (rt : Track.RequesterType) :
  rt <> Track.RequesterTypeUser ->
  (forall f, Session.DurationLimit cfg = Some f -> Filter.AppliesTo f rt = false) ->
  Filter.Execute (Session.setupFilters cfg) w req t l rt
  = Filter.Market_Check (Session.Market cfg) t.
Proof.
  intros Hrt Hdl. pose proof (userOnly_other rt Hrt) as Hu.
  unfold Session.setupFilters. cbn [app Filter.Execute].
  cbn [Filter.AppliesTo Filter.NewAcceptanceDoneFilter Filter.NewMarketFilter Filter.Check].
  rewrite Hu. cbn [negb].
  assert (Hrest : forall fs, Forall (fun f => Filter.AppliesTo f rt = false) fs ->
            (if negb (Filter.Accepted (Filter.Market_Check (Session.Market cfg) t))
             then Filter.Market_Check (Session.Market cfg) t
             else Filter.Execute fs w req t l rt)
            = Filter.Market_Check (Session.Market cfg) t).
  { intros fs Hfs. rewrite (Execute_skips fs) by exact Hfs.
    unfold Filter.Market_Check. destruct (String.eqb _ _); [reflexivity |].
    destruct (Track.IsAvailableInMarket t (Session.Market cfg)); reflexivity. }
  apply Hrest. repeat apply Forall_app_2.
  - destruct (Session.KickedEnabled cfg); repeat constructor. exact Hu.
  - destruct (Session.UserPendingEnabled cfg); repeat constructor. exact Hu.
  - destruct (Session.DuplicateTrackEnabled cfg); repeat constructor. exact Hu.
  - destruct (Session.DurationLimit cfg) as [f |] eqn:Hf; repeat constructor.
    apply Hdl. reflexivity.
Qed.

Lemma only_the_market_filter_checks_system_tracks_witness :
  Track.RequesterTypeBGM <> Track.RequesterTypeUser
  /\ Filter.Execute (Session.setupFilters test_session_config)
       (filter_world (12 * Go.Second) active_session)
       (track_request "system-1" "A") yesterday_A
       (Listener.Kick (Listener.NewSession 0 "system-1" "System" "" false))
       Track.RequesterTypeBGM
     = Filter.Market_Check (Session.Market test_session_config) yesterday_A.
Proof.
  split; [discriminate |].
  apply only_the_market_filter_checks_system_tracks; [discriminate | discriminate].
Defined.

(** *** The acceptance deadline *)

(** X21.  When a tick of [endTimeChecker] finds the acceptance deadline
    reached, the chain of [setupFilters] rejects a user request at that very
    instant already (for a queue whose remaining play time is not negative),
    and the tick moves the session to the ending phase, after which the
    chain answers [acceptance_done] to every user request. *)
Theorem deadline_closes_the_gate (sp : Session.Spotify) (now later : Z) (m : Session.Manager)
    (req : Filter.TrackRequest) (t : Track.Track) (l : Listener.Session) :
  snd (Session.endTimeChecker_tick sp now later m) = true ->
  0 <= Playback.GetRemainingDuration now (Session.playback m)
       + Playback.GetTotalDuration (Session.playback m) ->
  Filter.Accepted
    (Filter.Execute (Session.setupFilters (Session.config m)) (filter_world now m) req t l
       Track.RequesterTypeUser) = false
  /\ phase_of (fst (Session.endTimeChecker_tick sp now later m)) = State.PhaseEnding
  /\ accepting_of (fst (Session.endTimeChecker_tick sp now later m)) = State.NotAccepting
  /\ (forall w', Session.fwState w' = Session.stateMgr (fst (Session.endTimeChecker_tick sp now later m)) ->
                 Filter.Execute (Session.setupFilters (Session.config m)) w' req t l
                   Track.RequesterTypeUser
                 = Filter.Reject "acceptance_done").
Proof.
  unfold Session.endTimeChecker_tick, State.GetTimes, State.GetPhase, State.GetEndingDuration.
  cbn [snd].
  destruct (State.endTime (Session.stateMgr m)) as [endTime |] eqn:Hend; [| discriminate].
  destruct (State.Phase_eqb (State.phase (Session.stateMgr m)) State.PhaseActive) eqn:Hph;
    cbn [negb]; [| discriminate].
  destruct (Go.After now _ || Go.Equal now _) eqn:Hdue; [| discriminate].
  intros _ Hpos. cbn [fst].
  assert (Hact : phase_of m = State.PhaseActive).
  { unfold phase_of. destruct (State.phase (Session.stateMgr m)); first [reflexivity | discriminate]. }
  destruct (proj1 (transitionToEnding_stateMgr sp later m) Hact) as (Hp' & Ha').
  split; [| split; [exact Hp' | split; [exact Ha' |]]].
  - unfold Session.setupFilters. cbn [app Filter.Execute].
    cbn [Filter.AppliesTo Filter.NewAcceptanceDoneFilter Filter.Check Filter.userOnly
           Track.RequesterType_eqb negb].
    assert (Hrej : Filter.Accepted
                     (Filter.AcceptanceDone_Check
                        {| Filter.isAccepting := fun w => State.CanAcceptRequests (Session.fwState w);
                           Filter.getEndTime := fun w => snd (State.GetTimes (Session.fwState w));
                           Filter.getEndingDur := fun w => State.GetEndingDuration (Session.fwState w);
                           Filter.getQueueDuration :=
                             fun w => Playback.GetTotalDuration (Session.fwPlayback w);
                           Filter.getCurrentRemain :=
                             fun w => Playback.GetRemainingDuration (Session.fwNow w)
                                        (Session.fwPlayback w);
                           Filter.getNow := Session.fwNow |}
                        (filter_world now m) req t l) = false).
    { unfold Filter.AcceptanceDone_Check.
      cbn [Filter.isAccepting Filter.getEndTime Filter.getEndingDur Filter.getQueueDuration
             Filter.getCurrentRemain Filter.getNow filter_world Session.fwState
             Session.fwPlayback Session.fwNow].
      destruct (negb (State.CanAcceptRequests (Session.stateMgr m))); [reflexivity |].
      unfold State.GetTimes, State.GetEndingDuration. cbn [snd]. rewrite Hend.
      unfold Go.After, Go.Equal, Go.Add in *.
      destruct (Z.ltb_spec (endTime + Go.neg64 (State.endingDuration (Session.stateMgr m))) now)
        as [Hlt | Hge]; [reflexivity |].
      cbn [orb] in Hdue. apply Z.eqb_eq in Hdue.
      match goal with
      | |- context [(?a <? ?b) || (?b =? ?a)] =>
          destruct (Z.ltb_spec a b); [reflexivity |];
          destruct (Z.eqb_spec b a); [reflexivity | lia]
      end. }
    rewrite Hrej. cbn [negb]. exact Hrej.
  - intros w' Hw'. unfold Session.setupFilters. cbn [app Filter.Execute].
    cbn [Filter.AppliesTo Filter.NewAcceptanceDoneFilter Filter.Check Filter.userOnly
           Track.RequesterType_eqb negb].
    unfold Filter.AcceptanceDone_Check at 1 2. cbn [Filter.isAccepting].
    rewrite Hw'. unfold State.CanAcceptRequests. fold (phase_of (Session.transitionToEnding sp later m)).
    rewrite Hp'. reflexivity.
Qed.

Lemma deadline_closes_the_gate_witness :
  snd (Session.endTimeChecker_tick test_spotify (10 * Go.Second + 52 * Go.Minute)
         (10 * Go.Second + 52 * Go.Minute) active_session) = true
  /\ phase_of (fst (Session.endTimeChecker_tick test_spotify (10 * Go.Second + 52 * Go.Minute)
                      (10 * Go.Second + 52 * Go.Minute) active_session))
     = State.PhaseEnding.
Proof.
  assert (H : snd (Session.endTimeChecker_tick test_spotify (10 * Go.Second + 52 * Go.Minute)
                     (10 * Go.Second + 52 * Go.Minute) active_session) = true)
    by (vm_compute; reflexivity).
  split; [exact H |].
  exact (proj1 (proj2 (deadline_closes_the_gate test_spotify _ _ active_session
                         (track_request "listener-1" "A") yesterday_A
                         (Listener.NewSession (11 * Go.Second) "listener-1" "Alice" "" false)
                         H ltac:(vm_compute; discriminate)))).
Defined.

(** *** Stopping *)

(** The [done] channel and whether closing it has panicked. *)
Definition channel (m : Session.Manager) : bool * bool := (Session.done m, Session.panicked m).

Lemma enqueuePlaylistTracks_channel (now : Z) (tracks : list Track.Track) (name : string)
    (rt : Track.RequesterType) (m : Session.Manager) :
  channel (Session.enqueuePlaylistTracks now tracks name rt m) = channel m.
Proof.
  rewrite enqueuePlaylistTracks_fold. revert m.
  induction tracks as [| t rest IH]; intros m; cbn [fold_left]; [reflexivity |].
  rewrite IH. unfold enqueueOne. rewrite addRecentArtistsLocked_only_recent. reflexivity.
Qed.

Lemma Start_prepare_channel (sp : Session.Spotify) (now : Z) (createAt : string)
    (m : Session.Manager) :
  channel (fst (Session.Start_prepare sp now createAt m)) = channel m.
Proof.
  unfold Session.Start_prepare. cbv zeta.
  destruct (Session.CreatePlaylist sp _) as [playlistID |]; cbn [fst]; [| reflexivity].
  destruct (String.eqb (Session.OpeningPlaylistURL _) "").
  - destruct (String.eqb (Session.endingPlaylistURL _) ""); cbn [fst]; [reflexivity |].
    destruct (Session.GetPlaylistTracks sp _); reflexivity.
  - destruct (Session.GetPlaylistTracks sp (Session.OpeningPlaylistURL _)) as [tracks |];
      cbn [fst]; [| reflexivity].
    destruct (Session.AddTracksToPlaylist sp playlistID _); cbn [fst].
    + destruct (String.eqb (Session.endingPlaylistURL _) ""); cbn [fst].
      * rewrite enqueuePlaylistTracks_channel. reflexivity.
      * destruct (Session.GetPlaylistTracks sp (Session.endingPlaylistURL _)); cbn [fst];
          [change (channel (Session.set_stateMgr ?s ?x)) with (channel x) |];
          rewrite enqueuePlaylistTracks_channel; reflexivity.
    + rewrite enqueuePlaylistTracks_channel. reflexivity.
Qed.

Lemma broadcastState_channel (m : Session.Manager) :
  channel (fst (Session.broadcastState m)) = channel m.
Proof.
  unfold Session.broadcastState. destruct (Notification.Broadcast _ _). reflexivity.
Qed.

Lemma Start_activate_channel (now : Z) (m : Session.Manager) :
  channel (fst (Session.Start_activate now m)) = channel m.
Proof.
  unfold Session.Start_activate.
  match goal with
  | |- context [Session.broadcastState ?x] =>
      pose proof (broadcastState_channel x) as Hb;
      destruct (Session.broadcastState x) as [m' sends]
  end.
  cbn [fst] in *. change (channel (Session.set_spawned ?s ?x)) with (channel x).
  rewrite Hb. destruct (Session.ParsedStartTime _); reflexivity.
Qed.

Lemma transitionToEnding_channel (sp : Session.Spotify) (now : Z) (m : Session.Manager) :
  channel (Session.transitionToEnding sp now m) = channel m.
Proof.
  unfold Session.transitionToEnding.
  destruct (negb _); [reflexivity |].
  cbn [Session.endingPlaylistURL Session.set_stateMgr].
  destruct (String.eqb _ _); [reflexivity |].
  destruct (Session.GetPlaylistTracks sp _) as [[| t tracks] |]; try reflexivity.
  cbn [Playback.ClearQueue]. rewrite enqueuePlaylistTracks_channel. reflexivity.
Qed.

(** [close(m.done)] on the channel. *)
Definition closed (ch : bool * bool) : bool * bool :=
  if fst ch then (true, true) else (true, snd ch).

Lemma closeDone_channel (m : Session.Manager) :
  channel (Session.closeDone m) = closed (channel m).
Proof.
  unfold Session.closeDone, closed, channel. cbn [fst snd].
  destruct (Session.done m) eqn:Hd;
    cbn [Session.done Session.panicked Session.set_panicked Session.set_done];
    rewrite ?Hd; reflexivity.
Qed.

Lemma terminateNow_channel (now : Z) (m : Session.Manager) :
  channel (fst (Session.terminateNow now m)) = closed (channel m).
Proof.
  unfold Session.terminateNow.
  match goal with
  | |- context [Session.broadcastState ?x] =>
      pose proof (broadcastState_channel x) as Hb;
      destruct (Session.broadcastState x) as [m' sends]
  end.
  cbn [fst] in *. rewrite closeDone_channel.
  change (channel (Session.set_cancelled true m')) with (channel m'). rewrite Hb. reflexivity.
Qed.

Lemma session_step_channel (now : Z) (op : SessionOp) (m : Session.Manager) :
  channel (session_step now op m)
  = match op, phase_of m with
    | OpStop _, State.PhaseWaiting
    | OpStopImmediate, State.PhaseWaiting
    | OpStopImmediate, State.PhaseActive
    | OpQueueEmpty, State.PhaseEnding => closed (channel m)
    | _, _ => channel m
    end.
Proof.
  destruct op as [sp createAt | | sp | | sp |]; cbn [session_step].
  - rewrite Start_prepare_channel. destruct (phase_of m); reflexivity.
  - rewrite Start_activate_channel. destruct (phase_of m); reflexivity.
  - unfold Session.Stop, State.GetPhase. fold (phase_of m).
    destruct (phase_of m); try reflexivity.
    + rewrite closeDone_channel. reflexivity.
    + apply transitionToEnding_channel.
  - unfold Session.StopImmediate, State.GetPhase. fold (phase_of m).
    destruct (phase_of m); cbn [fst]; try reflexivity.
    + rewrite closeDone_channel. reflexivity.
    + apply terminateNow_channel.
  - rewrite transitionToEnding_channel. destruct (phase_of m); reflexivity.
  - unfold Session.onQueueEmpty, Session.terminateSession, State.GetPhase. fold (phase_of m).
    destruct (phase_of m); cbn [fst]; try reflexivity.
    apply terminateNow_channel.
Qed.

(** [done] is closed exactly when the session is terminated, and closing it
    has not panicked. *)
Definition closed_once (m : Session.Manager) : Prop :=
  (Session.done m = true <-> phase_of m = State.PhaseTerminated)
  /\ Session.panicked m = false.

Lemma session_step_closed_once (now : Z) (op : SessionOp) (m : Session.Manager) :
  (op = OpStartActivate -> phase_of m = State.PhaseWaiting) ->
  closed_once m -> closed_once (session_step now op m).
Proof.
  intros Hguard ((Hd1 & Hd2) & Hp). unfold closed_once.
  pose proof (session_step_channel now op m) as Hch.
  pose proof (session_step_lifecycle now op m) as Hl.
  unfold channel, closed, lifecycle in *.
  generalize dependent (session_step now op m). intros m' Hch Hl.
  destruct (Session.done m) eqn:Hdone.
  - pose proof (Hd1 eq_refl) as Hterm. rewrite Hterm in *.
    destruct op; cbn [lifecycle_step fst snd] in *;
      try (specialize (Hguard eq_refl); discriminate);
      injection Hch as -> ->; injection Hl as -> _; split; auto; split; auto.
  - destruct (phase_of m) eqn:Hph; [| | | specialize (Hd2 eq_refl); discriminate];
      destruct op; cbn [lifecycle_step fst snd] in *;
      try (specialize (Hguard eq_refl); discriminate);
      injection Hch as -> ->; injection Hl as -> _;
      (split; [split; intros; first [reflexivity | discriminate] | exact Hp]).
Qed.

(** X23.  [done] is closed exactly once.  In runs in which [Start]
    activates only a waiting session, the [done] channel is closed exactly
    when the session is terminated, and no operation closes it a second time
    (which would panic), however [Stop], [StopImmediate], the acceptance
    deadline and the end of the queue are interleaved. *)
Theorem done_is_closed_exactly_once (ops : list (Z * SessionOp)) (m : Session.Manager) :
  activates_only_when_waiting ops m ->
  (Session.done m = true <-> phase_of m = State.PhaseTerminated) ->
  Session.panicked m = false ->
  (Session.done (session_run ops m) = true
   <-> phase_of (session_run ops m) = State.PhaseTerminated)
  /\ Session.panicked (session_run ops m) = false.
Proof.
  intros Hg Hd Hp. assert (H : closed_once m) by (split; assumption). clear Hd Hp.
  revert m Hg H. induction ops as [| [now op] rest IH]; intros m Hg H; cbn [session_run].
  - exact H.
  - destruct Hg as (Hguard & Hrest).
    apply IH; [exact Hrest |]. apply session_step_closed_once; assumption.
Qed.

Lemma done_is_closed_exactly_once_witness :
  Session.panicked (Session.NewManager 0 "session-1" "system-1" test_session_config) = false
  /\ Session.panicked
       (session_run
          [(0, OpStartPrepare test_spotify "2026-01-01 00:00"); (10 * Go.Second, OpStartActivate);
           (20 * Go.Second, OpStop test_spotify); (25 * Go.Second, OpStopImmediate);
           (30 * Go.Second, OpQueueEmpty); (40 * Go.Second, OpStopImmediate);
           (50 * Go.Second, OpStop test_spotify)]
          (Session.NewManager 0 "session-1" "system-1" test_session_config)) = false.
Proof.
  split; [reflexivity |].
  apply (done_is_closed_exactly_once
           [(0, OpStartPrepare test_spotify "2026-01-01 00:00"); (10 * Go.Second, OpStartActivate);
            (20 * Go.Second, OpStop test_spotify); (25 * Go.Second, OpStopImmediate);
            (30 * Go.Second, OpQueueEmpty); (40 * Go.Second, OpStopImmediate);
            (50 * Go.Second, OpStop test_spotify)]
           (Session.NewManager 0 "session-1" "system-1" test_session_config)).
  - cbn [activates_only_when_waiting].
    repeat (split; [first [discriminate | intros _; vm_compute; reflexivity] |]).
    exact I.
  - split; intros H; vm_compute in H; discriminate H.
  - reflexivity.
Defined.

(** X24.  Stopping twice is stopping once.  A second [Stop] changes
    nothing after a first one, whatever the phase was; the same holds for
    [StopImmediate], whose second call sends no notification.  In the ending
    phase [StopImmediate] itself changes nothing: the ending playlist plays
    on until the queue is empty. *)
Theorem stopping_twice_is_stopping_once (sp : Session.Spotify) (t1 t2 : Z)
    (m : Session.Manager) :
  Session.Stop sp t2 (Session.Stop sp t1 m) = Session.Stop sp t1 m
  /\ Session.StopImmediate t2 (fst (Session.StopImmediate t1 m))
     = (fst (Session.StopImmediate t1 m), [])
  /\ (phase_of m = State.PhaseEnding -> Session.StopImmediate t1 m = (m, [])).
Proof.
  assert (Hstop : forall m', phase_of m' = State.PhaseTerminated \/ phase_of m' = State.PhaseEnding ->
                             Session.Stop sp t2 m' = m').
  { intros m' H. unfold Session.Stop, State.GetPhase. fold (phase_of m').
    destruct H as [-> | ->]; reflexivity. }
  assert (Himm : forall m', phase_of m' = State.PhaseTerminated \/ phase_of m' = State.PhaseEnding ->
                            Session.StopImmediate t2 m' = (m', [])).
  { intros m' H. unfold Session.StopImmediate, State.GetPhase. fold (phase_of m').
    destruct H as [-> | ->]; reflexivity. }
  split; [| split].
  - apply Hstop. unfold Session.Stop at 1 2, State.GetPhase. fold (phase_of m).
    destruct (phase_of m) eqn:Hp; auto.
    + left. unfold phase_of. rewrite closeDone_stateMgr. reflexivity.
    + right. exact (proj1 (proj1 (transitionToEnding_stateMgr sp t1 m) Hp)).
  - apply Himm. unfold Session.StopImmediate at 1 2, State.GetPhase. fold (phase_of m).
    destruct (phase_of m) eqn:Hp; cbn [fst]; auto.
    + left. unfold phase_of. rewrite closeDone_stateMgr. reflexivity.
    + left. exact (proj1 (terminateNow_stateMgr t1 m)).
  - intros Hp. unfold Session.StopImmediate, State.GetPhase. fold (phase_of m).
    rewrite Hp. reflexivity.
Qed.

(** *** The pending count across a request and the start of its track *)

Lemma onTrackStarted_listenerReg (qt : Track.QueuedTrack) (m : Session.Manager) :
  Session.listenerReg (fst (Session.onTrackStarted (Some qt) m))
  = Registry.DecrementPending (Track.RequesterID (Track.requester qt)) (Session.listenerReg m).
Proof.
  unfold Session.onTrackStarted. cbv zeta.
  destruct (Notification.Broadcast _ _) as [nm sends]. reflexivity.
Qed.

(** X25.  A listener's pending count goes up by one when a request is
    accepted and comes back when the requested track starts: after
    [RequestTrack] accepted the request the registry holds the listener with
    the incremented count, and after [onTrackStarted] for the queued track
    the count is what it was before the request.  No other listener's
    session is touched. *)
Theorem pending_count_returns_when_the_track_starts (sp : Session.Spotify) (now : Z)
    (listenerID trackID : string) (m : Session.Manager) (session : Listener.Session)
    (t : Track.Track) :
  Registry.listeners (Session.listenerReg m) !! listenerID = Some session ->
  Listener.ID session = listenerID ->
  Session.GetTrack sp trackID (Session.Market (Session.config m)) = Some t ->
  Filter.Accepted
    (Filter.Execute (Session.filterChain m) (filter_world now m)
       (track_request listenerID trackID) t session Track.RequesterTypeUser) = true ->
  0 <= Listener.PendingTracks session < Go.max_int64 ->
  let m1 := fst (Session.RequestTrack sp now listenerID trackID m) in
  let m2 := fst (Session.onTrackStarted (Some (user_queued session now t)) m1) in
  (exists s1, Registry.Get listenerID (Session.listenerReg m1) = inl s1
              /\ Listener.PendingTracks s1 = Listener.PendingTracks session + 1)
  /\ (exists s2, Registry.Get listenerID (Session.listenerReg m2) = inl s2
                 /\ Listener.PendingTracks s2 = Listener.PendingTracks session
                 /\ Listener.LastRequestAt s2 = Some now)
  /\ (forall k, k <> listenerID ->
                Registry.listeners (Session.listenerReg m2) !! k
                = Registry.listeners (Session.listenerReg m) !! k).
Proof.
  intros Hl Hid Ht Hacc Hp m1 m2.
  destruct (RequestTrack_accepted sp now listenerID trackID m session t Hl Ht Hacc)
    as (_ & _ & Hreg).
  fold m1 in Hreg.
  assert (Hinc : Listener.PendingTracks (Listener.IncrementPendingTracks now session)
                 = Listener.PendingTracks session + 1).
  { cbn. apply add64_small. unfold Go.min_int64, Go.max_int64 in *. lia. }
  assert (Hl1 : Registry.listeners (Session.listenerReg m1) !! listenerID
                = Some (Listener.IncrementPendingTracks now session)).
  { rewrite Hreg. apply lookup_insert_eq. }
  assert (Hreg2 : Registry.listeners (Session.listenerReg m2)
                  = <[listenerID :=
                        Listener.DecrementPendingTracks
                          (Listener.IncrementPendingTracks now session)]>
                      (Registry.listeners (Session.listenerReg m1))).
  { subst m2. rewrite onTrackStarted_listenerReg.
    cbn [user_queued Track.requester Track.RequesterID]. rewrite Hid.
    unfold Registry.DecrementPending. rewrite Hl1. reflexivity. }
  split; [| split].
  - exists (Listener.IncrementPendingTracks now session).
    unfold Registry.Get. rewrite Hl1. split; [reflexivity | exact Hinc].
  - exists (Listener.DecrementPendingTracks (Listener.IncrementPendingTracks now session)).
    unfold Registry.Get. rewrite Hreg2, lookup_insert_eq. split; [reflexivity |].
    unfold Listener.DecrementPendingTracks, Listener.IncrementPendingTracks.
    cbn [Listener.PendingTracks Listener.IncrementPendingTracks] in Hinc.
    cbn [Listener.PendingTracks]. rewrite Hinc.
    destruct (Z.ltb_spec 0 (Listener.PendingTracks session + 1)) as [_ | H]; [| lia].
    cbn [Listener.PendingTracks Listener.LastRequestAt].
    split; [| reflexivity].
    rewrite sub64_small by (unfold Go.min_int64, Go.max_int64 in *; lia). lia.
  - intros k Hk. rewrite Hreg2, lookup_insert_ne by congruence.
    rewrite Hreg, lookup_insert_ne by congruence. reflexivity.
Qed.

Lemma pending_count_returns_when_the_track_starts_witness :
  Registry.listeners (Session.listenerReg active_session) !! "listener-1"%string
  = Some (Listener.NewSession (11 * Go.Second) "listener-1" "Alice" "" false)
  /\ exists s2,
       Registry.Get "listener-1"
         (Session.listenerReg
            (fst (Session.onTrackStarted
                    (Some (user_queued
                             (Listener.NewSession (11 * Go.Second) "listener-1" "Alice" "" false)
                             (12 * Go.Second) yesterday_A))
                    (fst (Session.RequestTrack test_spotify (12 * Go.Second) "listener-1" "A"
                            active_session)))))
       = inl s2
       /\ Listener.PendingTracks s2 = 0
       /\ Listener.LastRequestAt s2 = Some (12 * Go.Second).
Proof.
  assert (Hl : Registry.listeners (Session.listenerReg active_session) !! "listener-1"%string
               = Some (Listener.NewSession (11 * Go.Second) "listener-1" "Alice" "" false))
    by (vm_compute; reflexivity).
  split; [exact Hl |].
  exact (proj1 (proj2 (pending_count_returns_when_the_track_starts test_spotify (12 * Go.Second)
                         "listener-1" "A" active_session
                         (Listener.NewSession (11 * Go.Second) "listener-1" "Alice" "" false)
                         yesterday_A Hl eq_refl ltac:(vm_compute; reflexivity)
                         ltac:(vm_compute; reflexivity)
                         ltac:(vm_compute; split; [discriminate | reflexivity])))).
Defined.

(** ** Background music (src/unnamed/part_008, part_009, part_010) *)

Definition ids (tracks : list Track.Track) : list string := map Track.ID tracks.

Lemma excluded_insert (seen : gmap string bool) (k id : string) :
  Bgm.excluded (<[k := true]> seen) id = if decide (id = k) then true else Bgm.excluded seen id.
Proof.
  unfold Bgm.excluded. destruct (decide (id = k)) as [-> | Hne].
  - rewrite lookup_insert_eq. reflexivity.
  - rewrite lookup_insert_ne by congruence. reflexivity.
Qed.

Lemma filter_sublist {A : Type} (q : A -> bool) (l : list A) : sublist (List.filter q l) l.
Proof.
  induction l as [| x rest IH]; cbn [List.filter]; [constructor |].
  destruct (q x); [apply sublist_skip | apply sublist_cons]; exact IH.
Qed.

Lemma sublist_map {A B : Type} (f : A -> B) (l1 l2 : list A) :
  sublist l1 l2 -> sublist (map f l1) (map f l2).
Proof. induction 1; cbn [map]; constructor; assumption. Qed.

(** *** deduplicateByID *)

(** The loop of [deduplicateByID] from a given set of seen ids. *)
Fixpoint dedup_from (seen : gmap string bool) (tracks : list Track.Track) : list Track.Track :=
  match tracks with
  | [] => []
  | t :: rest =>
      if negb (Bgm.excluded seen (Track.ID t))
      then t :: dedup_from (<[Track.ID t := true]> seen) rest
      else dedup_from seen rest
  end.

Lemma deduplicateByID_loop (tracks : list Track.Track) (seen : gmap string bool)
    (result : list Track.Track) :
  snd (fold_left
         (fun (acc : gmap string bool * list Track.Track) t =>
            if negb (Bgm.excluded (fst acc) (Track.ID t))
            then (<[Track.ID t := true]> (fst acc), snd acc ++ [t])
            else acc)
         tracks (seen, result))
  = result ++ dedup_from seen tracks.
Proof.
  revert seen result. induction tracks as [| t rest IH]; intros seen result;
    cbn [fold_left dedup_from fst snd].
  - rewrite app_nil_r. reflexivity.
  - destruct (negb (Bgm.excluded seen (Track.ID t))); cbn [fst snd].
    + rewrite IH, <- app_assoc. reflexivity.
    + apply IH.
Qed.

Lemma deduplicateByID_dedup_from (tracks : list Track.Track) :
  Bgm.deduplicateByID tracks = dedup_from ∅ tracks.
Proof. unfold Bgm.deduplicateByID. rewrite deduplicateByID_loop. reflexivity. Qed.

Lemma dedup_from_sublist (seen : gmap string bool) (tracks : list Track.Track) :
  sublist (dedup_from seen tracks) tracks.
Proof.
  revert seen. induction tracks as [| t rest IH]; intros seen; cbn [dedup_from]; [constructor |].
  destruct (negb _); [apply sublist_skip | apply sublist_cons]; apply IH.
Qed.

Lemma dedup_from_fresh (seen : gmap string bool) (tracks : list Track.Track) :
  Forall (fun t => Bgm.excluded seen (Track.ID t) = false) (dedup_from seen tracks)
  /\ NoDup (ids (dedup_from seen tracks)).
Proof.
  revert seen. induction tracks as [| t rest IH]; intros seen; cbn [dedup_from].
  - split; constructor.
  - destruct (Bgm.excluded seen (Track.ID t)) eqn:Hex; cbn [negb]; [apply IH |].
    destruct (IH (<[Track.ID t := true]> seen)) as (Hall & Hnd).
    assert (Hall' : Forall (fun u => Track.ID u <> Track.ID t
                                     /\ Bgm.excluded seen (Track.ID u) = false)
                      (dedup_from (<[Track.ID t := true]> seen) rest)).
    { eapply Forall_impl; [exact Hall |]. intros u Hu. cbn beta in Hu.
      rewrite excluded_insert in Hu. destruct (decide (Track.ID u = Track.ID t)); [discriminate |].
      auto. }
    split.
    + constructor; [exact Hex |]. eapply Forall_impl; [exact Hall' |]. intros u (_ & Hu). exact Hu.
    + unfold ids. cbn [map]. apply NoDup_cons. split; [| exact Hnd].
      intros Hin. apply list_elem_of_In, in_map_iff in Hin. destruct Hin as (u & Hid & Hu).
      rewrite Forall_forall in Hall'. apply list_elem_of_In in Hu.
      destruct (Hall' u Hu) as (Hne & _). contradiction.
Qed.

Lemma dedup_from_covers (seen : gmap string bool) (tracks : list Track.Track) (t : Track.Track) :
  In t tracks ->
  Bgm.excluded seen (Track.ID t) = true \/ In (Track.ID t) (ids (dedup_from seen tracks)).
Proof.
  revert seen. induction tracks as [| u rest IH]; intros seen Hin; [destruct Hin |].
  cbn [dedup_from]. destruct Hin as [-> | Hin].
  - destruct (Bgm.excluded seen (Track.ID t)) eqn:Hex; cbn [negb]; [left; reflexivity |].
    right. left. reflexivity.
  - destruct (Bgm.excluded seen (Track.ID u)) eqn:Hex; cbn [negb]; [apply IH, Hin |].
    destruct (IH (<[Track.ID u := true]> seen) Hin) as [H | H].
    + rewrite excluded_insert in H. destruct (decide (Track.ID t = Track.ID u)) as [Heq | _].
      * right. left. symmetry. exact Heq.
      * left. exact H.
    + right. right. exact H.
Qed.

Lemma dedup_from_idempotent (seen : gmap string bool) (tracks : list Track.Track) :
  dedup_from seen (dedup_from seen tracks) = dedup_from seen tracks.
Proof.
  revert seen. induction tracks as [| t rest IH]; intros seen; cbn [dedup_from]; [reflexivity |].
  destruct (Bgm.excluded seen (Track.ID t)) eqn:Hex; cbn [negb]; [apply IH |].
  cbn [dedup_from]. rewrite Hex. cbn [negb]. rewrite IH. reflexivity.
Qed.

Lemma dedup_from_first (seen : gmap string bool) (tracks : list Track.Track) (t : Track.Track) :
  In t (dedup_from seen tracks) ->
  find (fun u => String.eqb (Track.ID u) (Track.ID t)) tracks = Some t.
Proof.
  revert seen. induction tracks as [| u rest IH]; intros seen; cbn [dedup_from find];
    [intros [] |].
  destruct (Bgm.excluded seen (Track.ID u)) eqn:Hex; cbn [negb].
  - intros Hin. destruct (String.eqb_spec (Track.ID u) (Track.ID t)) as [Heq | _].
    + exfalso. pose proof (proj1 (dedup_from_fresh seen rest)) as Hall.
      rewrite Forall_forall in Hall. apply list_elem_of_In in Hin.
      specialize (Hall t Hin). cbn beta in Hall. congruence.
    + apply (IH seen Hin).
  - intros [-> | Hin].
    + rewrite String.eqb_refl. reflexivity.
    + destruct (String.eqb_spec (Track.ID u) (Track.ID t)) as [Heq | _].
      * exfalso. pose proof (proj1 (dedup_from_fresh (<[Track.ID u := true]> seen) rest)) as Hall.
        rewrite Forall_forall in Hall. apply list_elem_of_In in Hin.
        specialize (Hall t Hin). cbn beta in Hall. rewrite excluded_insert in Hall.
        destruct (decide (Track.ID t = Track.ID u)); [discriminate | congruence].
      * apply (IH _ Hin).
Qed.

(** X28.  [deduplicateByID] keeps, for every track id of its input, the
    first track with that id and nothing else: the result is a sub-list of
    the input in its order, its ids are pairwise distinct, every id of the
    input occurs in it, each kept track is the first of the input with its
    id, and deduplicating again changes nothing. *)
Theorem deduplicateByID_keeps_first_occurrences (tracks : list Track.Track) :
  sublist (Bgm.deduplicateByID tracks) tracks
  /\ NoDup (ids (Bgm.deduplicateByID tracks))
  /\ (forall t, In t tracks -> In (Track.ID t) (ids (Bgm.deduplicateByID tracks)))
  /\ (forall t, In t (Bgm.deduplicateByID tracks) ->
                find (fun u => String.eqb (Track.ID u) (Track.ID t)) tracks = Some t)
  /\ Bgm.deduplicateByID (Bgm.deduplicateByID tracks) = Bgm.deduplicateByID tracks.
Proof.
  rewrite !deduplicateByID_dedup_from.
  split; [apply dedup_from_sublist |].
  split; [apply dedup_from_fresh |].
  split; [| split].
  - intros t Hin. destruct (dedup_from_covers ∅ tracks t Hin) as [H | H]; [| exact H].
    unfold Bgm.excluded in H. rewrite lookup_empty in H. discriminate.
  - intros t. apply dedup_from_first.
  - apply dedup_from_idempotent.
Qed.

(** *** PlaylistProvider.GetCandidates *)

Definition not_excluded (ex : gmap string bool) (tracks : list Track.Track) : Prop :=
  Forall (fun t => Bgm.excluded ex (Track.ID t) = false) tracks.

Lemma contains_false (tracks : list Track.Track) (id : string) :
  Bgm.contains tracks id = false -> ~ In id (ids tracks).
Proof.
  unfold Bgm.contains, ids. intros Hc Hin. apply in_map_iff in Hin.
  destruct Hin as (t & Hid & Hin).
  assert (H : existsb (fun t => String.eqb (Track.ID t) id) tracks = true).
  { apply existsb_exists. exists t. split; [exact Hin | apply String.eqb_eq, Hid]. }
  congruence.
Qed.

Lemma NoDup_ids_snoc (tracks : list Track.Track) (t : Track.Track) :
  NoDup (ids tracks) -> ~ In (Track.ID t) (ids tracks) -> NoDup (ids (tracks ++ [t])).
Proof.
  intros Hnd Hnin. unfold ids. rewrite map_app. apply NoDup_app. split; [exact Hnd |].
  split; [| cbn; apply NoDup_singleton].
  intros x Hx Hx'. cbn in Hx'. apply list_elem_of_In in Hx, Hx'.
  destruct Hx' as [<- | []]. contradiction.
Qed.

Lemma In_of_firstn {A : Type} (n : nat) (l : list A) (x : A) : In x (firstn n l) -> In x l.
Proof.
  revert l. induction n as [| n IH]; intros [| y l]; cbn [firstn]; intros Hin;
    try (destruct Hin; fail).
  destruct Hin as [-> | Hin]; [left; reflexivity | right; apply IH, Hin].
Qed.

Lemma addFetched_invariant (ex : gmap string bool) (newTracks available : list Track.Track) :
  not_excluded ex available -> NoDup (ids available) ->
  not_excluded ex (Bgm.addFetched ex newTracks available)
  /\ NoDup (ids (Bgm.addFetched ex newTracks available))
  /\ (forall t, In t (Bgm.addFetched ex newTracks available) ->
                In t available \/ In t newTracks).
Proof.
  unfold Bgm.addFetched. revert available.
  induction newTracks as [| t rest IH]; intros available Hex Hnd; cbn [fold_left].
  - split; [exact Hex | split; [exact Hnd | auto]].
  - destruct (Bgm.excluded ex (Track.ID t)) eqn:Ht; cbn [negb andb].
    + destruct (IH available Hex Hnd) as (H1 & H2 & H3).
      split; [exact H1 | split; [exact H2 |]].
      intros u Hu. destruct (H3 u Hu); [left | right; right]; assumption.
    + destruct (Bgm.contains available (Track.ID t)) eqn:Hc; cbn [negb].
      * destruct (IH available Hex Hnd) as (H1 & H2 & H3).
        split; [exact H1 | split; [exact H2 |]].
        intros u Hu. destruct (H3 u Hu); [left | right; right]; assumption.
      * destruct (IH (available ++ [t])) as (H1 & H2 & H3).
        { apply Forall_app_2; [exact Hex | repeat constructor; exact Ht]. }
        { apply NoDup_ids_snoc; [exact Hnd | apply contains_false, Hc]. }
        split; [exact H1 | split; [exact H2 |]].
        intros u Hu. destruct (H3 u Hu) as [Hin | Hin]; [| right; right; exact Hin].
        apply in_app_iff in Hin. destruct Hin as [Hin | [<- | []]]; [left | right; left]; auto.
Qed.

(** What a call of [GetCandidates] on a provider with a duplicate-free cache
    gives: an error leaves the provider as it was; otherwise no candidate is
    excluded, the candidates and the cache that remains have pairwise
    distinct ids, and there are at most [count] candidates. *)
Definition playlist_call_ok (p : Bgm.PlaylistProvider) (count : Z) (ex : gmap string bool)
    (r : Bgm.PlaylistProvider * option (list Track.Track)) : Prop :=
  match snd r with
  | None => fst r = p
  | Some ts =>
      not_excluded ex ts
      /\ NoDup (ids (ts ++ Bgm.cache (fst r)))
      /\ Z.of_nat (length ts) <= Z.max 0 count
      /\ (forall t, In t ts ->
            In t (Bgm.cache p)
            \/ exists needed fetched,
                 Bgm.spotify p (Bgm.PlaylistURL p) needed = Some fetched /\ In t fetched)
  end.

Lemma PlaylistProvider_GetCandidates_ok (p : Bgm.PlaylistProvider) (count : Z)
    (seedTracks : list Track.Track) (ex : gmap string bool) :
  NoDup (ids (Bgm.cache p)) ->
  playlist_call_ok p count ex (Bgm.PlaylistProvider_GetCandidates p count seedTracks ex).
Proof.
  intros Hnd. unfold playlist_call_ok, Bgm.PlaylistProvider_GetCandidates.
  destruct (Z.leb_spec count 0) as [Hc | Hc]; cbn [fst snd].
  { split; [constructor | split; [exact Hnd | split; [cbn; lia | intros t []]]]. }
  cbv zeta.
  set (avail0 := List.filter (fun t => negb (Bgm.excluded ex (Track.ID t))) (Bgm.cache p)).
  assert (H0 : not_excluded ex avail0 /\ NoDup (ids avail0)
               /\ forall t, In t avail0 -> In t (Bgm.cache p)).
  { split; [| split].
    - apply Forall_forall. intros t Hin. apply list_elem_of_In, List.filter_In in Hin.
      apply negb_true_iff. exact (proj2 Hin).
    - eapply sublist_NoDup; [exact Hnd |]. apply sublist_map, filter_sublist.
    - intros t Hin. apply List.filter_In in Hin. exact (proj1 Hin). }
  destruct H0 as (Hex0 & Hnd0 & Hin0).
  assert (Hfinish : forall available,
            not_excluded ex available -> NoDup (ids available) ->
            (forall t, In t available ->
               In t (Bgm.cache p)
               \/ exists needed fetched,
                    Bgm.spotify p (Bgm.PlaylistURL p) needed = Some fetched /\ In t fetched) ->
            match
              snd (if (length available =? 0)%nat then (p, Some [])
                   else (Bgm.set_cache
                           (skipn (if Z.of_nat (length available) <? count
                                   then length available else Z.to_nat count) available) p,
                         Some (firstn (if Z.of_nat (length available) <? count
                                       then length available else Z.to_nat count) available)))
            with
            | None => True
            | Some ts =>
                not_excluded ex ts
                /\ NoDup (ids (ts ++ Bgm.cache
                                 (fst (if (length available =? 0)%nat then (p, Some [])
                                       else (Bgm.set_cache
                                               (skipn (if Z.of_nat (length available) <? count
                                                       then length available
                                                       else Z.to_nat count) available) p,
                                             Some (firstn (if Z.of_nat (length available) <? count
                                                           then length available
                                                           else Z.to_nat count) available))))))
                /\ Z.of_nat (length ts) <= Z.max 0 count
                /\ (forall t, In t ts ->
                      In t (Bgm.cache p)
                      \/ exists needed fetched,
                           Bgm.spotify p (Bgm.PlaylistURL p) needed = Some fetched
                           /\ In t fetched)
            end).
  { intros available Hex Hndup Hfrom.
    destruct (length available =? 0)%nat; cbn [fst snd].
    - split; [constructor | split; [exact Hnd | split; [cbn; lia | intros t []]]].
    - cbn [Bgm.cache Bgm.set_cache]. rewrite firstn_skipn.
      split; [| split; [exact Hndup | split]].
      + unfold not_excluded in *. rewrite Forall_forall in *. intros t Hin.
        apply Hex. apply list_elem_of_In in Hin. apply list_elem_of_In.
        exact (In_of_firstn _ _ _ Hin).
      + rewrite length_firstn.
        destruct (Z.ltb_spec (Z.of_nat (length available)) count); lia.
      + intros t Hin. apply Hfrom. exact (In_of_firstn _ _ _ Hin). }
  destruct (Z.of_nat (length avail0) <? count).
  - destruct (Bgm.spotify p (Bgm.PlaylistURL p) _) as [newTracks |] eqn:Hsp; [| reflexivity].
    destruct (addFetched_invariant ex newTracks avail0 Hex0 Hnd0) as (H1 & H2 & H3).
    pose proof (Hfinish (Bgm.addFetched ex newTracks avail0) H1 H2) as Hf.
    destruct (length (Bgm.addFetched ex newTracks avail0) =? 0)%nat; cbn [fst snd] in *;
      apply Hf; intros t Hin; (destruct (H3 t Hin) as [Ha | Hn];
        [left; apply Hin0, Ha | right; eexists; eexists; split; [exact Hsp | exact Hn]]).
  - pose proof (Hfinish avail0 Hex0 Hnd0) as Hf.
    destruct (length avail0 =? 0)%nat; cbn [fst snd] in *;
      apply Hf; intros t Hin; left; apply Hin0, Hin.
Qed.

(** X26.  [PlaylistProvider.GetCandidates] never offers a track that the
    caller excluded, never offers the same id twice, and never more than
    [count] tracks; what it offers comes from its cache or from the fetch it
    made, and what it keeps in the cache is disjoint (by id) from what it
    offered, so a later call does not offer it again.  An error of the
    catalog leaves the provider unchanged.  (For a cache that holds no id
    twice, which the calls preserve.) *)
Theorem PlaylistProvider_offers_fresh_tracks (p : Bgm.PlaylistProvider) (count : Z)
    (seedTracks : list Track.Track) (ex : gmap string bool) :
  NoDup (ids (Bgm.cache p)) ->
  let p' := fst (Bgm.PlaylistProvider_GetCandidates p count seedTracks ex) in
  NoDup (ids (Bgm.cache p'))
  /\ match snd (Bgm.PlaylistProvider_GetCandidates p count seedTracks ex) with
     | None => p' = p
     | Some ts =>
         Forall (fun t => Bgm.excluded ex (Track.ID t) = false) ts
         /\ NoDup (ids ts)
         /\ (forall t u, In t ts -> In u (Bgm.cache p') -> Track.ID t <> Track.ID u)
         /\ Z.of_nat (length ts) <= Z.max 0 count
         /\ (forall t, In t ts ->
               In t (Bgm.cache p)
               \/ exists needed fetched,
                    Bgm.spotify p (Bgm.PlaylistURL p) needed = Some fetched /\ In t fetched)
     end.
Proof.
  intros Hnd p'. subst p'.
  pose proof (PlaylistProvider_GetCandidates_ok p count seedTracks ex Hnd) as H.
  unfold playlist_call_ok in H.
  destruct (Bgm.PlaylistProvider_GetCandidates p count seedTracks ex) as [p' [ts |]];
    cbn [fst snd] in *.
  - destruct H as (Hex & Hndup & Hlen & Hfrom).
    unfold ids in Hndup. rewrite map_app in Hndup. apply NoDup_app in Hndup.
    destruct Hndup as (Hn1 & Hdisj & Hn2).
    split; [exact Hn2 |]. split; [exact Hex |]. split; [exact Hn1 |].
    split; [| split; [exact Hlen | exact Hfrom]].
    intros t u Ht Hu Heq. apply (Hdisj (Track.ID t)).
    + apply list_elem_of_In, in_map, Ht.
    + rewrite Heq. apply list_elem_of_In, in_map, Hu.
  - subst p'. split; [exact Hnd | reflexivity].
Qed.

Definition playlist_of_three : Bgm.PlaylistProvider :=
  {| Bgm.spotify := fun _ _ => Some [yesterday_A; ending_1; yesterday_A; ending_2; ending_3];
     Bgm.cache := [];
     Bgm.candidateCount := 5;
     Bgm.PlaylistURL := "bgm" |}.

Lemma PlaylistProvider_offers_fresh_tracks_witness :
  snd (Bgm.PlaylistProvider_GetCandidates playlist_of_three 2 [] {[ "e1"%string := true ]})
  = Some [yesterday_A; ending_2]
  /\ NoDup (ids (Bgm.cache
                   (fst (Bgm.PlaylistProvider_GetCandidates playlist_of_three 2 []
                           {[ "e1"%string := true ]})))).
Proof.
  split; [vm_compute; reflexivity |].
  apply (PlaylistProvider_offers_fresh_tracks playlist_of_three 2 [] {[ "e1"%string := true ]}).
  constructor.
Defined.

(** *** ProviderChain.GetCandidates *)

Lemma excludeAll_spec (candidates : list Track.Track) (ex : gmap string bool) (id : string) :
  Bgm.excluded (Bgm.excludeAll candidates ex) id = true
  <-> Bgm.excluded ex id = true \/ In id (ids candidates).
Proof.
  unfold Bgm.excludeAll. revert ex.
  induction candidates as [| t rest IH]; intros ex; cbn [fold_left ids map].
  - split; [auto | intros [H | []]; exact H].
  - rewrite IH, excluded_insert. fold (ids rest).
    destruct (decide (id = Track.ID t)) as [-> | Hne]; cbn [In]; intuition congruence.
Qed.

Section Chain.

Context {P : Type} `{Bgm.Provider P}.

(** What the chain asks of its providers: a condition [good] on a provider
    that every call preserves and under which a call offers no excluded
    track and no id twice. *)
Variable good : P -> Prop.

Hypothesis provider_respects_exclusions :
  forall (p : P) (count : Z) (seedTracks : list Track.Track) (ex : gmap string bool),
    good p ->
    good (fst (Bgm.GetCandidates p count seedTracks ex))
    /\ forall ts, snd (Bgm.GetCandidates p count seedTracks ex) = Some ts ->
                  not_excluded ex ts /\ NoDup (ids ts).

Definition candidate_ids (cs : list Bgm.CandidateWithSource) : list string :=
  map (fun c => Track.ID (Bgm.CTrack c)) cs.

(** The invariant of the loop. *)
Definition chain_invariant (ex : gmap string bool) (names : list string)
    (st : Bgm.ChainLoop P) : Prop :=
  Forall (fun pm => good (Bgm.WProvider pm)) (Bgm.tried st)
  /\ (forall id, Bgm.excluded (Bgm.currentExcludeIDs st) id = true
                 <-> Bgm.excluded ex id = true \/ In id (candidate_ids (Bgm.allCandidates st)))
  /\ Forall (fun c => Bgm.excluded ex (Track.ID (Bgm.CTrack c)) = false) (Bgm.allCandidates st)
  /\ NoDup (candidate_ids (Bgm.allCandidates st))
  /\ Forall (fun c => In (Bgm.CDisplayName c) names) (Bgm.allCandidates st).

Lemma candidate_ids_tagged (name : string) (ts : list Track.Track) :
  candidate_ids (map (fun t => Bgm.mkCandidate t name) ts) = ids ts.
Proof. unfold candidate_ids, ids. rewrite map_map. reflexivity. Qed.

Lemma Chain_step_invariant (count : Z) (seedTracks : list Track.Track) (ex : gmap string bool)
    (names : list string) (st : Bgm.ChainLoop P) (pm : Bgm.ProviderWithMetadata P) :
  good (Bgm.WProvider pm) -> In (Bgm.WDisplayName pm) names ->
  chain_invariant ex names st ->
  chain_invariant ex names (Bgm.Chain_step count seedTracks st pm)
  /\ map Bgm.WDisplayName (Bgm.tried (Bgm.Chain_step count seedTracks st pm))
     = map Bgm.WDisplayName (Bgm.tried st) ++ [Bgm.WDisplayName pm].
Proof.
  intros Hgood Hname (Htried & Hex & Hfresh & Hnd & Hnames).
  unfold Bgm.Chain_step.
  destruct (provider_respects_exclusions (Bgm.WProvider pm) count seedTracks
              (Bgm.currentExcludeIDs st) Hgood) as (Hgood' & Hres).
  destruct (Bgm.GetCandidates (Bgm.WProvider pm) count seedTracks (Bgm.currentExcludeIDs st))
    as [p' [ts |]]; cbn [fst snd] in *.
  - destruct (Hres ts eq_refl) as (Hts & Hndts).
    split; [| cbn [Bgm.tried]; rewrite map_app; reflexivity].
    unfold chain_invariant. cbn [Bgm.tried Bgm.allCandidates Bgm.currentExcludeIDs].
    assert (Hts' : Forall (fun t => Bgm.excluded ex (Track.ID t) = false
                                    /\ ~ In (Track.ID t) (candidate_ids (Bgm.allCandidates st))) ts).
    { eapply Forall_impl; [exact Hts |]. intros t Ht. cbn beta in Ht.
      split.
      - destruct (Bgm.excluded ex (Track.ID t)) eqn:He; [| reflexivity].
        rewrite (proj2 (Hex (Track.ID t)) (or_introl He)) in Ht. discriminate.
      - intros Hin. rewrite (proj2 (Hex (Track.ID t)) (or_intror Hin)) in Ht. discriminate. }
    split; [apply Forall_app_2; [exact Htried | repeat constructor; exact Hgood'] |].
    split; [| split; [| split]].
    + intros id. rewrite excludeAll_spec, Hex. unfold candidate_ids at 2.
      rewrite map_app. fold (candidate_ids (Bgm.allCandidates st)).
      fold (candidate_ids (map (fun t => Bgm.mkCandidate t (Bgm.WDisplayName pm)) ts)).
      rewrite candidate_ids_tagged, in_app_iff. tauto.
    + apply Forall_app_2; [exact Hfresh |]. apply Forall_forall. intros c Hc.
      apply list_elem_of_In, in_map_iff in Hc. destruct Hc as (t & <- & Ht).
      rewrite Forall_forall in Hts'. apply list_elem_of_In in Ht. exact (proj1 (Hts' t Ht)).
    + unfold candidate_ids. rewrite map_app.
      fold (candidate_ids (Bgm.allCandidates st)).
      fold (candidate_ids (map (fun t => Bgm.mkCandidate t (Bgm.WDisplayName pm)) ts)).
      rewrite candidate_ids_tagged. apply NoDup_app. split; [exact Hnd |]. split; [| exact Hndts].
      intros id Hid Hid'. apply list_elem_of_In in Hid, Hid'.
      apply in_map_iff in Hid'. destruct Hid' as (t & <- & Ht).
      rewrite Forall_forall in Hts'. apply list_elem_of_In in Ht.
      exact (proj2 (Hts' t Ht) Hid).
    + apply Forall_app_2; [exact Hnames |]. apply Forall_forall. intros c Hc.
      apply list_elem_of_In, in_map_iff in Hc. destruct Hc as (t & <- & _). exact Hname.
  - split; [| cbn [Bgm.tried]; rewrite map_app; reflexivity].
    unfold chain_invariant. cbn [Bgm.tried Bgm.allCandidates Bgm.currentExcludeIDs].
    split; [apply Forall_app_2; [exact Htried | repeat constructor; exact Hgood'] |].
    auto.
Qed.

Lemma Chain_loop_invariant (count : Z) (seedTracks : list Track.Track) (ex : gmap string bool)
    (names : list string) (providers : list (Bgm.ProviderWithMetadata P))
    (st : Bgm.ChainLoop P) :
  Forall (fun pm => good (Bgm.WProvider pm)) providers ->
  Forall (fun pm => In (Bgm.WDisplayName pm) names) providers ->
  chain_invariant ex names st ->
  chain_invariant ex names (fold_left (Bgm.Chain_step count seedTracks) providers st)
  /\ map Bgm.WDisplayName (Bgm.tried (fold_left (Bgm.Chain_step count seedTracks) providers st))
     = map Bgm.WDisplayName (Bgm.tried st) ++ map Bgm.WDisplayName providers.
Proof.
  revert st. induction providers as [| pm rest IH]; intros st Hgood Hnames Hinv;
    cbn [fold_left map].
  - rewrite app_nil_r. auto.
  - apply Forall_cons in Hgood, Hnames. destruct Hgood as (Hg & Hgood), Hnames as (Hn & Hnames).
    destruct (Chain_step_invariant count seedTracks ex names st pm Hg Hn Hinv) as (Hinv' & Hnm).
    destruct (IH _ Hgood Hnames Hinv') as (Hfinal & Hnm').
    split; [exact Hfinal |]. rewrite Hnm', Hnm, <- app_assoc. reflexivity.
Qed.

(** X27.  [ProviderChain.GetCandidates] asks every provider, each with the
    ids already offered by the earlier ones added to the exclude set.  When
    every provider respects the exclude set it is given and offers no id
    twice, the chain offers no excluded track and no id twice across
    providers; every candidate carries the display name of a provider of the
    chain; the chain keeps its providers in order; and the answer is an
    error exactly when no provider offered anything. *)
Theorem ProviderChain_offers_fresh_tracks (providers : list (Bgm.ProviderWithMetadata P))
    (count : Z) (seedTracks : list Track.Track) (excludeIDs : gmap string bool) :
  Forall (fun pm => good (Bgm.WProvider pm)) providers ->
  let r := Bgm.Chain_GetCandidates providers count seedTracks excludeIDs in
  Forall (fun pm => good (Bgm.WProvider pm)) (fst r)
  /\ map Bgm.WDisplayName (fst r) = map Bgm.WDisplayName providers
  /\ match snd r with
     | None => True
     | Some cs =>
         cs <> []
         /\ Forall (fun c => Bgm.excluded excludeIDs (Track.ID (Bgm.CTrack c)) = false) cs
         /\ NoDup (candidate_ids cs)
         /\ Forall (fun c => In (Bgm.CDisplayName c) (map Bgm.WDisplayName providers)) cs
     end.
Proof.
  intros Hgood r. subst r. unfold Bgm.Chain_GetCandidates. cbv zeta.
  destruct (Chain_loop_invariant count seedTracks excludeIDs (map Bgm.WDisplayName providers)
              providers (Bgm.mkChainLoop [] [] excludeIDs) Hgood)
    as ((Htried & _ & Hfresh & Hnd & Hnames) & Hnm).
  { apply Forall_forall. intros pm Hpm. apply list_elem_of_In in Hpm. apply in_map, Hpm. }
  { unfold chain_invariant. cbn [Bgm.tried Bgm.allCandidates Bgm.currentExcludeIDs].
    split; [constructor |]. split; [intros id; cbn; tauto |].
    split; [constructor | split; constructor]. }
  cbn [fst snd]. split; [exact Htried |]. split; [exact Hnm |].
  destruct (Bgm.allCandidates _) as [| c cs] eqn:Hall; cbn [length Nat.eqb]; [exact I |].
  split; [discriminate | auto].
Qed.

End Chain.

#[local] Existing Instance Bgm.PlaylistProvider_Provider.

Lemma PlaylistProvider_respects_exclusions (p : Bgm.PlaylistProvider) (count : Z)
    (seedTracks : list Track.Track) (ex : gmap string bool) :
  NoDup (ids (Bgm.cache p)) ->
  NoDup (ids (Bgm.cache (fst (Bgm.GetCandidates p count seedTracks ex))))
  /\ forall ts, snd (Bgm.GetCandidates p count seedTracks ex) = Some ts ->
                not_excluded ex ts /\ NoDup (ids ts).
Proof.
  intros Hnd. cbn [Bgm.GetCandidates Bgm.PlaylistProvider_Provider].
  pose proof (PlaylistProvider_GetCandidates_ok p count seedTracks ex Hnd) as H.
  unfold playlist_call_ok in H.
  destruct (Bgm.PlaylistProvider_GetCandidates p count seedTracks ex) as [p' [ts |]];
    cbn [fst snd] in *.
  - destruct H as (Hex & Hndup & _). unfold ids in Hndup. rewrite map_app in Hndup.
    apply NoDup_app in Hndup. destruct Hndup as (Hn1 & _ & Hn2).
    split; [exact Hn2 |]. intros ts' [= <-]. split; assumption.
  - subst p'. split; [exact Hnd | discriminate].
Qed.

Definition chain_of_two : list (Bgm.ProviderWithMetadata Bgm.PlaylistProvider) :=
  [ Bgm.mkProviderWithMetadata playlist_of_three "DJ selection";
    Bgm.mkProviderWithMetadata
      {| Bgm.spotify := fun _ _ => Some [ending_2; yesterday_C; ending_3];
         Bgm.cache := [];
         Bgm.candidateCount := 5;
         Bgm.PlaylistURL := "more" |}
      "More music" ].

Lemma ProviderChain_offers_fresh_tracks_witness :
  option_map (map (fun c => (Track.ID (Bgm.CTrack c), Bgm.CDisplayName c)))
    (snd (Bgm.Chain_GetCandidates chain_of_two 2 [] {[ "e1"%string := true ]}))
  = Some [("A", "DJ selection"); ("e2", "DJ selection"); ("C", "More music");
          ("e3", "More music")]%string
  /\ map Bgm.WDisplayName (fst (Bgm.Chain_GetCandidates chain_of_two 2 [] {[ "e1"%string := true ]}))
     = map Bgm.WDisplayName chain_of_two.
Proof.
  split; [vm_compute; reflexivity |].
  apply (ProviderChain_offers_fresh_tracks (fun p => NoDup (ids (Bgm.cache p)))
           PlaylistProvider_respects_exclusions chain_of_two 2 [] {[ "e1"%string := true ]}).
  repeat constructor.
Defined.

(** ** The retry loop of the Spotify client *)

(** The pauses before the second, third, ... call: the k-th one is k times
    the delay of the client. *)
Definition pauses (retryDelay : Z) (n : nat) : list Z :=
  map (fun j => Go.mul64 retryDelay (Z.of_nat j + 1)) (seq 0 n).

Lemma pauses_S (retryDelay : Z) (n : nat) :
  pauses retryDelay (S n) = pauses retryDelay n ++ [Go.mul64 retryDelay (Z.of_nat n + 1)].
Proof. unfold pauses. rewrite seq_S, map_app. reflexivity. Qed.

(** What a finished run of [retry] looks like. *)
Definition retry_outcome (fn : nat -> option string) (maxRetries retryDelay : Z)
    (run : SpotifyClient.RetryResult * nat * list Z) : Prop :=
  let '(res, calls, sleeps) := run in
  (calls <= Z.to_nat maxRetries)%nat
  /\ (forall j, (S j < calls)%nat -> SpotifyClient.isRetryable (fn j) = true)
  /\ sleeps = pauses retryDelay (calls - 1)
  /\ match res with
     | SpotifyClient.RetryOk =>
         exists k, calls = S k /\ fn k = None
     | SpotifyClient.RetryError err =>
         exists k, calls = S k /\ fn k = Some err
                   /\ SpotifyClient.isRetryable (Some err) = false
     | SpotifyClient.RetryExhausted lastErr =>
         calls = Z.to_nat maxRetries
         /\ (forall j, (j < calls)%nat -> SpotifyClient.isRetryable (fn j) = true)
         /\ lastErr = match calls with O => None | S k => fn k end
     end.

Lemma retry_loop_outcome (fn : nat -> option string) (maxRetries retryDelay : Z) :
  Go.in_int64 maxRetries ->
  forall (remaining i : nat) (lastErr : option string) (sleeps : list Z),
    (i + remaining = Z.to_nat maxRetries)%nat ->
    (forall j, (j < i)%nat -> SpotifyClient.isRetryable (fn j) = true) ->
    sleeps = pauses retryDelay (Nat.min i (Z.to_nat maxRetries - 1)) ->
    lastErr = match i with O => None | S k => fn k end ->
    retry_outcome fn maxRetries retryDelay
      (SpotifyClient.retry_loop fn maxRetries retryDelay remaining i lastErr sleeps).
Proof.
  intros Hrange. unfold Go.in_int64, Go.min_int64, Go.max_int64 in Hrange.
  induction remaining as [| remaining IH]; intros i lastErr sleeps Hi Hretry Hsleeps Hlast;
    cbn [SpotifyClient.retry_loop].
  - unfold retry_outcome. rewrite Nat.add_0_r in Hi. subst i.
    repeat split.
    + lia.
    + intros j Hj. apply Hretry. lia.
    + rewrite Hsleeps. f_equal. lia.
    + exact Hretry.
    + exact Hlast.
  - assert (Hhere : Nat.min i (Z.to_nat maxRetries - 1) = i) by lia.
    rewrite Hhere in Hsleeps.
    destruct (fn i) as [err |] eqn:Hfn.
    + destruct (SpotifyClient.isRetryable (Some err)) eqn:Herr; cbn [negb].
      * apply IH.
        -- lia.
        -- intros j Hj. destruct (Nat.eq_dec j i) as [-> | Hne].
           ++ rewrite Hfn. exact Herr.
           ++ apply Hretry. lia.
        -- assert (Hsub : Go.sub64 maxRetries 1 = maxRetries - 1).
           { apply sub64_small. unfold Go.min_int64, Go.max_int64. lia. }
           rewrite Hsub.
           destruct (Z.ltb_spec (Z.of_nat i) (maxRetries - 1)) as [Hlt | Hge].
           ++ replace (Nat.min (S i) (Z.to_nat maxRetries - 1)) with (S i) by lia.
              rewrite pauses_S, Hsleeps. do 3 f_equal.
              apply add64_small. unfold Go.min_int64, Go.max_int64. lia.
           ++ rewrite Hsleeps. f_equal. lia.
        -- symmetry. exact Hfn.
      * unfold retry_outcome. repeat split.
        -- lia.
        -- intros j Hj. apply Hretry. lia.
        -- rewrite Hsleeps. f_equal. lia.
        -- exists i. auto.
    + unfold retry_outcome. repeat split.
      * lia.
      * intros j Hj. apply Hretry. lia.
      * rewrite Hsleeps. f_equal. lia.
      * exists i. auto.
Qed.

(** X29.  [retry] calls the operation at most [maxRetries] times, one call
    after the other; every call but the last one failed with a retryable
    error; it sleeps between two calls and never after the last one, the k-th
    pause being k times [retryDelay].  It returns [nil] exactly after a call
    that succeeded, the error of the operation itself after a call that
    failed with an error that is not retryable, and the last error wrapped as
    "max retries exceeded" when all [maxRetries] calls failed with retryable
    errors (with no error to wrap when [maxRetries] is not positive). *)
Theorem retry_stops_at_the_first_final_answer (fn : nat -> option string)
    (maxRetries retryDelay : Z) :
  Go.in_int64 maxRetries ->
  retry_outcome fn maxRetries retryDelay (SpotifyClient.retry fn maxRetries retryDelay).
Proof.
  intros Hrange. unfold SpotifyClient.retry.
  apply retry_loop_outcome; try reflexivity.
  - exact Hrange.
  - intros j Hj. lia.
Qed.

(** A rate limit on the first call, a server error on the second one, then
    success. *)
Definition answers_of_a_busy_server (i : nat) : option string :=
  match i with
  | 0%nat => Some "429 Too Many Requests"
  | 1%nat => Some "503 Service Unavailable"
  | _ => None
  end.

Lemma retry_stops_at_the_first_final_answer_witness :
  Go.in_int64 3
  /\ retry_outcome answers_of_a_busy_server 3 Go.Second
       (SpotifyClient.RetryOk, 3%nat, [Go.Second; 2 * Go.Second]).
Proof.
  assert (Hrange : Go.in_int64 3)
    by (unfold Go.in_int64, Go.min_int64, Go.max_int64; lia).
  split; [exact Hrange |].
  exact (retry_stops_at_the_first_final_answer answers_of_a_busy_server 3 Go.Second Hrange).
Defined.

(** ** The duplicate-track filter and the order of the track list *)

Lemma EqualFold_sym (s t : string) : Strs.EqualFold s t = Strs.EqualFold t s.
Proof. unfold Strs.EqualFold. apply String.eqb_sym. Qed.

Lemma isSameArtist_sym (t1 t2 : Track.Track) :
  Filter.isSameArtist t1 t2 = Filter.isSameArtist t2 t1.
Proof.
  unfold Filter.isSameArtist.
  destruct (Track.Artists t1), (Track.Artists t2); try reflexivity.
  apply EqualFold_sym.
Qed.

Lemma isRemaster_sym (t1 t2 : Track.Track) :
  Filter.isRemaster t1 t2 = Filter.isRemaster t2 t1.
Proof.
  unfold Filter.isRemaster. cbv zeta.
  rewrite (String.eqb_sym (Filter.normalizeTrackName (Track.Name t1))), isSameArtist_sym.
  reflexivity.
Qed.

(** X30.  The verdict of the duplicate-track filter depends on which tracks
    the list holds, not on their order: the loop returns at the first track
    that matches, and every match gives the same rejection.  The comparison
    of two tracks itself is symmetric. *)
Theorem duplicate_verdict_ignores_the_order (queuedTracks reordered : list Track.QueuedTrack)
    (requested : Track.Track) :
  Permutation queuedTracks reordered ->
  Filter.DuplicateTrack_loop queuedTracks requested
  = Filter.DuplicateTrack_loop reordered requested
  /\ forall queued, In queued queuedTracks ->
       Filter.isRemaster (Track.track queued) requested
       = Filter.isRemaster requested (Track.track queued).
Proof.
  intros Hperm. split; [| intros queued _; apply isRemaster_sym].
  assert (Hrej : Filter.DuplicateTrack_loop queuedTracks requested = Filter.Reject "duplicate_track"
                 <-> Filter.DuplicateTrack_loop reordered requested = Filter.Reject "duplicate_track").
  { rewrite !DuplicateTrack_loop_rejects. split; intros (q & Hin & Hq); exists q; split; try exact Hq.
    - eapply Permutation_in; [exact Hperm | exact Hin].
    - eapply Permutation_in; [apply Permutation_sym; exact Hperm | exact Hin]. }
  destruct (DuplicateTrack_loop_two_results queuedTracks requested) as [Ha | Hr];
    destruct (DuplicateTrack_loop_two_results reordered requested) as [Ha' | Hr'];
    try congruence.
  - apply Hrej in Hr'. rewrite Hr' in Ha. discriminate Ha.
  - apply Hrej in Hr. rewrite Hr in Ha'. discriminate Ha'.
Qed.

Lemma duplicate_verdict_ignores_the_order_witness :
  Permutation [queued_by "u1" yesterday_C; queued_by "u2" yesterday_A]
              [queued_by "u2" yesterday_A; queued_by "u1" yesterday_C]
  /\ Filter.DuplicateTrack_loop [queued_by "u1" yesterday_C; queued_by "u2" yesterday_A] yesterday_B
     = Filter.DuplicateTrack_loop [queued_by "u2" yesterday_A; queued_by "u1" yesterday_C] yesterday_B.
Proof.
  assert (Hperm : Permutation [queued_by "u1" yesterday_C; queued_by "u2" yesterday_A]
                              [queued_by "u2" yesterday_A; queued_by "u1" yesterday_C])
    by apply perm_swap.
  split; [exact Hperm |].
  exact (proj1 (duplicate_verdict_ignores_the_order _ _ yesterday_B Hperm)).
Defined.
